(** * Trading bot: threshold strategy and backtesting engine

    A shallow embedding of [strategy.ts], [types.ts], [backtesting.ts],
    the account reader of [binance-client.ts] and the signal execution of
    [trading-bot.ts], with the properties of the strategy, the TWAP slicer,
    the risk check, the performance analyser and the live bot proved over
    it.

    The program is embedded at two levels.

    Objects and exact numbers.  The caller's portfolio, the engine's private
    copy of it and the snapshot handed back in the result are objects in one
    store ([Heap.heap]) addressed by locations, so that aliasing between
    them is visible.  At this level a JavaScript [number] is an exact
    rational [Q]: rounding is idealised away and every number the program is
    given is finite.  The one way the program itself leaves the finite
    numbers is a division by zero; the results of the divisions that can
    meet a zero divisor are therefore carried in [JSNum.num], which adds
    [Infinity], [-Infinity] and [NaN] with their IEEE-754 arithmetic and
    comparisons (there is a single zero, the positive one).  This level
    carries the properties of what is written and what is left alone, of
    the accounts of cash and holdings, and of the slicing.

    Double-precision numbers.  In [IEEE] the same functions work on the
    binary64 values the program computes with ([Double.t]), every operation
    rounded to nearest, with the two zeros, the infinities and [NaN]; the
    engine's portfolio is carried by value.  This level carries the
    properties that a comparison at a limit decides: the risk check, the
    thresholds of the strategy, the Sharpe ratio, the total return, and the
    live execution against the simulated one.

    Property lookup.  [assets[symbol]] follows the prototype chain: under a
    name that every object inherits from [Object.prototype] it yields an
    object even when the record has no such key ([Heap.inherited]). *)

From Stdlib Require Import QArith Qminmax Lqa.
From Stdlib Require SpecFloat.
From stdpp Require Import gmap strings list fin_maps.

Open Scope Q_scope.

(* ===================================================================== *)
(** ** Numbers that may leave the finite range *)
(* ===================================================================== *)

Module JSNum.

Inductive num : Type :=
| Fin (q : Q)
| PInf
| NInf
| NaN.

(** The infinity with the sign of [q]; [NaN] for zero. *)
Definition signed_inf (q : Q) : num :=
  match q ?= 0 with
  | Gt => PInf
  | Lt => NInf
  | Eq => NaN
  end.

Definition opp (x : num) : num :=
  match x with
  | Fin q => Fin (- q)
  | PInf => NInf
  | NInf => PInf
  | NaN => NaN
  end.

Definition add (x y : num) : num :=
  match x, y with
  | NaN, _ | _, NaN => NaN
  | Fin a, Fin b => Fin (a + b)
  | PInf, NInf | NInf, PInf => NaN
  | PInf, _ | _, PInf => PInf
  | NInf, _ | _, NInf => NInf
  end.

Definition sub (x y : num) : num := add x (opp y).

Definition mul (x y : num) : num :=
  match x, y with
  | NaN, _ | _, NaN => NaN
  | Fin a, Fin b => Fin (a * b)
  | Fin a, PInf | PInf, Fin a => signed_inf a
  | Fin a, NInf | NInf, Fin a => signed_inf (- a)
  | PInf, PInf | NInf, NInf => PInf
  | PInf, NInf | NInf, PInf => NInf
  end.

(** [x / y].  A finite dividend over zero gives the infinity of the
    dividend's sign, and [0 / 0] is [NaN]. *)
Definition div (x y : num) : num :=
  match x, y with
  | NaN, _ | _, NaN => NaN
  | Fin a, Fin b => if Qeq_bool b 0 then signed_inf a else Fin (a / b)
  | Fin _, (PInf | NInf) => Fin 0
  | PInf, Fin b => if Qle_bool 0 b then PInf else NInf
  | NInf, Fin b => if Qle_bool 0 b then NInf else PInf
  | (PInf | NInf), (PInf | NInf) => NaN
  end.

(** [x <= y]; false as soon as one side is [NaN]. *)
Definition leb (x y : num) : bool :=
  match x, y with
  | NaN, _ | _, NaN => false
  | Fin a, Fin b => Qle_bool a b
  | NInf, _ | _, PInf => true
  | _, _ => false
  end.

(** [x < y]; false as soon as one side is [NaN]. *)
Definition ltb (x y : num) : bool :=
  match x, y with
  | NaN, _ | _, NaN => false
  | Fin a, Fin b => negb (Qle_bool b a)
  | NInf, NInf | PInf, PInf => false
  | NInf, _ | _, PInf => true
  | _, _ => false
  end.

(** [x !== 0]. *)
Definition nonzero (x : num) : bool :=
  match x with
  | Fin q => negb (Qeq_bool q 0)
  | _ => true
  end.

(** [Math.sqrt], given the square root [sq] of the finite non-negative
    numbers. *)
Definition sqrt (sq : Q -> Q) (x : num) : num :=
  match x with
  | Fin q => if Qle_bool 0 q then Fin (sq q) else NaN
  | PInf => PInf
  | NInf | NaN => NaN
  end.

Definition le (x y : num) : Prop := leb x y = true.
Definition lt (x y : num) : Prop := ltb x y = true.

Definition is_finite (x : num) : Prop :=
  match x with Fin _ => True | _ => False end.

End JSNum.

(** [a < b] on finite numbers. *)
Definition Qlt_bool (a b : Q) : bool := negb (Qle_bool b a).

(* ===================================================================== *)
(** ** types.ts *)
(* ===================================================================== *)

Inductive Side : Type := BUY | SELL.

Record Asset : Type := mkAsset {
  a_symbol : string;
  a_price : Q;
  a_holdings : Q
}.

Record Trade : Type := mkTrade {
  t_symbol : string;
  t_side : Side;
  t_quantity : Q;
  t_price : Q;
  t_timestamp : Q
}.

Record PriceUpdate : Type := mkPriceUpdate {
  u_symbol : string;
  u_price : Q;
  u_timestamp : Q
}.

Record RiskLimits : Type := mkRiskLimits {
  maxPositionSize : Q;
  maxDailyLoss : Q;
  maxTradeSize : Q
}.

Record StrategyConfig : Type := mkStrategyConfig {
  dropThreshold : Q;
  riseThreshold : Q;
  buyPercentage : Q;
  sellPercentage : Q;
  twapSlices : Q;
  twapInterval : Q
}.

(* ===================================================================== *)
(** ** strategy.ts *)
(* ===================================================================== *)

(** A trade signal.  The source's fourth field, [reason], is a message for
    the log built with [toFixed]; nothing reads it back and it is left out. *)
Record TradeSignal : Type := mkTradeSignal {
  s_symbol : string;
  s_action : Side;
  s_percentage : Q
}.

(** The interface [IStrategy]: the three operations the engine drives a
    strategy through, over the strategy's own state. *)
Class IStrategy (S : Type) : Type := {
  initialize : S -> StrategyConfig -> S;
  onUpdate : S -> PriceUpdate -> option TradeSignal * S;
  onEnd : S -> S
}.

Module DropRiseStrategy.

Record t : Type := mk {
  config : StrategyConfig;
  priceHistory : gmap string (list Q);
  initialPrices : gmap string Q
}.

Definition defaultConfig : StrategyConfig :=
  {| dropThreshold := 5 # 100; riseThreshold := 10 # 100;
     buyPercentage := 10 # 100; sellPercentage := 20 # 100;
     twapSlices := 5; twapInterval := 60000 |}.

(** [new DropRiseStrategy()]. *)
Definition create : t :=
  {| config := defaultConfig; priceHistory := ∅; initialPrices := ∅ |}.

(** [{ ...this.config, ...config }]: every field of [StrategyConfig] is
    required, so each default is overridden. *)
Definition initialize (st : t) (cfg : StrategyConfig) : t :=
  {| config := cfg; priceHistory := priceHistory st;
     initialPrices := initialPrices st |}.

(** [history.push(price); if (history.length > 100) history.shift()]. *)
Definition pushHistory (price : Q) (history : list Q) : list Q :=
  let history' := history ++ [price] in
  if (100 <? length history')%nat then tail history' else history'.

(** [(price - initialPrice) / initialPrice]. *)
Definition priceChange (price initialPrice : Q) : JSNum.num :=
  JSNum.div (JSNum.Fin (price - initialPrice)) (JSNum.Fin initialPrice).

(** The two threshold tests, in the order the source makes them. *)
Definition decide_signal (cfg : StrategyConfig) (symbol : string)
    (change : JSNum.num) : option TradeSignal :=
  if JSNum.leb change (JSNum.Fin (- dropThreshold cfg)) then
    Some {| s_symbol := symbol; s_action := BUY;
            s_percentage := buyPercentage cfg |}
  else if JSNum.leb (JSNum.Fin (riseThreshold cfg)) change then
    Some {| s_symbol := symbol; s_action := SELL;
            s_percentage := sellPercentage cfg |}
  else None.

(** [onUpdate].  The history of a known symbol is updated in place; both
    maps are always set together, so the history is there whenever the
    initial price is (see [DropRiseFacts.history_dom]). *)
Definition onUpdate (st : t) (update : PriceUpdate) : option TradeSignal * t :=
  let symbol := u_symbol update in
  let price := u_price update in
  match initialPrices st !! symbol with
  | None =>
      (None,
       {| config := config st;
          priceHistory := <[symbol := [price]]> (priceHistory st);
          initialPrices := <[symbol := price]> (initialPrices st) |})
  | Some initialPrice =>
      (decide_signal (config st) symbol (priceChange price initialPrice),
       {| config := config st;
          priceHistory := alter (pushHistory price) symbol (priceHistory st);
          initialPrices := initialPrices st |})
  end.

Definition onEnd (st : t) : t :=
  {| config := config st; priceHistory := ∅; initialPrices := ∅ |}.

(** The strategy with another value in the [twapSlices] field of its
    configuration. *)
Definition setTwapSlices (n : Q) (st : t) : t :=
  {| config :=
       {| dropThreshold := dropThreshold (config st);
          riseThreshold := riseThreshold (config st);
          buyPercentage := buyPercentage (config st);
          sellPercentage := sellPercentage (config st);
          twapSlices := n;
          twapInterval := twapInterval (config st) |};
     priceHistory := priceHistory st;
     initialPrices := initialPrices st |}.

(** The strategy after a whole sequence of updates. *)
Definition feed (st : t) (updates : list PriceUpdate) : t :=
  fold_left (fun s u => snd (onUpdate s u)) updates st.

(** The price of the first update of [symbol] in a sequence. *)
Fixpoint firstPrice (symbol : string) (updates : list PriceUpdate) : option Q :=
  match updates with
  | [] => None
  | u :: rest =>
      if decide (u_symbol u = symbol) then Some (u_price u)
      else firstPrice symbol rest
  end.

(** The prices of the updates of [symbol] in a sequence, in order. *)
Fixpoint pricesOf (symbol : string) (updates : list PriceUpdate) : list Q :=
  match updates with
  | [] => []
  | u :: rest =>
      if decide (u_symbol u = symbol) then u_price u :: pricesOf symbol rest
      else pricesOf symbol rest
  end.

(** The last [n] elements of a list (the whole list when it is shorter). *)
Definition lastN {A : Type} (n : nat) (l : list A) : list A :=
  drop (length l - n) l.

(** The two tables of a strategy agree with the prices [ps] seen so far for
    [s]: the first is the reference, the last hundred are the history. *)
Definition tracks (s : string) (ps : list Q) (st : t) : Prop :=
  initialPrices st !! s = head ps /\
  priceHistory st !! s = match ps with [] => None | _ => Some (lastN 100 ps) end.

End DropRiseStrategy.

#[export] Instance DropRise_IStrategy : IStrategy DropRiseStrategy.t := {
  initialize := DropRiseStrategy.initialize;
  onUpdate := DropRiseStrategy.onUpdate;
  onEnd := DropRiseStrategy.onEnd
}.

(* ===================================================================== *)
(** ** The object store *)
(* ===================================================================== *)

Module Heap.

Definition loc : Type := positive.

(** A [Portfolio] object: its cash and the reference to its [assets]
    record. *)
Record PortfolioObj : Type := mkPortfolio {
  cash : Q;
  assets : loc
}.

(** The three kinds of objects of [types.ts] that are shared by
    reference, each kind in a store of its own: [Portfolio] objects,
    [Record<string, Asset>] objects (properties in enumeration order, each
    holding a reference to an [Asset]) and [Asset] objects. *)
Record heap : Type := mkHeap {
  portfolios : gmap loc PortfolioObj;
  records : gmap loc (list (string * loc));
  assetObjs : gmap loc Asset
}.

#[export] Instance Q_inhabited : Inhabited Q := populate 0.
#[export] Instance Asset_inhabited : Inhabited Asset :=
  populate (mkAsset "" 0 0).
#[export] Instance PortfolioObj_inhabited : Inhabited PortfolioObj :=
  populate (mkPortfolio 0 1%positive).

(** Reads through a reference.  A reference the program holds always leads
    to an object; the default that [!!!] gives elsewhere is never used. *)
Definition getPortfolio (h : heap) (p : loc) : PortfolioObj := portfolios h !!! p.
Definition getRecord (h : heap) (r : loc) : list (string * loc) := records h !!! r.
Definition getAsset (h : heap) (l : loc) : Asset := assetObjs h !!! l.

(** [portfolio.cash = c], for the portfolio object at [p]. *)
Definition setCash (h : heap) (p : loc) (c : Q) : heap :=
  mkHeap (<[p := mkPortfolio c (assets (getPortfolio h p))]> (portfolios h))
         (records h) (assetObjs h).

(** [asset.holdings = q], for the asset object at [l]. *)
Definition setHoldings (h : heap) (l : loc) (q : Q) : heap :=
  mkHeap (portfolios h) (records h)
         (<[l := mkAsset (a_symbol (getAsset h l)) (a_price (getAsset h l)) q]>
            (assetObjs h)).

(** Allocation of a new object of each kind, at a location not in use. *)
Definition newAsset (h : heap) (a : Asset) : heap * loc :=
  let l := fresh (dom (assetObjs h)) in
  (mkHeap (portfolios h) (records h) (<[l := a]> (assetObjs h)), l).

Definition newRecord (h : heap) (props : list (string * loc)) : heap * loc :=
  let r := fresh (dom (records h)) in
  (mkHeap (portfolios h) (<[r := props]> (records h)) (assetObjs h), r).

Definition newPortfolio (h : heap) (o : PortfolioObj) : heap * loc :=
  let p := fresh (dom (portfolios h)) in
  (mkHeap (<[p := o]> (portfolios h)) (records h) (assetObjs h), p).

(** [record[key]] among the properties of the record itself: the
    property's value, [None] when it has no such property.  (The keys of an
    object are distinct.) *)
Fixpoint lookupProp (props : list (string * loc)) (key : string) : option loc :=
  match props with
  | [] => None
  | (k, l) :: rest => if decide (k = key) then Some l else lookupProp rest key
  end.

(** The names every record inherits from [Object.prototype].  On a record
    with no property of its own under one of them, [record[key]] is the
    inherited function (for [__proto__], the prototype itself): an object,
    not [undefined].  Under every other key it is [undefined]. *)
Definition inheritedKeys : list string :=
  ["constructor"; "hasOwnProperty"; "isPrototypeOf"; "propertyIsEnumerable";
   "toLocaleString"; "toString"; "valueOf"; "__proto__";
   "__defineGetter__"; "__defineSetter__"; "__lookupGetter__";
   "__lookupSetter__"].

Definition inherited (key : string) : bool := bool_decide (key ∈ inheritedKeys).

(** The stores reached from [h] by assignments to the cash of the
    portfolio at [p] and to the holdings of the assets at [refs]. *)
Inductive writes (p : loc) (refs : list loc) (h : heap) : heap -> Prop :=
| writes_none : writes p refs h h
| writes_cash (h' : heap) (c : Q) :
    writes p refs h h' -> writes p refs h (setCash h' p c)
| writes_holdings (h' : heap) (l : loc) (q : Q) :
    writes p refs h h' -> In l refs -> writes p refs h (setHoldings h' l q).

(** [h'] extends [h]: every object of [h] is in [h'], unchanged. *)
Definition preserved (h h' : heap) : Prop :=
  portfolios h ⊆ portfolios h' /\ records h ⊆ records h' /\
  assetObjs h ⊆ assetObjs h'.

End Heap.

(* ===================================================================== *)
(** ** JSON.parse(JSON.stringify(portfolio)) *)
(* ===================================================================== *)

Module JSON.

Import Heap.

(** The text of a portfolio, as the tree it denotes: the cash and, in
    order, each property of [assets] with the three fields of its asset.
    Finite numbers are written and read back exactly. *)
Record PortfolioJSON : Type := mkJSON {
  j_cash : Q;
  j_assets : list (string * Asset)
}.

Definition stringify (h : heap) (p : loc) : PortfolioJSON :=
  let o := getPortfolio h p in
  {| j_cash := cash o;
     j_assets := map (fun kl => (fst kl, getAsset h (snd kl)))
                     (getRecord h (assets o)) |}.

(** Parsing builds every object anew. *)
Fixpoint parseAssets (h : heap) (kvs : list (string * Asset))
    : heap * list (string * loc) :=
  match kvs with
  | [] => (h, [])
  | (k, a) :: rest =>
      let '(h1, l) := newAsset h a in
      let '(h2, props) := parseAssets h1 rest in
      (h2, (k, l) :: props)
  end.

Definition parse (h : heap) (v : PortfolioJSON) : heap * loc :=
  let '(h1, props) := parseAssets h (j_assets v) in
  let '(h2, r) := newRecord h1 props in
  newPortfolio h2 (mkPortfolio (j_cash v) r).

End JSON.

(* ===================================================================== *)
(** ** backtesting.ts *)
(* ===================================================================== *)

Record BacktestResult : Type := mkBacktestResult {
  r_trades : list Trade;
  r_finalPortfolio : Heap.loc;
  r_totalReturn : JSNum.num;
  r_sharpeRatio : JSNum.num;
  r_maxDrawdown : JSNum.num
}.

Module BacktestingEngine.

Import Heap.

(** The engine's fields; [portfolio] is a reference into the store.  (The
    source's [priceHistory] field is never read or written.) *)
Record t (S : Type) : Type := mk {
  strategy : S;
  portfolio : loc;
  trades : list Trade;
  riskLimits : RiskLimits
}.
Arguments mk {S}.
Arguments strategy {S}.
Arguments portfolio {S}.
Arguments trades {S}.
Arguments riskLimits {S}.

Definition fixedConfig : StrategyConfig :=
  {| dropThreshold := 5 # 100; riseThreshold := 10 # 100;
     buyPercentage := 10 # 100; sellPercentage := 20 # 100;
     twapSlices := 5; twapInterval := 60000 |}.

Section Engine.

Context {S : Type} `{IStrategy S}.

(** [Math.sqrt] on the finite non-negative numbers. *)
Variable Math_sqrt : Q -> Q.

(** The engine and the store it works on. *)
Definition state : Type := (heap * t S)%type.

Definition constructor (h : heap) (strat : S) (initialPortfolio : loc)
    (limits : RiskLimits) : state :=
  let '(h', p) := JSON.parse h (JSON.stringify h initialPortfolio) in
  (h', mk strat p [] limits).

Definition setStrategy (e : t S) (s : S) : t S :=
  mk s (portfolio e) (trades e) (riskLimits e).

(** The same engine and store around another strategy object. *)
Definition replaceStrategy (s : S) (st : state) : state :=
  (fst st, setStrategy (snd st) s).

Definition pushTrade (e : t S) (tr : Trade) : t S :=
  mk (strategy e) (portfolio e) (trades e ++ [tr]) (riskLimits e).

(** [this.portfolio.cash]. *)
Definition cashOf (st : state) : Q :=
  cash (getPortfolio (fst st) (portfolio (snd st))).

(** [Object.values(this.portfolio.assets)]. *)
Definition assetRefs (h : heap) (e : t S) : list loc :=
  map snd (getRecord h (assets (getPortfolio h (portfolio e)))).

(** [this.portfolio.assets[symbol]]. *)
Definition assetRef (h : heap) (e : t S) (symbol : string) : option loc :=
  lookupProp (getRecord h (assets (getPortfolio h (portfolio e)))) symbol.

Definition riskCheck (limits : RiskLimits) (symbol : string)
    (quantity : JSNum.num) (price : Q) : bool :=
  let tradeValue := JSNum.mul quantity (JSNum.Fin price) in
  JSNum.leb tradeValue (JSNum.Fin (maxTradeSize limits)) &&
  JSNum.leb quantity (JSNum.Fin (maxPositionSize limits)).

(** The argument is not used; [run] passes [undefined] for an empty
    sequence. *)
Definition calculateTotalValue (h : heap) (e : t S)
    (update : option PriceUpdate) : Q :=
  fold_left (fun total l =>
               total + a_holdings (getAsset h l) * a_price (getAsset h l))
            (assetRefs h e) (cash (getPortfolio h (portfolio e))).

Definition calculateInitialValue (h : heap) (e : t S) : Q :=
  fold_left (fun total l =>
               total + a_holdings (getAsset h l) * a_price (getAsset h l))
            (assetRefs h e) (cash (getPortfolio h (portfolio e))).

(** [update.timestamp + i * 60000]. *)
Definition sliceTime (update : PriceUpdate) (i : nat) : Q :=
  u_timestamp update + inject_Z (Z.of_nat i) * 60000.

(** [asset.holdings], for the asset object at [asset]. *)
Definition holdingsOf (asset : loc) (st : state) : Q :=
  a_holdings (getAsset (fst st) asset).

(** [st'] comes from [st] by assignments to the cash of the engine's
    portfolio and to the holdings of its assets, and by nothing else
    done to the store. *)
Definition changes (st st' : state) : Prop :=
  writes (portfolio (snd st)) (assetRefs (fst st) (snd st)) (fst st) (fst st') /\
  portfolio (snd st') = portfolio (snd st).

(** A BUY slice that passed the risk check: debit the cash, credit the
    holdings, record the trade. *)
Definition fillBuy (signal : TradeSignal) (update : PriceUpdate)
    (asset : loc) (sliceAmount quantity : Q) (i : nat) (st : state) : state :=
  let '(h, e) := st in
  let h1 := setCash h (portfolio e) (cashOf st - sliceAmount) in
  let h2 := setHoldings h1 asset (a_holdings (getAsset h1 asset) + quantity) in
  (h2, pushTrade e {| t_symbol := s_symbol signal; t_side := BUY;
                      t_quantity := quantity; t_price := u_price update;
                      t_timestamp := sliceTime update i |}).

(** The body of the BUY loop after the cash test.  A quantity that
    passes the risk check is finite ([EngineFacts.riskCheck_div_finite]),
    so the last branch of the [match] is never taken. *)
Definition buySlice (signal : TradeSignal) (update : PriceUpdate)
    (asset : loc) (sliceAmount : Q) (i : nat) (st : state) : state :=
  let quantity := JSNum.div (JSNum.Fin sliceAmount) (JSNum.Fin (u_price update)) in
  if riskCheck (riskLimits (snd st)) (s_symbol signal) quantity (u_price update) then
    match quantity with
    | JSNum.Fin q => fillBuy signal update asset sliceAmount q i st
    | _ => st
    end
  else st.

(** [for (let i = 0; i < 5; i++) { if (cash < sliceAmount) break; ... }]
    over the remaining values of [i]. *)
Fixpoint buySlices (signal : TradeSignal) (update : PriceUpdate)
    (asset : loc) (sliceAmount : Q) (idxs : list nat) (st : state) : state :=
  match idxs with
  | [] => st
  | i :: rest =>
      if Qlt_bool (cashOf st) sliceAmount then st
      else buySlices signal update asset sliceAmount rest
             (buySlice signal update asset sliceAmount i st)
  end.

(** The same slice when [assets[symbol]] is an object inherited from
    [Object.prototype]: the cash is debited and the trade recorded as for an
    asset, while [asset.holdings += quantity] leaves [NaN] in a property of
    the inherited object, which is no object of the portfolio and which
    nothing else reads. *)
Definition fillBuyInherited (signal : TradeSignal) (update : PriceUpdate)
    (sliceAmount quantity : Q) (i : nat) (st : state) : state :=
  let '(h, e) := st in
  (setCash h (portfolio e) (cashOf st - sliceAmount),
   pushTrade e {| t_symbol := s_symbol signal; t_side := BUY;
                  t_quantity := quantity; t_price := u_price update;
                  t_timestamp := sliceTime update i |}).

Definition buySliceInherited (signal : TradeSignal) (update : PriceUpdate)
    (sliceAmount : Q) (i : nat) (st : state) : state :=
  let quantity := JSNum.div (JSNum.Fin sliceAmount) (JSNum.Fin (u_price update)) in
  if riskCheck (riskLimits (snd st)) (s_symbol signal) quantity (u_price update) then
    match quantity with
    | JSNum.Fin q => fillBuyInherited signal update sliceAmount q i st
    | _ => st
    end
  else st.

Fixpoint buySlicesInherited (signal : TradeSignal) (update : PriceUpdate)
    (sliceAmount : Q) (idxs : list nat) (st : state) : state :=
  match idxs with
  | [] => st
  | i :: rest =>
      if Qlt_bool (cashOf st) sliceAmount then st
      else buySlicesInherited signal update sliceAmount rest
             (buySliceInherited signal update sliceAmount i st)
  end.

(** [executeBuy].  [!asset] holds only when [assets[symbol]] is
    [undefined]: the record has no such key and inherits none. *)
Definition executeBuy (signal : TradeSignal) (update : PriceUpdate)
    (st : state) : state :=
  let '(h, e) := st in
  match assetRef h e (s_symbol signal) with
  | None =>
      if inherited (s_symbol signal) then
        let portfolioValue := calculateTotalValue h e (Some update) in
        let buyAmount := portfolioValue * s_percentage signal in
        let sliceAmount := buyAmount / 5 in
        buySlicesInherited signal update sliceAmount (seq 0 5) st
      else st
  | Some asset =>
      let portfolioValue := calculateTotalValue h e (Some update) in
      let buyAmount := portfolioValue * s_percentage signal in
      let sliceAmount := buyAmount / 5 in
      buySlices signal update asset sliceAmount (seq 0 5) st
  end.

(** A SELL slice that passed both tests: debit the holdings, credit the
    cash, record the trade. *)
Definition fillSell (signal : TradeSignal) (update : PriceUpdate)
    (asset : loc) (quantity : Q) (i : nat) (st : state) : state :=
  let '(h, e) := st in
  let h1 := setHoldings h asset (a_holdings (getAsset h asset) - quantity) in
  let h2 := setCash h1 (portfolio e)
              (cash (getPortfolio h1 (portfolio e)) + quantity * u_price update) in
  (h2, pushTrade e {| t_symbol := s_symbol signal; t_side := SELL;
                      t_quantity := quantity; t_price := u_price update;
                      t_timestamp := sliceTime update i |}).

(** The body of the SELL loop. *)
Definition sellSlice (signal : TradeSignal) (update : PriceUpdate)
    (asset : loc) (sliceQuantity : Q) (st : state) (i : nat) : state :=
  let quantity := Qmin sliceQuantity (holdingsOf asset st) in
  if Qlt_bool 0 quantity &&
     riskCheck (riskLimits (snd st)) (s_symbol signal) (JSNum.Fin quantity)
               (u_price update)
  then fillSell signal update asset quantity i st
  else st.

(** The SELL loop over the remaining values of [i]. *)
Definition sellSlices (signal : TradeSignal) (update : PriceUpdate)
    (asset : loc) (sliceQuantity : Q) (idxs : list nat) (st : state) : state :=
  fold_left (sellSlice signal update asset sliceQuantity) idxs st.

(** [executeSell].  On an inherited object [asset.holdings] is [undefined]
    or [NaN]: the test [asset.holdings <= 0] fails, but every quantity is
    [NaN] and no turn of the loop passes [quantity > 0]; nothing is done. *)
Definition executeSell (signal : TradeSignal) (update : PriceUpdate)
    (st : state) : state :=
  let '(h, e) := st in
  match assetRef h e (s_symbol signal) with
  | None => st
  | Some asset =>
      if Qle_bool (a_holdings (getAsset h asset)) 0 then st
      else
        let sellQuantity := a_holdings (getAsset h asset) * s_percentage signal in
        let sliceQuantity := sellQuantity / 5 in
        sellSlices signal update asset sliceQuantity (seq 0 5) st
  end.

Definition processUpdate (st : state) (update : PriceUpdate) : state :=
  let '(h, e) := st in
  let '(signal, s') := onUpdate (strategy e) update in
  let st' := (h, setStrategy e s') in
  match signal with
  | None => st'
  | Some sig =>
      match s_action sig with
      | BUY => executeBuy sig update st'
      | SELL => executeSell sig update st'
      end
  end.

(** The valuation both [calculateReturns] and [calculateMaxDrawdown]
    make for a trade: the asset whose [symbol] is the trade's counts at
    the trade's price, every other asset at its own. *)
Definition valueAtTrade (h : heap) (e : t S) (trade : Trade) : Q :=
  fold_left (fun value l =>
               let a := getAsset h l in
               value + a_holdings a *
                 (if decide (a_symbol a = t_symbol trade) then t_price trade
                  else a_price a))
            (assetRefs h e) (cash (getPortfolio h (portfolio e))).

(** What the trade's price adds to a valuation at the assets' own
    prices: for each asset with the trade's symbol, its holdings times
    the difference between the trade's price and its own. *)
Definition tradePriceSurplus (h : heap) (e : t S) (trade : Trade) : Q :=
  fold_left (fun acc l =>
               let a := getAsset h l in
               acc + (if decide (a_symbol a = t_symbol trade)
                      then a_holdings a * (t_price trade - a_price a)
                      else 0))
            (assetRefs h e) 0.

(** One turn of the loop of [calculateReturns], on the pair of
    [prevValue] and [returns]. *)
Definition returnsStep (h : heap) (e : t S) (acc : Q * list Q)
    (trade : Trade) : Q * list Q :=
  let '(prevValue, returns) := acc in
  let value := valueAtTrade h e trade in
  (value,
   if Qeq_bool prevValue 0 then returns
   else returns ++ [(value - prevValue) / prevValue]).

Definition calculateReturns (h : heap) (e : t S) : list Q :=
  snd (fold_left (returnsStep h e) (trades e) (calculateInitialValue h e, [])).

(** [a.length] as a number. *)
Definition lengthQ {A : Type} (l : list A) : Q := inject_Z (Z.of_nat (length l)).

Definition averageOf (returns : list Q) : JSNum.num :=
  JSNum.div (JSNum.Fin (fold_left (fun a b => a + b) returns 0))
            (JSNum.Fin (lengthQ returns)).

Definition stdDevOf (returns : list Q) : JSNum.num :=
  let avgReturn := averageOf returns in
  JSNum.sqrt Math_sqrt
    (JSNum.div
       (fold_left (fun sum r =>
                     let d := JSNum.sub (JSNum.Fin r) avgReturn in
                     JSNum.add sum (JSNum.mul d d))
                  returns (JSNum.Fin 0))
       (JSNum.Fin (lengthQ returns))).

Definition calculateSharpeRatio (h : heap) (e : t S) : JSNum.num :=
  if (length (trades e) <? 2)%nat then JSNum.Fin 0
  else
    let returns := calculateReturns h e in
    let avgReturn := averageOf returns in
    let stdDev := stdDevOf returns in
    if JSNum.nonzero stdDev then
      JSNum.mul (JSNum.div avgReturn stdDev) (JSNum.sqrt Math_sqrt (JSNum.Fin 252))
    else JSNum.Fin 0.

(** One turn of the second loop of [calculateMaxDrawdown], on the pair
    of [peak] and [maxDrawdown]. *)
Definition drawdownStep (acc : Q * JSNum.num) (value : Q) : Q * JSNum.num :=
  let '(peak, maxDrawdown) := acc in
  let peak' := if Qlt_bool peak value then value else peak in
  let drawdown :=
    JSNum.mul (JSNum.div (JSNum.Fin (peak' - value)) (JSNum.Fin peak'))
              (JSNum.Fin 100) in
  (peak', if JSNum.ltb maxDrawdown drawdown then drawdown else maxDrawdown).

Definition calculateMaxDrawdown (h : heap) (e : t S) : JSNum.num :=
  let values := map (valueAtTrade h e) (trades e) in
  snd (fold_left drawdownStep values (calculateInitialValue h e, JSNum.Fin 0)).

(** The engine and the store as [run] leaves them once the updates are
    processed and the strategy has ended, before it builds its result. *)
Definition afterUpdates (st : state) (priceData : list PriceUpdate) : state :=
  let st2 :=
    fold_left processUpdate priceData
      (replaceStrategy (initialize (strategy (snd st)) fixedConfig) st) in
  replaceStrategy (onEnd (strategy (snd st2))) st2.

(** [run].  [{ ...this.portfolio }] is a new [Portfolio] object with the
    same cash and the same [assets] reference. *)
Definition run (st : state) (priceData : list PriceUpdate)
    : state * BacktestResult :=
  let '(h0, e0) := st in
  let e1 := setStrategy e0 (initialize (strategy e0) fixedConfig) in
  let '(h2, e2) := fold_left processUpdate priceData (h0, e1) in
  let e3 := setStrategy e2 (onEnd (strategy e2)) in
  let totalValue := calculateTotalValue h2 e3 (last priceData) in
  let initialValue := calculateInitialValue h2 e3 in
  let totalReturn :=
    JSNum.mul (JSNum.div (JSNum.Fin (totalValue - initialValue))
                         (JSNum.Fin initialValue))
              (JSNum.Fin 100) in
  let '(h3, snapshot) := newPortfolio h2 (getPortfolio h2 (portfolio e3)) in
  ((h3, e3),
   {| r_trades := trades e3;
      r_finalPortfolio := snapshot;
      r_totalReturn := totalReturn;
      r_sharpeRatio := calculateSharpeRatio h3 e3;
      r_maxDrawdown := calculateMaxDrawdown h3 e3 |}).

End Engine.

End BacktestingEngine.

(* ===================================================================== *)
(** ** binance-client.ts *)
(* ===================================================================== *)

(** One entry of the [balances] of the exchange's account reply, with its
    two amounts as [parseFloat] reads them. *)
Record Balance : Type := mkBalance {
  b_asset : string;
  b_free : Q;
  b_locked : Q
}.

Module BinanceClient.

(** [assets[key] = value] on the object under construction: an existing
    property is overwritten where it stands, a new one is added at the end.
    (No key of [getAccount] is an integer index, so the order of insertion
    is the order of the properties.) *)
Fixpoint setProp (props : list (string * Asset)) (key : string) (value : Asset)
    : list (string * Asset) :=
  match props with
  | [] => [(key, value)]
  | (k, x) :: rest =>
      if decide (k = key) then (k, value) :: rest
      else (k, x) :: setProp rest key value
  end.

(** [assets[key]]. *)
Fixpoint getProp (props : list (string * Asset)) (key : string) : option Asset :=
  match props with
  | [] => None
  | (k, x) :: rest => if decide (k = key) then Some x else getProp rest key
  end.

(** What the exchange answers during one [getAccount]: the reply to the
    account request ([None] when it fails), and the reply to the [getPrice]
    request made for the balance at position [i] of the list. *)
Record Exchange : Type := mkExchange {
  accountReply : option (list Balance);
  priceReply : nat -> string -> option Q
}.

Definition total (balance : Balance) : Q := b_free balance + b_locked balance.

(** One turn of the loop over the balances. *)
Definition accountStep (getPrice : nat -> string -> option Q)
    (acc : Q * list (string * Asset)) (entry : nat * Balance)
    : Q * list (string * Asset) :=
  let '(cash, assets) := acc in
  let '(i, balance) := entry in
  if decide (b_asset balance = "USDT" \/ b_asset balance = "BUSD") then
    (cash + total balance, assets)
  else if Qlt_bool 0 (total balance) then
    let symbol := b_asset balance +:+ "USDT" in
    match getPrice i symbol with
    | Some price =>
        (cash, setProp assets symbol (mkAsset symbol price (total balance)))
    | None => (cash, assets)
    end
  else (cash, assets).

(** [getAccount]: the cash and the [assets] object of the portfolio it
    returns. *)
Definition getAccount (ex : Exchange) : option (Q * list (string * Asset)) :=
  match accountReply ex with
  | None => None
  | Some balances =>
      Some (fold_left (accountStep (priceReply ex)) (imap pair balances) (0, []))
  end.

End BinanceClient.

(* ===================================================================== *)
(** ** trading-bot.ts *)
(* ===================================================================== *)

(** An order as it is passed to [placeOrder]. *)
Record Order : Type := mkOrder {
  o_symbol : string;
  o_side : Side;
  o_quantity : Q
}.

Module TradingBot.

Import Heap.

(** The bot's fields; [portfolio] is a reference into the store.  The
    timers of [priceIntervals] and the waits between slices belong to real
    time and are not modelled; neither is the overlap of two signals. *)
Record t (S : Type) : Type := mk {
  strategy : S;
  portfolio : loc;
  riskLimits : RiskLimits;
  isRunning : bool
}.
Arguments mk {S}.
Arguments strategy {S}.
Arguments portfolio {S}.
Arguments riskLimits {S}.
Arguments isRunning {S}.

(** What the exchange answers during the execution of one signal: the
    reply to the one [getPrice] request ([None] when it fails), and whether
    the [n]-th [placeOrder] request is accepted (it throws otherwise). *)
Record Exchange : Type := mkExchange {
  priceReply : option Q;
  orderAccepted : nat -> bool
}.

Section Bot.

Context {S : Type}.

(** The store, the bot and the orders the exchange has accepted. *)
Definition state : Type := (heap * t S * list Order)%type.

Definition storeOf (st : state) : heap := fst (fst st).
Definition botOf (st : state) : t S := snd (fst st).
Definition placedOf (st : state) : list Order := snd st.

(** [this.portfolio.cash]. *)
Definition cashOf (st : state) : Q :=
  cash (getPortfolio (storeOf st) (portfolio (botOf st))).

Definition holdingsOf (asset : loc) (st : state) : Q :=
  a_holdings (getAsset (storeOf st) asset).

Definition validateTrade (limits : RiskLimits) (cash0 : Q) (symbol : string)
    (quantity : JSNum.num) (price : Q) : bool :=
  let tradeValue := JSNum.mul quantity (JSNum.Fin price) in
  JSNum.leb tradeValue (JSNum.Fin (maxTradeSize limits)) &&
  JSNum.leb quantity (JSNum.Fin (maxPositionSize limits)) &&
  JSNum.leb tradeValue (JSNum.Fin (cash0 * (1 + maxDailyLoss limits))).

Definition calculatePortfolioValue (h : heap) (b : t S) : Q :=
  fold_left (fun total l =>
               total + a_holdings (getAsset h l) * a_price (getAsset h l))
            (map snd (getRecord h (assets (getPortfolio h (portfolio b)))))
            (cash (getPortfolio h (portfolio b))).

(** A BUY order the exchange accepted: debit the cash, credit the
    holdings. *)
Definition fillBuy (symbol : string) (asset : loc) (sliceAmount quantity : Q)
    (st : state) : state :=
  let '(h, b, placed) := st in
  let h1 := setCash h (portfolio b) (cashOf st - sliceAmount) in
  let h2 := setHoldings h1 asset (a_holdings (getAsset h1 asset) + quantity) in
  (h2, b, placed ++ [mkOrder symbol BUY quantity]).

(** The BUY loop.  The turn whose order the exchange refuses ends the loop:
    the exception leaves [executeSignal] through its [catch].  A quantity
    that passes [validateTrade] is finite, as for the engine's risk check. *)
Fixpoint buySlices (ex : Exchange) (symbol : string) (price : Q) (asset : loc)
    (sliceAmount : Q) (idxs : list nat) (st : state) : state :=
  match idxs with
  | [] => st
  | _ :: rest =>
      if Qlt_bool (cashOf st) sliceAmount then st
      else
        let quantity := JSNum.div (JSNum.Fin sliceAmount) (JSNum.Fin price) in
        if validateTrade (riskLimits (botOf st)) (cashOf st) symbol quantity price then
          match quantity with
          | JSNum.Fin q =>
              if orderAccepted ex (length (placedOf st)) then
                buySlices ex symbol price asset sliceAmount rest
                  (fillBuy symbol asset sliceAmount q st)
              else st
          | _ => st
          end
        else buySlices ex symbol price asset sliceAmount rest st
  end.

(** The same when [assets[symbol]] is an object inherited from
    [Object.prototype]: the order is placed and the cash debited; the
    holdings written are a property of the inherited object, not of the
    portfolio. *)
Definition fillBuyInherited (symbol : string) (sliceAmount quantity : Q)
    (st : state) : state :=
  let '(h, b, placed) := st in
  (setCash h (portfolio b) (cashOf st - sliceAmount), b,
   placed ++ [mkOrder symbol BUY quantity]).

Fixpoint buySlicesInherited (ex : Exchange) (symbol : string) (price : Q)
    (sliceAmount : Q) (idxs : list nat) (st : state) : state :=
  match idxs with
  | [] => st
  | _ :: rest =>
      if Qlt_bool (cashOf st) sliceAmount then st
      else
        let quantity := JSNum.div (JSNum.Fin sliceAmount) (JSNum.Fin price) in
        if validateTrade (riskLimits (botOf st)) (cashOf st) symbol quantity price then
          match quantity with
          | JSNum.Fin q =>
              if orderAccepted ex (length (placedOf st)) then
                buySlicesInherited ex symbol price sliceAmount rest
                  (fillBuyInherited symbol sliceAmount q st)
              else st
          | _ => st
          end
        else buySlicesInherited ex symbol price sliceAmount rest st
  end.

(** A SELL order the exchange accepted. *)
Definition fillSell (symbol : string) (price : Q) (asset : loc) (quantity : Q)
    (st : state) : state :=
  let '(h, b, placed) := st in
  let h1 := setHoldings h asset (a_holdings (getAsset h asset) - quantity) in
  let h2 := setCash h1 (portfolio b)
              (cash (getPortfolio h1 (portfolio b)) + quantity * price) in
  (h2, b, placed ++ [mkOrder symbol SELL quantity]).

(** The SELL loop. *)
Fixpoint sellSlices (ex : Exchange) (symbol : string) (price : Q) (asset : loc)
    (sliceQuantity : Q) (idxs : list nat) (st : state) : state :=
  match idxs with
  | [] => st
  | _ :: rest =>
      let quantity := Qmin sliceQuantity (holdingsOf asset st) in
      if Qlt_bool 0 quantity &&
         validateTrade (riskLimits (botOf st)) (cashOf st) symbol
                       (JSNum.Fin quantity) price
      then
        if orderAccepted ex (length (placedOf st)) then
          sellSlices ex symbol price asset sliceQuantity rest
            (fillSell symbol price asset quantity st)
        else st
      else sellSlices ex symbol price asset sliceQuantity rest st
  end.

(** [executeSignal].  A failed [getPrice] throws before the loop.  With no
    property of its own under the symbol, [assets[symbol]] is an inherited
    object or [undefined]; an inherited object has no [holdings], so it
    fails the test [asset.holdings > 0] of the SELL branch. *)
Definition executeSignal (ex : Exchange) (signal : TradeSignal) (st : state) : state :=
  let h := storeOf st in
  let b := botOf st in
  let asset := lookupProp (getRecord h (assets (getPortfolio h (portfolio b))))
                          (s_symbol signal) in
  let portfolioValue := calculatePortfolioValue h b in
  match s_action signal, asset with
  | BUY, Some a =>
      let totalBuyAmount := portfolioValue * s_percentage signal in
      let sliceAmount := totalBuyAmount / 5 in
      match priceReply ex with
      | None => st
      | Some price =>
          buySlices ex (s_symbol signal) price a sliceAmount (seq 0 5) st
      end
  | SELL, Some a =>
      if Qlt_bool 0 (a_holdings (getAsset h a)) then
        let totalSellQuantity := a_holdings (getAsset h a) * s_percentage signal in
        let sliceQuantity := totalSellQuantity / 5 in
        match priceReply ex with
        | None => st
        | Some price =>
            sellSlices ex (s_symbol signal) price a sliceQuantity (seq 0 5) st
        end
      else st
  | BUY, None =>
      if inherited (s_symbol signal) then
        let totalBuyAmount := portfolioValue * s_percentage signal in
        let sliceAmount := totalBuyAmount / 5 in
        match priceReply ex with
        | None => st
        | Some price =>
            buySlicesInherited ex (s_symbol signal) price sliceAmount (seq 0 5) st
        end
      else st
  | SELL, None => st
  end.

(** [getPortfolio]: [{ ...this.portfolio }], a new object with the same cash
    and the same [assets] reference. *)
Definition getPortfolioCopy (st : state) : state * loc :=
  let '(h, b, placed) := st in
  let '(h', p) := newPortfolio h (getPortfolio h (portfolio b)) in
  ((h', b, placed), p).

End Bot.

Section Startup.

Context {S : Type} `{IStrategy S}.

(** [new TradingBot(...)]: an empty portfolio of its own. *)
Definition constructor (h : heap) (strategy0 : S) (limits : RiskLimits)
    : state (S := S) :=
  let '(h1, r) := newRecord h [] in
  let '(h2, p) := newPortfolio h1 (mkPortfolio 0 r) in
  (h2, mk strategy0 p limits false, []).

Definition startConfig : StrategyConfig :=
  {| dropThreshold := 5 # 100; riseThreshold := 10 # 100;
     buyPercentage := 10 # 100; sellPercentage := 20 # 100;
     twapSlices := 5; twapInterval := 60000 |}.

(** [initialize]: the portfolio becomes the one [getAccount] returns, whose
    objects are all new; [None] when the account request fails. *)
Definition initialize (client : BinanceClient.Exchange) (st : state (S := S))
    : option (state (S := S)) :=
  match BinanceClient.getAccount client with
  | None => None
  | Some (cash0, assets0) =>
      let '(h', p) := JSON.parse (storeOf st) (JSON.mkJSON cash0 assets0) in
      let b := botOf st in
      Some (h',
            mk (initialize (strategy b) startConfig) p (riskLimits b) (isRunning b),
            placedOf st)
  end.

End Startup.

End TradingBot.


(** The sum of a series of numbers. *)
Definition Qsum (l : list Q) : Q := fold_right Qplus 0 l.

(** The engine around a [DropRiseStrategy] whose configuration has [n] in
    its [twapSlices] field. *)
Definition withTwapSlices (n : Q)
    (st : BacktestingEngine.state (S := DropRiseStrategy.t))
    : BacktestingEngine.state :=
  BacktestingEngine.replaceStrategy
    (DropRiseStrategy.setTwapSlices n (BacktestingEngine.strategy (snd st))) st.

(* ===================================================================== *)
(** ** Concrete portfolios *)
(* ===================================================================== *)

Module Scenario.

Import Heap.

(** A store holding one portfolio, at location 1, with one asset. *)
Definition single (symbol : string) (cash0 holdings price : Q) : heap :=
  mkHeap {[ 1%positive := mkPortfolio cash0 1%positive ]}
         {[ 1%positive := [(symbol, 1%positive)] ]}
         {[ 1%positive := mkAsset symbol price holdings ]}.

(** An engine working directly on the portfolio at [p]. *)
Definition engineAt (p : loc) (limits : RiskLimits)
    : BacktestingEngine.t DropRiseStrategy.t :=
  BacktestingEngine.mk DropRiseStrategy.create p [] limits.

Definition limits : RiskLimits :=
  {| maxPositionSize := 100; maxDailyLoss := 5 # 100; maxTradeSize := 10000 |}.

(** The BUY example: cash 1000, ten units of an asset priced 210, and a
    signal for the whole portfolio value. *)
Definition buyState : BacktestingEngine.state :=
  (single "ETHUSDT" 1000 10 210, engineAt 1%positive limits).
Definition buySignal : TradeSignal := mkTradeSignal "ETHUSDT" BUY 1.
Definition buyUpdate : PriceUpdate := mkPriceUpdate "ETHUSDT" 210 0.

(** The SELL example: fifty units, a signal for a fifth of them at 100. *)
Definition sellState : BacktestingEngine.state :=
  (single "SOLUSDT" 0 50 100, engineAt 1%positive limits).
Definition sellSignal : TradeSignal := mkTradeSignal "SOLUSDT" SELL (1 # 5).
Definition sellUpdate : PriceUpdate := mkPriceUpdate "SOLUSDT" 100 0.

(** A square root for the examples: [sqrt (n / d)] rounded down to a
    multiple of [1 / d]. *)
Definition sqrtFloor (q : Q) : Q := Z.sqrt (Qnum q * QDen q) # Qden q.

(** The backtest example: cash 100000 and ten units priced 2000; the
    price is first seen at 2000 and then drops to 1800. *)
Definition callerStore : heap := single "ETHUSDT" 100000 10 2000.
Definition backtestLimits : RiskLimits :=
  {| maxPositionSize := 100; maxDailyLoss := 5 # 100; maxTradeSize := 50000 |}.
Definition priceData : list PriceUpdate :=
  [mkPriceUpdate "ETHUSDT" 2000 0; mkPriceUpdate "ETHUSDT" 1800 1].
Definition backtest : BacktestingEngine.state * BacktestResult :=
  BacktestingEngine.run sqrtFloor
    (BacktestingEngine.constructor callerStore DropRiseStrategy.create
       1%positive backtestLimits)
    priceData.

(** The live examples: the bot on the portfolio of the BUY example, and on
    a portfolio with no cash; an exchange that quotes [price] and accepts
    every order, and one that refuses every order. *)
Definition botAt (h : heap) : TradingBot.state :=
  (h, TradingBot.mk DropRiseStrategy.create 1%positive limits false, []).
Definition liveBuyState : TradingBot.state := botAt (single "ETHUSDT" 1000 10 210).
Definition accepting (price : Q) : TradingBot.Exchange :=
  TradingBot.mkExchange (Some price) (fun _ => true).

(** An account with cash only: 1000 USDT and an empty ETH balance. *)
Definition cashOnly : BinanceClient.Exchange :=
  BinanceClient.mkExchange
    (Some [mkBalance "USDT" 1000 0; mkBalance "ETH" 0 0])
    (fun _ _ => Some 210).
Definition newBot : TradingBot.state :=
  TradingBot.constructor (mkHeap ∅ ∅ ∅) DropRiseStrategy.create limits.

(** Engines whose strategy has seen a first price: fifty units priced 100
    first seen at 80 and now updated at 100 (a rise of a quarter), and cash
    1000 with ten units priced 200 first seen at 200 and now updated at 160
    (a drop of a fifth). *)
Definition seen (symbol : string) (price : Q) : DropRiseStrategy.t :=
  snd (DropRiseStrategy.onUpdate DropRiseStrategy.create
         (mkPriceUpdate symbol price 0)).
Definition sellReady : BacktestingEngine.state :=
  (single "SOLUSDT" 0 50 100,
   BacktestingEngine.mk (seen "SOLUSDT" 80) 1%positive [] limits).
Definition sellTick : PriceUpdate := mkPriceUpdate "SOLUSDT" 100 60000.
Definition buyReady : BacktestingEngine.state :=
  (single "ETHUSDT" 1000 10 200,
   BacktestingEngine.mk (seen "ETHUSDT" 200) 1%positive [] limits).
Definition buyTick : PriceUpdate := mkPriceUpdate "ETHUSDT" 160 60000.

End Scenario.

(* ===================================================================== *)
(** ** Double-precision numbers *)
(* ===================================================================== *)

(** A JavaScript [number] as the IEEE-754 binary64 value it is, with the
    arithmetic of [SpecFloat] at precision 53 and exponent bound 1024:
    every operation rounds to nearest, ties to even; there are two zeros,
    two infinities and [NaN]. *)
Module Double.

Definition prec : Z := 53.
Definition emax : Z := 1024.

Definition t : Type := SpecFloat.spec_float.

Definition add : t -> t -> t := SpecFloat.SFadd prec emax.
Definition sub : t -> t -> t := SpecFloat.SFsub prec emax.
Definition mul : t -> t -> t := SpecFloat.SFmul prec emax.
Definition div : t -> t -> t := SpecFloat.SFdiv prec emax.
Definition opp : t -> t := SpecFloat.SFopp.

(** [x < y], [x <= y] and [x === y]; all false as soon as one side is
    [NaN], and the two zeros are equal. *)
Definition ltb : t -> t -> bool := SpecFloat.SFltb.
Definition leb : t -> t -> bool := SpecFloat.SFleb.
Definition eqb : t -> t -> bool := SpecFloat.SFeqb.

Definition zero : t := SpecFloat.S754_zero false.
Definition nan : t := SpecFloat.S754_nan.

(** An integer as a number (exact below [2 ^ 53]). *)
Definition ofZ (z : Z) : t := SpecFloat.binary_normalize prec emax z 0 false.
Definition ofNat (n : nat) : t := ofZ (Z.of_nat n).

(** A decimal literal [n / 10 ^ k], as the nearest number: the rounded
    quotient of two integers that are themselves numbers. *)
Definition lit (q : Q) : t := div (ofZ (Qnum q)) (ofZ (Zpos (Qden q))).

(** [Math.min(x, y)]: [NaN] if either is, and [-0] below [+0]. *)
Definition min (x y : t) : t :=
  match x, y with
  | SpecFloat.S754_nan, _ | _, SpecFloat.S754_nan => SpecFloat.S754_nan
  | SpecFloat.S754_zero sx, SpecFloat.S754_zero sy => SpecFloat.S754_zero (sx || sy)
  | _, _ => if ltb y x then y else x
  end.

(** The square root rounded to nearest, as the processor computes it. *)
Definition sqrt : t -> t := SpecFloat.SFsqrt prec emax.

End Double.

(* ===================================================================== *)
(** ** The program on double-precision numbers *)
(* ===================================================================== *)

(** The same source functions with every number a [Double.t] and every
    operation rounded as the program rounds it.  The engine works on a
    portfolio of its own, which is carried here by value: its cash and, in
    the order of the properties of [assets], each key with its asset. *)
Module IEEE.

Record Asset : Type := mkAsset {
  a_symbol : string;
  a_price : Double.t;
  a_holdings : Double.t
}.

Record Portfolio : Type := mkPortfolio {
  cash : Double.t;
  assets : list (string * Asset)
}.

Record Trade : Type := mkTrade {
  t_symbol : string;
  t_side : Side;
  t_quantity : Double.t;
  t_price : Double.t;
  t_timestamp : Double.t
}.

Record PriceUpdate : Type := mkPriceUpdate {
  u_symbol : string;
  u_price : Double.t;
  u_timestamp : Double.t
}.

Record RiskLimits : Type := mkRiskLimits {
  maxPositionSize : Double.t;
  maxDailyLoss : Double.t;
  maxTradeSize : Double.t
}.

Record StrategyConfig : Type := mkStrategyConfig {
  dropThreshold : Double.t;
  riseThreshold : Double.t;
  buyPercentage : Double.t;
  sellPercentage : Double.t;
  twapSlices : Double.t;
  twapInterval : Double.t
}.

Record TradeSignal : Type := mkTradeSignal {
  s_symbol : string;
  s_action : Side;
  s_percentage : Double.t
}.

Record Order : Type := mkOrder {
  o_symbol : string;
  o_side : Side;
  o_quantity : Double.t
}.

Class IStrategy (S : Type) : Type := {
  initialize : S -> StrategyConfig -> S;
  onUpdate : S -> PriceUpdate -> option TradeSignal * S;
  onEnd : S -> S
}.

(** [assets[key]] among the properties of the record itself. *)
Fixpoint getProp (props : list (string * Asset)) (key : string) : option Asset :=
  match props with
  | [] => None
  | (k, a) :: rest => if decide (k = key) then Some a else getProp rest key
  end.

(** [assets[key].holdings = f(assets[key].holdings)]. *)
Fixpoint updateHoldings (f : Double.t -> Double.t) (key : string)
    (props : list (string * Asset)) : list (string * Asset) :=
  match props with
  | [] => []
  | (k, a) :: rest =>
      if decide (k = key)
      then (k, mkAsset (a_symbol a) (a_price a) (f (a_holdings a))) :: rest
      else (k, a) :: updateHoldings f key rest
  end.

(** [cash + sum of holdings * price], added up in the order of the
    properties. *)
Definition valueOf (p : Portfolio) : Double.t :=
  fold_left (fun total ka =>
               Double.add total (Double.mul (a_holdings (snd ka)) (a_price (snd ka))))
            (assets p) (cash p).

Module DropRiseStrategy.

Record t : Type := mk {
  config : StrategyConfig;
  priceHistory : gmap string (list Double.t);
  initialPrices : gmap string Double.t
}.

Definition defaultConfig : StrategyConfig :=
  {| dropThreshold := Double.lit (5 # 100); riseThreshold := Double.lit (10 # 100);
     buyPercentage := Double.lit (10 # 100); sellPercentage := Double.lit (20 # 100);
     twapSlices := Double.ofZ 5; twapInterval := Double.ofZ 60000 |}.

Definition create : t :=
  {| config := defaultConfig; priceHistory := ∅; initialPrices := ∅ |}.

Definition initialize (st : t) (cfg : StrategyConfig) : t :=
  {| config := cfg; priceHistory := priceHistory st;
     initialPrices := initialPrices st |}.

Definition pushHistory (price : Double.t) (history : list Double.t) : list Double.t :=
  let history' := history ++ [price] in
  if (100 <? length history')%nat then tail history' else history'.

(** [(price - initialPrice) / initialPrice], each operation rounded. *)
Definition priceChange (price initialPrice : Double.t) : Double.t :=
  Double.div (Double.sub price initialPrice) initialPrice.

(** [priceChange <= -dropThreshold], then [priceChange >= riseThreshold]. *)
Definition decide_signal (cfg : StrategyConfig) (symbol : string)
    (change : Double.t) : option TradeSignal :=
  if Double.leb change (Double.opp (dropThreshold cfg)) then
    Some {| s_symbol := symbol; s_action := BUY;
            s_percentage := buyPercentage cfg |}
  else if Double.leb (riseThreshold cfg) change then
    Some {| s_symbol := symbol; s_action := SELL;
            s_percentage := sellPercentage cfg |}
  else None.

Definition onUpdate (st : t) (update : PriceUpdate) : option TradeSignal * t :=
  let symbol := u_symbol update in
  let price := u_price update in
  match initialPrices st !! symbol with
  | None =>
      (None,
       {| config := config st;
          priceHistory := <[symbol := [price]]> (priceHistory st);
          initialPrices := <[symbol := price]> (initialPrices st) |})
  | Some initialPrice =>
      (decide_signal (config st) symbol (priceChange price initialPrice),
       {| config := config st;
          priceHistory := alter (pushHistory price) symbol (priceHistory st);
          initialPrices := initialPrices st |})
  end.

Definition onEnd (st : t) : t :=
  {| config := config st; priceHistory := ∅; initialPrices := ∅ |}.

Definition feed (st : t) (updates : list PriceUpdate) : t :=
  fold_left (fun s u => snd (onUpdate s u)) updates st.

Fixpoint firstPrice (symbol : string) (updates : list PriceUpdate)
    : option Double.t :=
  match updates with
  | [] => None
  | u :: rest =>
      if decide (u_symbol u = symbol) then Some (u_price u)
      else firstPrice symbol rest
  end.

End DropRiseStrategy.

#[export] Instance DropRise_IStrategy : IStrategy DropRiseStrategy.t := {
  initialize := DropRiseStrategy.initialize;
  onUpdate := DropRiseStrategy.onUpdate;
  onEnd := DropRiseStrategy.onEnd
}.

Record BacktestResult : Type := mkBacktestResult {
  r_trades : list Trade;
  r_finalPortfolio : Portfolio;
  r_totalReturn : Double.t;
  r_sharpeRatio : Double.t;
  r_maxDrawdown : Double.t
}.

Module BacktestingEngine.

(** The engine's fields, as its constructor leaves them from a portfolio of
    finite numbers and as its operations change them. *)
Record t (S : Type) : Type := mk {
  strategy : S;
  portfolio : Portfolio;
  trades : list Trade;
  riskLimits : RiskLimits
}.
Arguments mk {S}.
Arguments strategy {S}.
Arguments portfolio {S}.
Arguments trades {S}.
Arguments riskLimits {S}.

Definition fixedConfig : StrategyConfig :=
  {| dropThreshold := Double.lit (5 # 100); riseThreshold := Double.lit (10 # 100);
     buyPercentage := Double.lit (10 # 100); sellPercentage := Double.lit (20 # 100);
     twapSlices := Double.ofZ 5; twapInterval := Double.ofZ 60000 |}.

Section Engine.

Context {S : Type} `{IStrategy S}.

(** [Math.sqrt] and [Math.pow], which the language leaves to the
    implementation. *)
Variable Math_sqrt : Double.t -> Double.t.
Variable Math_pow : Double.t -> Double.t -> Double.t.

Definition setStrategy (e : t S) (s : S) : t S :=
  mk s (portfolio e) (trades e) (riskLimits e).

Definition setPortfolio (e : t S) (p : Portfolio) : t S :=
  mk (strategy e) p (trades e) (riskLimits e).

Definition pushTrade (e : t S) (tr : Trade) : t S :=
  mk (strategy e) (portfolio e) (trades e ++ [tr]) (riskLimits e).

(** [this.portfolio.assets[symbol].holdings], for a key of the record. *)
Definition holdingsOf (symbol : string) (e : t S) : option Double.t :=
  option_map a_holdings (getProp (assets (portfolio e)) symbol).

Definition riskCheck (limits : RiskLimits) (symbol : string)
    (quantity price : Double.t) : bool :=
  let tradeValue := Double.mul quantity price in
  Double.leb tradeValue (maxTradeSize limits) &&
  Double.leb quantity (maxPositionSize limits).

Definition calculateTotalValue (e : t S) (update : option PriceUpdate) : Double.t :=
  valueOf (portfolio e).

Definition calculateInitialValue (e : t S) : Double.t :=
  valueOf (portfolio e).

(** [update.timestamp + i * 60000]. *)
Definition sliceTime (update : PriceUpdate) (i : nat) : Double.t :=
  Double.add (u_timestamp update) (Double.mul (Double.ofNat i) (Double.ofZ 60000)).

(** The trade a BUY slice records. *)
Definition buyTrade (signal : TradeSignal) (update : PriceUpdate)
    (quantity : Double.t) (i : nat) : Trade :=
  {| t_symbol := s_symbol signal; t_side := BUY; t_quantity := quantity;
     t_price := u_price update; t_timestamp := sliceTime update i |}.

(** A BUY slice that passed the risk check.  [own] tells whether
    [assets[symbol]] is a property of the record; when it is an object
    inherited from [Object.prototype], the holdings written are not those
    of an asset of the portfolio. *)
Definition fillBuy (own : bool) (signal : TradeSignal) (update : PriceUpdate)
    (sliceAmount quantity : Double.t) (i : nat) (e : t S) : t S :=
  let p := portfolio e in
  let assets' :=
    if own
    then updateHoldings (fun h => Double.add h quantity) (s_symbol signal) (assets p)
    else assets p in
  pushTrade (setPortfolio e (mkPortfolio (Double.sub (cash p) sliceAmount) assets'))
            (buyTrade signal update quantity i).

(** [for (let i = 0; i < 5; i++) { if (cash < sliceAmount) break; ... }]
    over the remaining values of [i]. *)
Fixpoint buySlices (own : bool) (signal : TradeSignal) (update : PriceUpdate)
    (sliceAmount : Double.t) (idxs : list nat) (e : t S) : t S :=
  match idxs with
  | [] => e
  | i :: rest =>
      if Double.ltb (cash (portfolio e)) sliceAmount then e
      else
        let quantity := Double.div sliceAmount (u_price update) in
        buySlices own signal update sliceAmount rest
          (if riskCheck (riskLimits e) (s_symbol signal) quantity (u_price update)
           then fillBuy own signal update sliceAmount quantity i e
           else e)
  end.

(** The engine after BUY slices filled in each of the turns [idxs]. *)
Definition filled (own : bool) (signal : TradeSignal) (update : PriceUpdate)
    (sliceAmount quantity : Double.t) (idxs : list nat) (e : t S) : t S :=
  fold_left (fun e0 i => fillBuy own signal update sliceAmount quantity i e0) idxs e.

Definition executeBuy (signal : TradeSignal) (update : PriceUpdate) (e : t S) : t S :=
  let own := bool_decide (is_Some (getProp (assets (portfolio e)) (s_symbol signal))) in
  if own || Heap.inherited (s_symbol signal) then
    let portfolioValue := calculateTotalValue e (Some update) in
    let buyAmount := Double.mul portfolioValue (s_percentage signal) in
    let sliceAmount := Double.div buyAmount (Double.ofZ 5) in
    buySlices own signal update sliceAmount (seq 0 5) e
  else e.

Definition sellTrade (signal : TradeSignal) (update : PriceUpdate)
    (quantity : Double.t) (i : nat) : Trade :=
  {| t_symbol := s_symbol signal; t_side := SELL; t_quantity := quantity;
     t_price := u_price update; t_timestamp := sliceTime update i |}.

Definition fillSell (signal : TradeSignal) (update : PriceUpdate)
    (quantity : Double.t) (i : nat) (e : t S) : t S :=
  let p := portfolio e in
  let assets' :=
    updateHoldings (fun h => Double.sub h quantity) (s_symbol signal) (assets p) in
  pushTrade
    (setPortfolio e
       (mkPortfolio (Double.add (cash p) (Double.mul quantity (u_price update)))
                    assets'))
    (sellTrade signal update quantity i).

(** The body of the SELL loop, for a key of the record. *)
Definition sellSlice (signal : TradeSignal) (update : PriceUpdate)
    (sliceQuantity : Double.t) (e : t S) (i : nat) : t S :=
  match holdingsOf (s_symbol signal) e with
  | None => e
  | Some holdings =>
      let quantity := Double.min sliceQuantity holdings in
      if Double.ltb Double.zero quantity &&
         riskCheck (riskLimits e) (s_symbol signal) quantity (u_price update)
      then fillSell signal update quantity i e
      else e
  end.

Definition sellSlices (signal : TradeSignal) (update : PriceUpdate)
    (sliceQuantity : Double.t) (idxs : list nat) (e : t S) : t S :=
  fold_left (sellSlice signal update sliceQuantity) idxs e.

(** [executeSell].  On an inherited object [asset.holdings] is [undefined]
    or [NaN]: every quantity is [NaN] and no turn passes [quantity > 0]. *)
Definition executeSell (signal : TradeSignal) (update : PriceUpdate) (e : t S) : t S :=
  match getProp (assets (portfolio e)) (s_symbol signal) with
  | None => e
  | Some asset =>
      if Double.leb (a_holdings asset) Double.zero then e
      else
        let sellQuantity := Double.mul (a_holdings asset) (s_percentage signal) in
        let sliceQuantity := Double.div sellQuantity (Double.ofZ 5) in
        sellSlices signal update sliceQuantity (seq 0 5) e
  end.

Definition processUpdate (e : t S) (update : PriceUpdate) : t S :=
  let '(signal, s') := onUpdate (strategy e) update in
  let e' := setStrategy e s' in
  match signal with
  | None => e'
  | Some sig =>
      match s_action sig with
      | BUY => executeBuy sig update e'
      | SELL => executeSell sig update e'
      end
  end.

(** What a step of the engine keeps: the limits, and the keys, symbols and
    prices of the assets; and what it adds: trades at the update's
    price. *)
Definition keeps (update : PriceUpdate) (e e' : t S) : Prop :=
  riskLimits e' = riskLimits e /\
  map (fun ka => (fst ka, a_symbol (snd ka), a_price (snd ka)))
      (assets (portfolio e')) =
  map (fun ka => (fst ka, a_symbol (snd ka), a_price (snd ka)))
      (assets (portfolio e)) /\
  exists new : list Trade,
    trades e' = trades e ++ new /\
    Forall (fun tr => t_price tr = u_price update) new.

(** The valuation made for a trade by [calculateReturns] and by
    [calculateMaxDrawdown]. *)
Definition valueAtTrade (e : t S) (trade : Trade) : Double.t :=
  fold_left (fun value ka =>
               let a := snd ka in
               Double.add value
                 (Double.mul (a_holdings a)
                    (if decide (a_symbol a = t_symbol trade) then t_price trade
                     else a_price a)))
            (assets (portfolio e)) (cash (portfolio e)).

(** One turn of the loop of [calculateReturns], on the pair of
    [prevValue] and [returns]. *)
Definition returnsStep (e : t S) (acc : Double.t * list Double.t)
    (trade : Trade) : Double.t * list Double.t :=
  let '(prevValue, returns) := acc in
  let value := valueAtTrade e trade in
  (value,
   if negb (Double.eqb prevValue Double.zero)
   then returns ++ [Double.div (Double.sub value prevValue) prevValue]
   else returns).

Definition calculateReturns (e : t S) : list Double.t :=
  snd (fold_left (returnsStep e) (trades e) (calculateInitialValue e, [])).

(** [returns.reduce((a, b) => a + b, 0) / returns.length]. *)
Definition averageOf (returns : list Double.t) : Double.t :=
  Double.div (fold_left Double.add returns Double.zero)
             (Double.ofNat (length returns)).

Definition stdDevOf (returns : list Double.t) : Double.t :=
  let avgReturn := averageOf returns in
  Math_sqrt
    (Double.div
       (fold_left (fun sum r =>
                     Double.add sum (Math_pow (Double.sub r avgReturn) (Double.ofZ 2)))
                  returns Double.zero)
       (Double.ofNat (length returns))).

Definition calculateSharpeRatio (e : t S) : Double.t :=
  if (length (trades e) <? 2)%nat then Double.zero
  else
    let returns := calculateReturns e in
    let avgReturn := averageOf returns in
    let stdDev := stdDevOf returns in
    if negb (Double.eqb stdDev Double.zero) then
      Double.mul (Double.div avgReturn stdDev) (Math_sqrt (Double.ofZ 252))
    else Double.zero.

Definition drawdownStep (acc : Double.t * Double.t) (value : Double.t)
    : Double.t * Double.t :=
  let '(peak, maxDrawdown) := acc in
  let peak' := if Double.ltb peak value then value else peak in
  let drawdown :=
    Double.mul (Double.div (Double.sub peak' value) peak') (Double.ofZ 100) in
  (peak', if Double.ltb maxDrawdown drawdown then drawdown else maxDrawdown).

Definition calculateMaxDrawdown (e : t S) : Double.t :=
  let values := map (valueAtTrade e) (trades e) in
  snd (fold_left drawdownStep values (calculateInitialValue e, Double.zero)).

(** The engine as [run] leaves it once the updates are processed and the
    strategy has ended, before it builds its result. *)
Definition afterUpdates (e : t S) (priceData : list PriceUpdate) : t S :=
  let e2 :=
    fold_left processUpdate priceData
      (setStrategy e (initialize (strategy e) fixedConfig)) in
  setStrategy e2 (onEnd (strategy e2)).

Definition run (e : t S) (priceData : list PriceUpdate) : t S * BacktestResult :=
  let e3 := afterUpdates e priceData in
  let totalValue := calculateTotalValue e3 (last priceData) in
  let initialValue := calculateInitialValue e3 in
  let totalReturn :=
    Double.mul (Double.div (Double.sub totalValue initialValue) initialValue)
               (Double.ofZ 100) in
  (e3,
   {| r_trades := trades e3;
      r_finalPortfolio := portfolio e3;
      r_totalReturn := totalReturn;
      r_sharpeRatio := calculateSharpeRatio e3;
      r_maxDrawdown := calculateMaxDrawdown e3 |}).

End Engine.

End BacktestingEngine.

Module TradingBot.

(** The bot's portfolio and limits, with the orders the exchange has
    accepted. *)
Record t : Type := mk {
  portfolio : Portfolio;
  riskLimits : RiskLimits;
  placed : list Order
}.

(** What the exchange answers during the execution of one signal. *)
Record Exchange : Type := mkExchange {
  priceReply : option Double.t;
  orderAccepted : nat -> bool
}.

Definition validateTrade (limits : RiskLimits) (cash0 : Double.t) (symbol : string)
    (quantity price : Double.t) : bool :=
  let tradeValue := Double.mul quantity price in
  Double.leb tradeValue (maxTradeSize limits) &&
  Double.leb quantity (maxPositionSize limits) &&
  Double.leb tradeValue
    (Double.mul cash0 (Double.add (Double.ofZ 1) (maxDailyLoss limits))).

Definition calculatePortfolioValue (b : t) : Double.t := valueOf (portfolio b).

Definition fillBuy (own : bool) (symbol : string) (sliceAmount quantity : Double.t)
    (b : t) : t :=
  let p := portfolio b in
  let assets' :=
    if own then updateHoldings (fun h => Double.add h quantity) symbol (assets p)
    else assets p in
  mk (mkPortfolio (Double.sub (cash p) sliceAmount) assets') (riskLimits b)
     (placed b ++ [mkOrder symbol BUY quantity]).

(** The BUY loop; the turn whose order the exchange refuses ends it. *)
Fixpoint buySlices (ex : Exchange) (own : bool) (symbol : string) (price : Double.t)
    (sliceAmount : Double.t) (idxs : list nat) (b : t) : t :=
  match idxs with
  | [] => b
  | _ :: rest =>
      if Double.ltb (cash (portfolio b)) sliceAmount then b
      else
        let quantity := Double.div sliceAmount price in
        if validateTrade (riskLimits b) (cash (portfolio b)) symbol quantity price then
          if orderAccepted ex (length (placed b)) then
            buySlices ex own symbol price sliceAmount rest
              (fillBuy own symbol sliceAmount quantity b)
          else b
        else buySlices ex own symbol price sliceAmount rest b
  end.

Definition fillSell (symbol : string) (price quantity : Double.t) (b : t) : t :=
  let p := portfolio b in
  mk (mkPortfolio (Double.add (cash p) (Double.mul quantity price))
        (updateHoldings (fun h => Double.sub h quantity) symbol (assets p)))
     (riskLimits b) (placed b ++ [mkOrder symbol SELL quantity]).

Fixpoint sellSlices (ex : Exchange) (symbol : string) (price : Double.t)
    (sliceQuantity : Double.t) (idxs : list nat) (b : t) : t :=
  match idxs with
  | [] => b
  | _ :: rest =>
      match option_map a_holdings (getProp (assets (portfolio b)) symbol) with
      | None => b
      | Some holdings =>
          let quantity := Double.min sliceQuantity holdings in
          if Double.ltb Double.zero quantity &&
             validateTrade (riskLimits b) (cash (portfolio b)) symbol quantity price
          then
            if orderAccepted ex (length (placed b)) then
              sellSlices ex symbol price sliceQuantity rest
                (fillSell symbol price quantity b)
            else b
          else sellSlices ex symbol price sliceQuantity rest b
      end
  end.

(** [executeSignal], taken alone: no other execution runs between two of
    its slices. *)
Definition executeSignal (ex : Exchange) (signal : TradeSignal) (b : t) : t :=
  let asset := getProp (assets (portfolio b)) (s_symbol signal) in
  let portfolioValue := calculatePortfolioValue b in
  match s_action signal with
  | BUY =>
      let own := bool_decide (is_Some asset) in
      if own || Heap.inherited (s_symbol signal) then
        let totalBuyAmount := Double.mul portfolioValue (s_percentage signal) in
        let sliceAmount := Double.div totalBuyAmount (Double.ofZ 5) in
        match priceReply ex with
        | None => b
        | Some price =>
            buySlices ex own (s_symbol signal) price sliceAmount (seq 0 5) b
        end
      else b
  | SELL =>
      match asset with
      | None => b
      | Some a =>
          if Double.ltb Double.zero (a_holdings a) then
            let totalSellQuantity := Double.mul (a_holdings a) (s_percentage signal) in
            let sliceQuantity := Double.div totalSellQuantity (Double.ofZ 5) in
            match priceReply ex with
            | None => b
            | Some price =>
                sellSlices ex (s_symbol signal) price sliceQuantity (seq 0 5) b
            end
          else b
      end
  end.

(** The engine that simulates this bot: same portfolio and limits, around
    the strategy [s] and with [log] as its trade log. *)
Definition simulation {S : Type} (s : S) (log : list Trade) (b : t)
    : BacktestingEngine.t S :=
  BacktestingEngine.mk s (portfolio b) log (riskLimits b).


End TradingBot.

(** The relative changes along a series of values that starts at [prev]:
    each value against the one before it, none for a step from zero. *)
Fixpoint returnSeries (prev : Double.t) (values : list Double.t) : list Double.t :=
  match values with
  | [] => []
  | value :: rest =>
      (if Double.eqb prev Double.zero then []
       else [Double.div (Double.sub value prev) prev])
      ++ returnSeries value rest
  end.

End IEEE.

(** Portfolios and engines on doubles, for the examples. *)
Module IEEEScenario.

Import IEEE.

Definition single (symbol : string) (cash0 holdings price : Double.t) : Portfolio :=
  mkPortfolio cash0 [(symbol, mkAsset symbol price holdings)].

(** Cash 250000 and nothing yet of an asset priced 588, under the limits
    50000 and 100; a BUY signal for the whole value makes slices of exactly
    50000, whose quantity times 588 rounds above 50000. *)
Definition limits : RiskLimits :=
  mkRiskLimits (Double.ofZ 100) (Double.lit (5 # 100)) (Double.ofZ 50000).
Definition atLimit : BacktestingEngine.t DropRiseStrategy.t :=
  BacktestingEngine.mk DropRiseStrategy.create
    (single "ETHUSDT" (Double.ofZ 250000) Double.zero (Double.ofZ 588)) [] limits.
Definition atLimitSignal : TradeSignal := mkTradeSignal "ETHUSDT" BUY (Double.ofZ 1).
Definition atLimitUpdate : PriceUpdate :=
  mkPriceUpdate "ETHUSDT" (Double.ofZ 588) Double.zero.

(** The same at a price of 500: the quantity of a slice is 100 and its
    value 50000, both at their limits. *)
Definition withinLimits : BacktestingEngine.t DropRiseStrategy.t :=
  BacktestingEngine.mk DropRiseStrategy.create
    (single "ETHUSDT" (Double.ofZ 250000) Double.zero (Double.ofZ 500)) [] limits.
Definition withinLimitsUpdate : PriceUpdate :=
  mkPriceUpdate "ETHUSDT" (Double.ofZ 500) Double.zero.

(** A bot with a cash of 0.15, no daily loss allowed, and an asset quoted
    at 7: the slices are of 0.03, and their quantity times 7 rounds above
    0.03. *)
Definition smallBot : TradingBot.t :=
  TradingBot.mk
    (single "ETHUSDT" (Double.lit (15 # 100)) Double.zero (Double.ofZ 7))
    (mkRiskLimits (Double.ofZ 100) Double.zero (Double.ofZ 50000)) [].
Definition smallSignal : TradeSignal := mkTradeSignal "ETHUSDT" BUY (Double.ofZ 1).
Definition smallUpdate : PriceUpdate :=
  mkPriceUpdate "ETHUSDT" (Double.ofZ 7) Double.zero.
Definition accepting (price : Double.t) : TradingBot.Exchange :=
  TradingBot.mkExchange (Some price) (fun _ => true).

(** An engine holding one unit of an asset priced 1000 and no cash, with
    three trades on record at 1100, 1210 and 1331: the valuations rise by a
    tenth each time. *)
Definition steady : BacktestingEngine.t DropRiseStrategy.t :=
  BacktestingEngine.mk DropRiseStrategy.create
    (single "ETHUSDT" Double.zero (Double.ofZ 1) (Double.ofZ 1000))
    [mkTrade "ETHUSDT" BUY Double.zero (Double.ofZ 1100) Double.zero;
     mkTrade "ETHUSDT" BUY Double.zero (Double.ofZ 1210) (Double.ofZ 60000);
     mkTrade "ETHUSDT" BUY Double.zero (Double.ofZ 1331) (Double.ofZ 120000)]
    limits.

End IEEEScenario.

(* ===================================================================== *)
(** * Properties *)
(* ===================================================================== *)

(** ** Numbers *)

Module JSNumFacts.

Import JSNum.

Lemma Qle_bool_true (a b : Q) : Qle_bool a b = true <-> a <= b.
Proof. apply Qle_bool_iff. Qed.

Lemma Qle_bool_false (a b : Q) : Qle_bool a b = false <-> b < a.
Proof.
  split; intros Hab.
  - apply Qnot_le_lt. intros Hle. apply Qle_bool_iff in Hle. congruence.
  - destruct (Qle_bool a b) eqn:E; [|reflexivity].
    apply Qle_bool_iff in E. lra.
Qed.

Lemma Qlt_bool_true (a b : Q) : Qlt_bool a b = true <-> a < b.
Proof.
  unfold Qlt_bool. rewrite negb_true_iff. apply Qle_bool_false.
Qed.

Lemma Qlt_bool_false (a b : Q) : Qlt_bool a b = false <-> b <= a.
Proof.
  unfold Qlt_bool. rewrite negb_false_iff. apply Qle_bool_true.
Qed.

Lemma Qeq_bool_true (a b : Q) : Qeq_bool a b = true <-> a == b.
Proof. apply Qeq_bool_iff. Qed.

Lemma Qeq_bool_false (a b : Q) : Qeq_bool a b = false <-> ~ a == b.
Proof.
  split.
  - intros E Hab. apply Qeq_bool_iff in Hab. congruence.
  - intros Hne. destruct (Qeq_bool a b) eqn:E; [|reflexivity].
    apply Qeq_bool_iff in E. contradiction.
Qed.

(** On finite numbers the comparisons are those of [Q]. *)
Lemma le_Fin (a b : Q) : le (Fin a) (Fin b) <-> a <= b.
Proof. unfold le; simpl. apply Qle_bool_true. Qed.

Lemma lt_Fin (a b : Q) : lt (Fin a) (Fin b) <-> a < b.
Proof. unfold lt; simpl. rewrite negb_true_iff. apply Qle_bool_false. Qed.

(** A strict comparison excludes the converse one, [NaN] included. *)
Lemma lt_not_le (x y : num) : lt x y -> leb y x = false.
Proof.
  unfold lt. destruct x, y; simpl; try congruence.
  rewrite negb_true_iff. auto.
Qed.

(** A division by a non-zero finite number stays finite. *)
Lemma div_Fin (a b : Q) : ~ b == 0 -> div (Fin a) (Fin b) = Fin (a / b).
Proof.
  intros Hb. simpl. apply Qeq_bool_false in Hb. now rewrite Hb.
Qed.

(** A division by zero never does. *)
Lemma div_zero (a b : Q) : b == 0 -> ~ is_finite (div (Fin a) (Fin b)).
Proof.
  intros Hb. simpl. apply Qeq_bool_true in Hb. rewrite Hb.
  unfold signed_inf. destruct (a ?= 0); simpl; tauto.
Qed.

Lemma signed_inf_not_finite (a : Q) : ~ is_finite (signed_inf a).
Proof. unfold signed_inf. destruct (a ?= 0); simpl; tauto. Qed.

(** An infinity times zero is [NaN]. *)
Lemma mul_inf_zero (x : num) (b : Q) :
  ~ is_finite x -> b == 0 -> mul x (Fin b) = NaN.
Proof.
  intros Hx Hb. destruct x; simpl in *; try tauto; try reflexivity;
    unfold signed_inf.
  - assert (E : (b ?= 0) = Eq) by (now apply Qeq_alt). now rewrite E.
  - assert (E : (- b ?= 0) = Eq) by (apply Qeq_alt; lra). now rewrite E.
Qed.

End JSNumFacts.

(** ** The drop/rise strategy *)

Module DropRiseFacts.

Import DropRiseStrategy.

Lemma onUpdate_config (st : t) (u : PriceUpdate) :
  config (snd (onUpdate st u)) = config st.
Proof. unfold onUpdate. destruct (initialPrices st !! u_symbol u); reflexivity. Qed.

Lemma feed_cons (st : t) (u : PriceUpdate) (us : list PriceUpdate) :
  feed st (u :: us) = feed (snd (onUpdate st u)) us.
Proof. reflexivity. Qed.

Lemma feed_config (us : list PriceUpdate) (st : t) :
  config (feed st us) = config st.
Proof.
  revert st. induction us as [|u us IH]; intros st; [reflexivity|].
  rewrite feed_cons, IH. apply onUpdate_config.
Qed.

(** What one update does to the table of reference prices. *)
Lemma onUpdate_initialPrices (st : t) (u : PriceUpdate) (s : string) :
  initialPrices (snd (onUpdate st u)) !! s =
  match initialPrices st !! s with
  | Some p => Some p
  | None => if decide (u_symbol u = s) then Some (u_price u) else None
  end.
Proof.
  unfold onUpdate. destruct (initialPrices st !! u_symbol u) as [p0|] eqn:E; simpl.
  - destruct (initialPrices st !! s) as [p|] eqn:Es; [reflexivity|].
    destruct (decide (u_symbol u = s)) as [Hs|Hs]; [|reflexivity].
    rewrite Hs in E. congruence.
  - destruct (decide (u_symbol u = s)) as [<-|Hne].
    + rewrite lookup_insert_eq, E. reflexivity.
    + rewrite lookup_insert_ne by assumption.
      destruct (initialPrices st !! s); reflexivity.
Qed.

(** A reference price, once recorded, survives every later update. *)
Lemma onUpdate_keeps_reference (st : t) (u : PriceUpdate) (s : string) (p0 : Q) :
  initialPrices st !! s = Some p0 ->
  initialPrices (snd (onUpdate st u)) !! s = Some p0.
Proof. intros E. rewrite onUpdate_initialPrices, E. reflexivity. Qed.

Lemma feed_keeps_reference (us : list PriceUpdate) (st : t) (s : string) (p0 : Q) :
  initialPrices st !! s = Some p0 ->
  initialPrices (feed st us) !! s = Some p0.
Proof.
  revert st. induction us as [|u us IH]; intros st E; [assumption|].
  rewrite feed_cons. apply IH. now apply onUpdate_keeps_reference.
Qed.

(** After a sequence of updates the reference price of a symbol that had
    none is the price of its first update in the sequence. *)
Lemma feed_initialPrices (us : list PriceUpdate) (st : t) (s : string) :
  initialPrices st !! s = None ->
  initialPrices (feed st us) !! s = firstPrice s us.
Proof.
  revert st. induction us as [|u us IH]; intros st E; [assumption|].
  rewrite feed_cons. simpl firstPrice.
  destruct (decide (u_symbol u = s)) as [Hs|Hs].
  - apply feed_keeps_reference.
    rewrite onUpdate_initialPrices, E. now rewrite decide_True.
  - apply IH. rewrite onUpdate_initialPrices, E. now rewrite decide_False.
Qed.

Lemma firstPrice_None (s : string) (us : list PriceUpdate) :
  Forall (fun v => u_symbol v <> s) us -> firstPrice s us = None.
Proof.
  induction 1 as [|v us Hv _ IH]; simpl; [reflexivity|].
  now rewrite decide_False.
Qed.

(** The two tables always hold the same symbols, so the history looked up
    for a symbol with a reference price is there. *)
Lemma onUpdate_history_dom (st : t) (u : PriceUpdate) :
  dom (priceHistory st) = dom (initialPrices st) ->
  dom (priceHistory (snd (onUpdate st u))) = dom (initialPrices (snd (onUpdate st u))).
Proof.
  intros Hdom. unfold onUpdate.
  destruct (initialPrices st !! u_symbol u); simpl.
  - rewrite dom_alter_L. assumption.
  - rewrite !dom_insert_L, Hdom. reflexivity.
Qed.

Lemma history_dom (cfg : StrategyConfig) (us : list PriceUpdate) :
  dom (priceHistory (feed (initialize create cfg) us)) =
  dom (initialPrices (feed (initialize create cfg) us)).
Proof.
  assert (G : forall st, dom (priceHistory st) = dom (initialPrices st) ->
              dom (priceHistory (feed st us)) = dom (initialPrices (feed st us))).
  { induction us as [|u us IH]; intros st Hst; [assumption|].
    rewrite feed_cons. apply IH. now apply onUpdate_history_dom. }
  apply G. simpl. now rewrite !dom_empty_L.
Qed.





(** C5.  The first update of a symbol, after any sequence of updates of
    other symbols, gives no signal; it records the price as the symbol's
    reference price and starts the symbol's history with it. *)
Theorem first_observation_silent
    (cfg : StrategyConfig) (earlier : list PriceUpdate) (u : PriceUpdate) :
  Forall (fun v => u_symbol v <> u_symbol u) earlier ->
  let st := feed (initialize create cfg) earlier in
  fst (onUpdate st u) = None /\
  initialPrices (snd (onUpdate st u)) !! u_symbol u = Some (u_price u) /\
  priceHistory (snd (onUpdate st u)) !! u_symbol u = Some [u_price u].
Proof.
  intros Hfresh st.
  assert (E : initialPrices st !! u_symbol u = None).
  { unfold st. rewrite feed_initialPrices by apply lookup_empty.
    now apply firstPrice_None. }
  unfold onUpdate. rewrite E. simpl.
  rewrite !lookup_insert_eq. auto.
Qed.

Lemma first_observation_silent_witness :
  let a := mkPriceUpdate "BTCUSDT" 45000 0 in
  let u := mkPriceUpdate "ETHUSDT" 2000 1 in
  let st := feed (initialize create defaultConfig) [a; a] in
  fst (onUpdate st u) = None /\
  initialPrices (snd (onUpdate st u)) !! "ETHUSDT" = Some 2000 /\
  priceHistory (snd (onUpdate st u)) !! "ETHUSDT" = Some [2000].
Proof.
  intros a u st.
  apply (first_observation_silent defaultConfig [a; a] u).
  repeat constructor; simpl; discriminate.
Defined.




End DropRiseFacts.

(** ** The object store *)

Module HeapFacts.

Import Heap.

Lemma getPortfolio_setCash (h : heap) (p : loc) (c : Q) :
  getPortfolio (setCash h p c) p = mkPortfolio c (assets (getPortfolio h p)).
Proof. unfold getPortfolio, setCash; simpl. apply lookup_total_insert_eq. Qed.

Lemma getPortfolio_setCash_ne (h : heap) (p p' : loc) (c : Q) :
  p <> p' -> getPortfolio (setCash h p c) p' = getPortfolio h p'.
Proof. intros Hne. unfold getPortfolio, setCash; simpl. now apply lookup_total_insert_ne. Qed.

Lemma assets_setCash (h : heap) (p p' : loc) (c : Q) :
  assets (getPortfolio (setCash h p c) p') = assets (getPortfolio h p').
Proof.
  destruct (decide (p = p')) as [<-|Hne].
  - now rewrite getPortfolio_setCash.
  - now rewrite getPortfolio_setCash_ne.
Qed.

Lemma getAsset_setHoldings (h : heap) (l : loc) (q : Q) :
  getAsset (setHoldings h l q) l =
  mkAsset (a_symbol (getAsset h l)) (a_price (getAsset h l)) q.
Proof. unfold getAsset, setHoldings; simpl. apply lookup_total_insert_eq. Qed.

Lemma getAsset_setHoldings_ne (h : heap) (l l' : loc) (q : Q) :
  l <> l' -> getAsset (setHoldings h l q) l' = getAsset h l'.
Proof. intros Hne. unfold getAsset, setHoldings; simpl. now apply lookup_total_insert_ne. Qed.

(** Writing the holdings of one asset changes no asset's price or symbol. *)
Lemma price_setHoldings (h : heap) (l l' : loc) (q : Q) :
  a_price (getAsset (setHoldings h l q) l') = a_price (getAsset h l').
Proof.
  destruct (decide (l = l')) as [<-|Hne].
  - now rewrite getAsset_setHoldings.
  - now rewrite getAsset_setHoldings_ne.
Qed.

Lemma symbol_setHoldings (h : heap) (l l' : loc) (q : Q) :
  a_symbol (getAsset (setHoldings h l q) l') = a_symbol (getAsset h l').
Proof.
  destruct (decide (l = l')) as [<-|Hne].
  - now rewrite getAsset_setHoldings.
  - now rewrite getAsset_setHoldings_ne.
Qed.

(** A property found in a record is one of its references. *)
Lemma lookupProp_In (props : list (string * loc)) (key : string) (l : loc) :
  lookupProp props key = Some l -> In l (map snd props).
Proof.
  induction props as [|[k l'] props IH]; simpl; [discriminate|].
  destruct (decide (k = key)).
  - intros [= ->]. now left.
  - intros Hl. right. now apply IH.
Qed.

Lemma preserved_refl (h : heap) : preserved h h.
Proof. repeat split; reflexivity. Qed.

Lemma preserved_trans (h1 h2 h3 : heap) :
  preserved h1 h2 -> preserved h2 h3 -> preserved h1 h3.
Proof.
  intros (A1 & B1 & C1) (A2 & B2 & C2).
  repeat split; etrans; eassumption.
Qed.

Lemma subseteq_insert_fresh {A : Type} (m m' : gmap loc A) (l : loc) (x : A) :
  m ⊆ m' -> l ∉ dom m -> m ⊆ <[l := x]> m'.
Proof.
  intros Hsub Hl. apply not_elem_of_dom in Hl.
  apply map_subseteq_spec. intros i y Hi.
  rewrite lookup_insert_ne by congruence.
  now apply (lookup_weaken m).
Qed.

Lemma fresh_not_in_smaller {A : Type} (m m' : gmap loc A) :
  m ⊆ m' -> fresh (dom m') ∉ dom m.
Proof.
  intros Hsub Hin. apply (is_fresh (dom m')).
  revert Hin. apply subseteq_dom in Hsub. set_solver.
Qed.

(** A write to an object that [h0] does not hold keeps [h0] preserved. *)
Lemma preserved_setCash (h0 h : heap) (p : loc) (c : Q) :
  preserved h0 h -> p ∉ dom (portfolios h0) -> preserved h0 (setCash h p c).
Proof.
  intros (A & B & C) Hp. repeat split; simpl; try assumption.
  now apply subseteq_insert_fresh.
Qed.

Lemma preserved_setHoldings (h0 h : heap) (l : loc) (q : Q) :
  preserved h0 h -> l ∉ dom (assetObjs h0) -> preserved h0 (setHoldings h l q).
Proof.
  intros (A & B & C) Hl. repeat split; simpl; try assumption.
  now apply subseteq_insert_fresh.
Qed.

(** Allocation keeps every heap below the current one preserved, and the
    new location is none of theirs. *)
Lemma preserved_newAsset (h0 h : heap) (a : Asset) :
  preserved h0 h ->
  preserved h0 (fst (newAsset h a)) /\ snd (newAsset h a) ∉ dom (assetObjs h0).
Proof.
  intros (A & B & C).
  assert (F : fresh (dom (assetObjs h)) ∉ dom (assetObjs h0))
    by now apply fresh_not_in_smaller.
  split; [|exact F].
  repeat split; simpl; try assumption. now apply subseteq_insert_fresh.
Qed.

Lemma preserved_newRecord (h0 h : heap) (props : list (string * loc)) :
  preserved h0 h ->
  preserved h0 (fst (newRecord h props)) /\ snd (newRecord h props) ∉ dom (records h0).
Proof.
  intros (A & B & C).
  assert (F : fresh (dom (records h)) ∉ dom (records h0))
    by now apply fresh_not_in_smaller.
  split; [|exact F].
  repeat split; simpl; try assumption. now apply subseteq_insert_fresh.
Qed.

Lemma preserved_newPortfolio (h0 h : heap) (o : PortfolioObj) :
  preserved h0 h ->
  preserved h0 (fst (newPortfolio h o)) /\
  snd (newPortfolio h o) ∉ dom (portfolios h0).
Proof.
  intros (A & B & C).
  assert (F : fresh (dom (portfolios h)) ∉ dom (portfolios h0))
    by now apply fresh_not_in_smaller.
  split; [|exact F].
  repeat split; simpl; try assumption. now apply subseteq_insert_fresh.
Qed.

(** Reading an object of a preserved heap gives what it gave before. *)
Lemma preserved_getPortfolio (h0 h : heap) (p : loc) :
  preserved h0 h -> p ∈ dom (portfolios h0) -> getPortfolio h p = getPortfolio h0 p.
Proof.
  intros (A & _ & _) Hp. apply elem_of_dom in Hp as [o Ho].
  unfold getPortfolio.
  rewrite (lookup_total_correct _ _ _ Ho).
  apply lookup_total_correct. now apply (lookup_weaken _ _ _ _ Ho).
Qed.

Lemma preserved_getRecord (h0 h : heap) (r : loc) :
  preserved h0 h -> r ∈ dom (records h0) -> getRecord h r = getRecord h0 r.
Proof.
  intros (_ & B & _) Hr. apply elem_of_dom in Hr as [o Ho].
  unfold getRecord.
  rewrite (lookup_total_correct _ _ _ Ho).
  apply lookup_total_correct. now apply (lookup_weaken _ _ _ _ Ho).
Qed.

Lemma preserved_getAsset (h0 h : heap) (l : loc) :
  preserved h0 h -> l ∈ dom (assetObjs h0) -> getAsset h l = getAsset h0 l.
Proof.
  intros (_ & _ & C) Hl. apply elem_of_dom in Hl as [o Ho].
  unfold getAsset.
  rewrite (lookup_total_correct _ _ _ Ho).
  apply lookup_total_correct. now apply (lookup_weaken _ _ _ _ Ho).
Qed.

(** *** Assignments to cash and holdings *)

Lemma writes_trans (p : loc) (refs : list loc) (h1 h2 h3 : heap) :
  writes p refs h1 h2 -> writes p refs h2 h3 -> writes p refs h1 h3.
Proof.
  intros H12 H23. induction H23 as [|h' c _ IH|h' l q _ IH Hl].
  - assumption.
  - now apply writes_cash.
  - now apply writes_holdings.
Qed.

Lemma writes_records (p : loc) (refs : list loc) (h h' : heap) :
  writes p refs h h' -> records h' = records h.
Proof. induction 1; simpl; assumption || reflexivity. Qed.

(** No portfolio is made to point to another [assets] record. *)
Lemma writes_assets (p : loc) (refs : list loc) (h h' : heap) (p' : loc) :
  writes p refs h h' ->
  assets (getPortfolio h' p') = assets (getPortfolio h p').
Proof.
  induction 1 as [|h' c _ IH|h' l q _ IH Hl].
  - reflexivity.
  - now rewrite assets_setCash.
  - exact IH.
Qed.

(** No asset changes its price or its symbol. *)
Lemma writes_price (p : loc) (refs : list loc) (h h' : heap) (l' : loc) :
  writes p refs h h' -> a_price (getAsset h' l') = a_price (getAsset h l').
Proof.
  induction 1 as [|h' c _ IH|h' l q _ IH Hl].
  - reflexivity.
  - exact IH.
  - now rewrite price_setHoldings.
Qed.

Lemma writes_symbol (p : loc) (refs : list loc) (h h' : heap) (l' : loc) :
  writes p refs h h' -> a_symbol (getAsset h' l') = a_symbol (getAsset h l').
Proof.
  induction 1 as [|h' c _ IH|h' l q _ IH Hl].
  - reflexivity.
  - exact IH.
  - now rewrite symbol_setHoldings.
Qed.

(** Assignments to objects that [h0] does not hold keep [h0] preserved. *)
Lemma writes_preserved (h0 : heap) (p : loc) (refs : list loc) (h h' : heap) :
  preserved h0 h ->
  p ∉ dom (portfolios h0) ->
  Forall (fun l => l ∉ dom (assetObjs h0)) refs ->
  writes p refs h h' -> preserved h0 h'.
Proof.
  intros Hpres Hp Hrefs. induction 1 as [|h' c _ IH|h' l q _ IH Hl].
  - assumption.
  - now apply preserved_setCash.
  - apply preserved_setHoldings; [assumption|].
    rewrite Forall_forall in Hrefs. now apply Hrefs, list_elem_of_In.
Qed.

(** *** Parsing *)

Import JSON.

(** Parsing the assets allocates one new object per property and reads
    back as the text it was given. *)
Lemma parseAssets_spec (kvs : list (string * Asset)) (h0 h : heap) :
  preserved h0 h ->
  preserved h0 (fst (parseAssets h kvs)) /\
  preserved h (fst (parseAssets h kvs)) /\
  Forall (fun l => l ∉ dom (assetObjs h0)) (map snd (snd (parseAssets h kvs))) /\
  map (fun kl => (fst kl, getAsset (fst (parseAssets h kvs)) (snd kl)))
      (snd (parseAssets h kvs)) = kvs.
Proof.
  revert h. induction kvs as [|[k a] rest IH]; intros h Hpres; simpl.
  - repeat split; try apply Hpres; try reflexivity. constructor.
  - destruct (preserved_newAsset h0 h a Hpres) as [Hpres1 Hfresh].
    destruct (preserved_newAsset h h a (preserved_refl h)) as [Hstep _].
    unfold newAsset in *. simpl in Hpres1, Hfresh, Hstep.
    set (l := fresh (dom (assetObjs h))) in *.
    set (h1 := mkHeap (portfolios h) (records h) (<[l := a]> (assetObjs h))) in *.
    destruct (IH h1 Hpres1) as (P0 & P1 & F & R).
    destruct (parseAssets h1 rest) as [h2 props] eqn:E. simpl in *.
    split; [assumption|].
    split; [now apply (preserved_trans h h1 h2)|].
    split; [now constructor|].
    f_equal; [|assumption].
    f_equal. rewrite (preserved_getAsset h1 h2 l P1).
    + unfold getAsset, h1; simpl. apply lookup_total_insert_eq.
    + unfold h1; simpl. rewrite dom_insert_L.
      apply elem_of_union_l, elem_of_singleton. reflexivity.
Qed.

(** [JSON.parse] of a text: new objects only, and they read back as the
    text. *)
Lemma parse_spec (h0 h : heap) (v : PortfolioJSON) :
  preserved h0 h ->
  let h' := fst (parse h v) in
  let p := snd (parse h v) in
  preserved h0 h' /\
  (p ∉ dom (portfolios h0)) /\
  (assets (getPortfolio h' p) ∉ dom (records h0)) /\
  Forall (fun l => l ∉ dom (assetObjs h0))
         (map snd (getRecord h' (assets (getPortfolio h' p)))) /\
  stringify h' p = v.
Proof.
  intros Hpres. unfold parse.
  destruct (parseAssets_spec (j_assets v) h0 h Hpres) as (P0 & _ & F & R).
  destruct (parseAssets h (j_assets v)) as [h1 props]. simpl in P0, F, R.
  destruct (preserved_newRecord h0 h1 props P0) as [P2 Fr].
  unfold newRecord in *. simpl in P2, Fr.
  set (r := fresh (dom (records h1))) in *.
  set (h2 := mkHeap (portfolios h1) (<[r := props]> (records h1)) (assetObjs h1)) in *.
  destruct (preserved_newPortfolio h0 h2 (mkPortfolio (j_cash v) r) P2) as [P3 Fp].
  unfold newPortfolio in *. simpl in P3, Fp. simpl.
  set (p := fresh (dom (portfolios h1))) in *.
  set (h3 := mkHeap (<[p := mkPortfolio (j_cash v) r]> (portfolios h1))
                    (<[r := props]> (records h1)) (assetObjs h1)) in *.
  assert (Hp : getPortfolio h3 p = mkPortfolio (j_cash v) r)
    by (unfold getPortfolio, h3; simpl; apply lookup_total_insert_eq).
  assert (Hr : getRecord h3 r = props)
    by (unfold getRecord, h3; simpl; apply lookup_total_insert_eq).
  split; [assumption|]. split; [assumption|].
  rewrite Hp. simpl. rewrite Hr.
  split; [assumption|]. split; [assumption|].
  unfold stringify. rewrite Hp. simpl. rewrite Hr.
  destruct v as [c kvs]. simpl in *. f_equal. exact R.
Qed.

End HeapFacts.

(** ** The backtesting engine *)

Module EngineFacts.

Import Heap BacktestingEngine JSNumFacts HeapFacts.

(** *** The risk check *)

Lemma riskCheck_true (limits : RiskLimits) (symbol : string) (q price : Q) :
  riskCheck limits symbol (JSNum.Fin q) price = true <->
  q * price <= maxTradeSize limits /\ q <= maxPositionSize limits.
Proof.
  unfold riskCheck; simpl.
  rewrite andb_true_iff, !Qle_bool_true. reflexivity.
Qed.

(** Whatever passes the risk check as the quotient of two finite numbers
    is finite: over a zero price the quotient is an infinity or [NaN], and
    its product with the price is [NaN]. *)
Lemma riskCheck_div_finite (limits : RiskLimits) (symbol : string) (a price : Q) :
  riskCheck limits symbol (JSNum.div (JSNum.Fin a) (JSNum.Fin price)) price = true ->
  ~ price == 0 /\
  JSNum.div (JSNum.Fin a) (JSNum.Fin price) = JSNum.Fin (a / price).
Proof.
  intros Hrisk.
  destruct (Qeq_bool price 0) eqn:E.
  - exfalso. apply Qeq_bool_true in E.
    unfold riskCheck in Hrisk.
    rewrite (mul_inf_zero _ price (div_zero a price E) E) in Hrisk.
    simpl in Hrisk. discriminate.
  - apply Qeq_bool_false in E. split; [assumption|]. now apply div_Fin.
Qed.

Section Generic.

Context {S : Type}.

Implicit Types (st : state (S := S)) (e : t S) (h : heap).

(** *** Engine writes and the portfolio's shape *)

Lemma cashOf_setHoldings h e (l : loc) (q : Q) :
  cashOf (setHoldings h l q, e) = cashOf (h, e).
Proof. reflexivity. Qed.

Lemma cashOf_setCash h e e' (c : Q) :
  portfolio e' = portfolio e -> cashOf (setCash h (portfolio e) c, e') = c.
Proof.
  intros Hp.
  change (cash (getPortfolio (setCash h (portfolio e) c) (portfolio e')) = c).
  rewrite Hp, getPortfolio_setCash. reflexivity.
Qed.

Lemma assetRefs_setCash h e (p : loc) (c : Q) :
  assetRefs (setCash h p c) e = assetRefs h e.
Proof. unfold assetRefs. rewrite assets_setCash. reflexivity. Qed.

Lemma assetRefs_setHoldings h e (l : loc) (q : Q) :
  assetRefs (setHoldings h l q) e = assetRefs h e.
Proof. reflexivity. Qed.

Lemma assetRef_In h e (symbol : string) (l : loc) :
  assetRef h e symbol = Some l -> In l (assetRefs h e).
Proof. apply lookupProp_In. Qed.

(** *** BUY *)

Lemma cashOf_fillBuy signal update asset sliceAmount q i st :
  cashOf (fillBuy signal update asset sliceAmount q i st) = cashOf st - sliceAmount.
Proof.
  destruct st as [h e].
  change (cash (getPortfolio (setCash h (portfolio e) (cashOf (h, e) - sliceAmount))
                             (portfolio e)) = cashOf (h, e) - sliceAmount).
  now rewrite getPortfolio_setCash.
Qed.

Lemma trades_fillBuy signal update asset sliceAmount q i st :
  trades (snd (fillBuy signal update asset sliceAmount q i st)) =
  trades (snd st) ++
    [mkTrade (s_symbol signal) BUY q (u_price update) (sliceTime update i)].
Proof. destruct st as [h e]. reflexivity. Qed.

(** What one turn of the BUY loop does once the cash test has passed:
    nothing, or one slice of [sliceAmount / price]. *)
Lemma buySlice_outcome signal update asset sliceAmount i st :
  buySlice signal update asset sliceAmount i st = st \/
  (~ u_price update == 0 /\
   buySlice signal update asset sliceAmount i st =
   fillBuy signal update asset sliceAmount (sliceAmount / u_price update) i st).
Proof.
  unfold buySlice.
  destruct (riskCheck _ _ _ _) eqn:R; [|now left].
  apply riskCheck_div_finite in R as [Hp ->]. right. auto.
Qed.

(** The loop stops at the first turn that finds the cash below the slice
    amount. *)
Lemma buySlices_break signal update asset sliceAmount idxs st :
  cashOf st < sliceAmount ->
  buySlices signal update asset sliceAmount idxs st = st.
Proof.
  intros Hlt. destruct idxs as [|i rest]; [reflexivity|]. simpl.
  apply Qlt_bool_true in Hlt. now rewrite Hlt.
Qed.

(** The trades the loop appends, and what they cost. *)
Lemma buySlices_account signal update asset sliceAmount idxs st :
  exists new : list Trade,
    trades (snd (buySlices signal update asset sliceAmount idxs st)) =
      trades (snd st) ++ new /\
    (length new <= length idxs)%nat /\
    Forall (fun tr => t_side tr = BUY /\ t_price tr = u_price update /\
                      t_quantity tr = sliceAmount / u_price update) new /\
    cashOf (buySlices signal update asset sliceAmount idxs st) ==
      cashOf st - lengthQ new * sliceAmount.
Proof.
  assert (Hnone : forall st' : state (S := S), forall n : nat,
            exists new : list Trade,
              trades (snd st') = trades (snd st') ++ new /\
              (length new <= n)%nat /\
              Forall (fun tr => t_side tr = BUY /\ t_price tr = u_price update /\
                                t_quantity tr = sliceAmount / u_price update) new /\
              cashOf st' == cashOf st' - lengthQ new * sliceAmount).
  { intros st' n. exists [].
    split; [now rewrite app_nil_r|].
    split; [simpl; lia|].
    split; [constructor|].
    unfold lengthQ. simpl length. change (inject_Z (Z.of_nat 0)) with 0. lra. }
  revert st. induction idxs as [|i rest IH]; intros st; simpl.
  - apply Hnone.
  - destruct (Qlt_bool (cashOf st) sliceAmount) eqn:Hlt; [apply Hnone|].
    destruct (buySlice_outcome signal update asset sliceAmount i st)
      as [->|[Hp ->]].
    + destruct (IH st) as (new & Ht & Hlen & Hall & Hc).
      exists new. repeat split; auto with arith.
    + set (q := sliceAmount / u_price update).
      set (st1 := fillBuy signal update asset sliceAmount q i st).
      assert (Hc1 : cashOf st1 = cashOf st - sliceAmount)
        by apply cashOf_fillBuy.
      destruct (IH st1) as (new & Ht & Hlen & Hall & Hc).
      exists (mkTrade (s_symbol signal) BUY q (u_price update)
                (sliceTime update i) :: new).
      split; [|split; [|split]].
      * rewrite Ht. unfold st1. rewrite trades_fillBuy.
        now rewrite <- app_assoc.
      * simpl. lia.
      * constructor; [|assumption]. simpl. auto.
      * rewrite Hc, Hc1. unfold lengthQ. simpl length.
        rewrite Nat2Z.inj_succ, <- Z.add_1_r, inject_Z_plus.
        change (inject_Z 1) with 1. ring.
Qed.

(** Each slice is paid from a cash that covers it. *)
Lemma buySlices_cash_nonneg signal update asset sliceAmount idxs st :
  0 <= cashOf st ->
  0 <= cashOf (buySlices signal update asset sliceAmount idxs st).
Proof.
  revert st. induction idxs as [|i rest IH]; intros st Hcash; simpl;
    [assumption|].
  destruct (Qlt_bool (cashOf st) sliceAmount) eqn:Hlt; [assumption|].
  apply Qlt_bool_false in Hlt. apply IH.
  destruct (buySlice_outcome signal update asset sliceAmount i st)
    as [->|[_ ->]]; [assumption|].
  rewrite cashOf_fillBuy. lra.
Qed.

(** The same for the loop on an inherited object. *)
Lemma cashOf_fillBuyInherited signal update sliceAmount q i st :
  cashOf (fillBuyInherited signal update sliceAmount q i st) = cashOf st - sliceAmount.
Proof.
  destruct st as [h e].
  change (cash (getPortfolio (setCash h (portfolio e) (cashOf (h, e) - sliceAmount))
                             (portfolio e)) = cashOf (h, e) - sliceAmount).
  now rewrite getPortfolio_setCash.
Qed.

Lemma trades_fillBuyInherited signal update sliceAmount q i st :
  trades (snd (fillBuyInherited signal update sliceAmount q i st)) =
  trades (snd st) ++
    [mkTrade (s_symbol signal) BUY q (u_price update) (sliceTime update i)].
Proof. destruct st as [h e]. reflexivity. Qed.

Lemma buySliceInherited_outcome signal update sliceAmount i st :
  buySliceInherited signal update sliceAmount i st = st \/
  (~ u_price update == 0 /\
   buySliceInherited signal update sliceAmount i st =
   fillBuyInherited signal update sliceAmount (sliceAmount / u_price update) i st).
Proof.
  unfold buySliceInherited.
  destruct (riskCheck _ _ _ _) eqn:R; [|now left].
  apply riskCheck_div_finite in R as [Hp ->]. right. auto.
Qed.

Lemma buySlicesInherited_account signal update sliceAmount idxs st :
  exists new : list Trade,
    trades (snd (buySlicesInherited signal update sliceAmount idxs st)) =
      trades (snd st) ++ new /\
    (length new <= length idxs)%nat /\
    Forall (fun tr => t_side tr = BUY /\ t_price tr = u_price update /\
                      t_quantity tr = sliceAmount / u_price update) new /\
    cashOf (buySlicesInherited signal update sliceAmount idxs st) ==
      cashOf st - lengthQ new * sliceAmount.
Proof.
  assert (Hnone : forall st' : state (S := S), forall n : nat,
            exists new : list Trade,
              trades (snd st') = trades (snd st') ++ new /\
              (length new <= n)%nat /\
              Forall (fun tr => t_side tr = BUY /\ t_price tr = u_price update /\
                                t_quantity tr = sliceAmount / u_price update) new /\
              cashOf st' == cashOf st' - lengthQ new * sliceAmount).
  { intros st' n. exists [].
    split; [now rewrite app_nil_r|].
    split; [simpl; lia|].
    split; [constructor|].
    unfold lengthQ. simpl length. change (inject_Z (Z.of_nat 0)) with 0. lra. }
  revert st. induction idxs as [|i rest IH]; intros st; simpl.
  - apply Hnone.
  - destruct (Qlt_bool (cashOf st) sliceAmount) eqn:Hlt; [apply Hnone|].
    destruct (buySliceInherited_outcome signal update sliceAmount i st)
      as [->|[Hp ->]].
    + destruct (IH st) as (new & Ht & Hlen & Hall & Hc).
      exists new. repeat split; auto with arith.
    + set (q := sliceAmount / u_price update).
      set (st1 := fillBuyInherited signal update sliceAmount q i st).
      assert (Hc1 : cashOf st1 = cashOf st - sliceAmount)
        by apply cashOf_fillBuyInherited.
      destruct (IH st1) as (new & Ht & Hlen & Hall & Hc).
      exists (mkTrade (s_symbol signal) BUY q (u_price update)
                (sliceTime update i) :: new).
      split; [|split; [|split]].
      * rewrite Ht. unfold st1. rewrite trades_fillBuyInherited.
        now rewrite <- app_assoc.
      * simpl. lia.
      * constructor; [|assumption]. simpl. auto.
      * rewrite Hc, Hc1. unfold lengthQ. simpl length.
        rewrite Nat2Z.inj_succ, <- Z.add_1_r, inject_Z_plus.
        change (inject_Z 1) with 1. ring.
Qed.

Lemma buySlicesInherited_cash_nonneg signal update sliceAmount idxs st :
  0 <= cashOf st ->
  0 <= cashOf (buySlicesInherited signal update sliceAmount idxs st).
Proof.
  revert st. induction idxs as [|i rest IH]; intros st Hcash; simpl;
    [assumption|].
  destruct (Qlt_bool (cashOf st) sliceAmount) eqn:Hlt; [assumption|].
  apply Qlt_bool_false in Hlt. apply IH.
  destruct (buySliceInherited_outcome signal update sliceAmount i st)
    as [->|[_ ->]]; [assumption|].
  rewrite cashOf_fillBuyInherited. lra.
Qed.

Lemma executeBuy_account signal update st :
  exists new : list Trade,
    trades (snd (executeBuy signal update st)) = trades (snd st) ++ new /\
    (length new <= 5)%nat /\
    Forall (fun tr =>
              t_side tr = BUY /\ t_price tr = u_price update /\
              t_quantity tr =
                calculateTotalValue (fst st) (snd st) (Some update)
                  * s_percentage signal / 5 / u_price update) new /\
    cashOf (executeBuy signal update st) ==
      cashOf st - lengthQ new *
        (calculateTotalValue (fst st) (snd st) (Some update)
           * s_percentage signal / 5).
Proof.
  destruct st as [h e]. unfold executeBuy.
  destruct (assetRef h e (s_symbol signal)) as [asset|].
  - apply (buySlices_account signal update asset _ (seq 0 5) (h, e)).
  - destruct (inherited (s_symbol signal)).
    + apply (buySlicesInherited_account signal update _ (seq 0 5) (h, e)).
    + exists []. split; [now rewrite app_nil_r|]. split; [simpl; lia|].
      split; [constructor|].
      unfold lengthQ. simpl length. change (inject_Z (Z.of_nat 0)) with 0. lra.
Qed.

(** C1.  Whenever the BUY loop finds the cash below the slice amount it
    stops there, leaving the store and the trade log as they are; and
    from a portfolio whose cash is not negative, [executeBuy] appends at
    most five trades, each paid with one slice amount, and leaves a cash
    that is not negative.  (Nothing more is needed of the holdings, the
    prices, the percentage or the update.) *)
Theorem executeBuy_cash_nonneg (signal : TradeSignal) (update : PriceUpdate) st :
  0 <= cashOf st ->
  (forall asset sliceAmount idxs st',
     cashOf st' < sliceAmount ->
     buySlices signal update asset sliceAmount idxs st' = st') /\
  (exists new : list Trade,
     trades (snd (executeBuy signal update st)) = trades (snd st) ++ new /\
     (length new <= 5)%nat /\
     cashOf (executeBuy signal update st) ==
       cashOf st - lengthQ new *
         (calculateTotalValue (fst st) (snd st) (Some update)
            * s_percentage signal / 5)) /\
  0 <= cashOf (executeBuy signal update st).
Proof.
  intros Hcash. split; [|split].
  - intros asset sliceAmount idxs st'. apply buySlices_break.
  - destruct (executeBuy_account signal update st) as (new & Ht & Hlen & _ & Hc).
    exists new. auto.
  - destruct st as [h e]. unfold executeBuy.
    destruct (assetRef h e (s_symbol signal)) as [asset|].
    + now apply buySlices_cash_nonneg.
    + destruct (inherited (s_symbol signal)); [|assumption].
      now apply buySlicesInherited_cash_nonneg.
Qed.

(** *** SELL *)

Lemma holdingsOf_fillSell signal update asset q i st :
  holdingsOf asset (fillSell signal update asset q i st) = holdingsOf asset st - q.
Proof.
  destruct st as [h e].
  change (a_holdings (getAsset (setHoldings h asset (a_holdings (getAsset h asset) - q))
                               asset) = a_holdings (getAsset h asset) - q).
  now rewrite getAsset_setHoldings.
Qed.

Lemma cashOf_fillSell signal update asset q i st :
  cashOf (fillSell signal update asset q i st) = cashOf st + q * u_price update.
Proof.
  destruct st as [h e].
  set (h1 := setHoldings h asset (a_holdings (getAsset h asset) - q)).
  change (cash (getPortfolio
                  (setCash h1 (portfolio e)
                     (cash (getPortfolio h1 (portfolio e)) + q * u_price update))
                  (portfolio e)) = cashOf (h, e) + q * u_price update).
  now rewrite getPortfolio_setCash.
Qed.

Lemma trades_fillSell signal update asset q i st :
  trades (snd (fillSell signal update asset q i st)) =
  trades (snd st) ++
    [mkTrade (s_symbol signal) SELL q (u_price update) (sliceTime update i)].
Proof. destruct st as [h e]. reflexivity. Qed.

Lemma riskLimits_fillSell signal update asset q i st :
  riskLimits (snd (fillSell signal update asset q i st)) = riskLimits (snd st).
Proof. destruct st as [h e]. reflexivity. Qed.

(** One turn of the SELL loop: nothing, or one slice of
    [min(sliceQuantity, holdings)]. *)
Lemma sellSlice_outcome signal update asset sliceQuantity i st :
  sellSlice signal update asset sliceQuantity st i = st \/
  (0 < Qmin sliceQuantity (holdingsOf asset st) /\
   sellSlice signal update asset sliceQuantity st i =
   fillSell signal update asset (Qmin sliceQuantity (holdingsOf asset st)) i st).
Proof.
  unfold sellSlice.
  destruct (Qlt_bool 0 _) eqn:Hq; simpl; [|now left].
  destruct (riskCheck _ _ _ _); [|now left].
  right. split; [now apply Qlt_bool_true|reflexivity].
Qed.

Lemma sellSlice_holdings_nonneg signal update asset sliceQuantity i st :
  0 <= holdingsOf asset st ->
  0 <= holdingsOf asset (sellSlice signal update asset sliceQuantity st i).
Proof.
  intros Hh.
  destruct (sellSlice_outcome signal update asset sliceQuantity i st)
    as [->|[_ ->]]; [assumption|].
  rewrite holdingsOf_fillSell.
  pose proof (Q.le_min_r sliceQuantity (holdingsOf asset st)). lra.
Qed.

Lemma sellSlices_holdings_nonneg signal update asset sliceQuantity idxs st :
  0 <= holdingsOf asset st ->
  0 <= holdingsOf asset (sellSlices signal update asset sliceQuantity idxs st).
Proof.
  revert st. induction idxs as [|i rest IH]; intros st Hh; [assumption|].
  apply IH. now apply sellSlice_holdings_nonneg.
Qed.

(** The state after [k + 1] turns is one turn after the state after [k]. *)
Lemma sellSlices_succ signal update asset sliceQuantity (k : nat) st :
  sellSlices signal update asset sliceQuantity (seq 0 (Datatypes.S k)) st =
  sellSlice signal update asset sliceQuantity
    (sellSlices signal update asset sliceQuantity (seq 0 k) st) k.
Proof. unfold sellSlices. rewrite seq_S, fold_left_app. reflexivity. Qed.

(** While whole slices fit in the holdings and pass the risk check, each
    turn sells one. *)
Lemma sellSlices_full signal update asset sliceQuantity idxs st :
  0 < sliceQuantity ->
  lengthQ idxs * sliceQuantity <= holdingsOf asset st ->
  sliceQuantity * u_price update <= maxTradeSize (riskLimits (snd st)) ->
  sliceQuantity <= maxPositionSize (riskLimits (snd st)) ->
  exists new : list Trade,
    trades (snd (sellSlices signal update asset sliceQuantity idxs st)) =
      trades (snd st) ++ new /\
    length new = length idxs /\
    Forall (fun tr => t_side tr = SELL /\ t_quantity tr == sliceQuantity) new /\
    holdingsOf asset (sellSlices signal update asset sliceQuantity idxs st) ==
      holdingsOf asset st - lengthQ idxs * sliceQuantity /\
    cashOf (sellSlices signal update asset sliceQuantity idxs st) ==
      cashOf st + lengthQ idxs * sliceQuantity * u_price update.
Proof.
  intros Hpos. revert st.
  induction idxs as [|i rest IH]; intros st Hfit Hmax Hposn.
  - exists []. split; [now rewrite app_nil_r|]. split; [reflexivity|].
    split; [constructor|].
    unfold lengthQ. simpl length. change (inject_Z (Z.of_nat 0)) with 0.
    simpl sellSlices. split; ring.
  - assert (Hlen : lengthQ (i :: rest) == lengthQ rest + 1).
    { unfold lengthQ. simpl length.
      rewrite Nat2Z.inj_succ, <- Z.add_1_r, inject_Z_plus. reflexivity. }
    assert (Hrest : 0 <= lengthQ rest).
    { unfold lengthQ. change 0 with (inject_Z 0). rewrite <- Zle_Qle. lia. }
    assert (Hle : sliceQuantity <= holdingsOf asset st).
    { rewrite Hlen in Hfit. nra. }
    assert (Hmin : Qmin sliceQuantity (holdingsOf asset st) == sliceQuantity)
      by now apply Q.min_l.
    set (q := Qmin sliceQuantity (holdingsOf asset st)) in *.
    assert (Hstep : sellSlice signal update asset sliceQuantity st i =
                    fillSell signal update asset q i st).
    { unfold sellSlice. fold q.
      assert (Hq : Qlt_bool 0 q = true) by (apply Qlt_bool_true; lra).
      assert (Hr : riskCheck (riskLimits (snd st)) (s_symbol signal)
                     (JSNum.Fin q) (u_price update) = true).
      { apply riskCheck_true. rewrite Hmin. auto. }
      now rewrite Hq, Hr. }
    change (sellSlices signal update asset sliceQuantity (i :: rest) st)
      with (sellSlices signal update asset sliceQuantity rest
              (sellSlice signal update asset sliceQuantity st i)).
    rewrite Hstep.
    set (st1 := fillSell signal update asset q i st).
    assert (Hh1 : holdingsOf asset st1 = holdingsOf asset st - q)
      by apply holdingsOf_fillSell.
    assert (Hc1 : cashOf st1 = cashOf st + q * u_price update)
      by apply cashOf_fillSell.
    assert (Hl1 : riskLimits (snd st1) = riskLimits (snd st))
      by apply riskLimits_fillSell.
    destruct (IH st1) as (new & Ht & Hn & Hall & Hh & Hc).
    { rewrite Hh1, Hmin. rewrite Hlen in Hfit. lra. }
    { now rewrite Hl1. }
    { now rewrite Hl1. }
    exists (mkTrade (s_symbol signal) SELL q (u_price update)
              (sliceTime update i) :: new).
    split; [|split; [|split; [|split]]].
    + rewrite Ht. unfold st1. rewrite trades_fillSell. now rewrite <- app_assoc.
    + simpl. now rewrite Hn.
    + constructor; [|assumption]. simpl. auto.
    + rewrite Hh, Hh1, Hlen, Hmin. ring.
    + rewrite Hc, Hc1, Hlen, Hmin. ring.
Qed.

(** C2.  From holdings that are not negative, after each turn of the
    SELL loop the holdings are still not negative, and a turn either
    sells nothing or sells exactly [min(sliceQuantity, holdings)], with
    [sliceQuantity] a fifth of the quantity to sell.  With holdings 50,
    percentage 0.20, price 100 and limits that accept a slice of 2, the
    loop makes five trades of quantity 2, leaves holdings 40 and adds
    1000 to the cash. *)
Theorem executeSell_never_oversells
    (signal : TradeSignal) (update : PriceUpdate) st (asset : loc) :
  assetRef (fst st) (snd st) (s_symbol signal) = Some asset ->
  0 <= holdingsOf asset st ->
  let sliceQuantity := holdingsOf asset st * s_percentage signal / 5 in
  let after k := sellSlices signal update asset sliceQuantity (seq 0 k) st in
  (executeSell signal update st = st \/ executeSell signal update st = after 5%nat) /\
  (forall k : nat,
     0 <= holdingsOf asset (after k) /\
     (after (Datatypes.S k) = after k \/
      let q := Qmin sliceQuantity (holdingsOf asset (after k)) in
      0 < q /\
      trades (snd (after (Datatypes.S k))) =
        trades (snd (after k)) ++
          [mkTrade (s_symbol signal) SELL q (u_price update) (sliceTime update k)] /\
      holdingsOf asset (after (Datatypes.S k)) = holdingsOf asset (after k) - q /\
      cashOf (after (Datatypes.S k)) = cashOf (after k) + q * u_price update)) /\
  0 <= holdingsOf asset (executeSell signal update st) /\
  (holdingsOf asset st == 50 -> s_percentage signal == 1 # 5 ->
   u_price update == 100 ->
   200 <= maxTradeSize (riskLimits (snd st)) ->
   2 <= maxPositionSize (riskLimits (snd st)) ->
   exists new : list Trade,
     trades (snd (executeSell signal update st)) = trades (snd st) ++ new /\
     length new = 5%nat /\
     Forall (fun tr => t_side tr = SELL /\ t_quantity tr == 2) new /\
     holdingsOf asset (executeSell signal update st) == 40 /\
     cashOf (executeSell signal update st) == cashOf st + 1000).
Proof.
  intros Href Hh sliceQuantity after.
  assert (Hexec : executeSell signal update st =
                  if Qle_bool (holdingsOf asset st) 0 then st else after 5%nat).
  { destruct st as [h e]. unfold executeSell. simpl in Href. rewrite Href.
    reflexivity. }
  split; [|split; [|split]].
  - rewrite Hexec. destruct (Qle_bool _ _); auto.
  - intros k. split.
    + now apply sellSlices_holdings_nonneg.
    + assert (Hsucc : after (Datatypes.S k) =
                      sellSlice signal update asset sliceQuantity (after k) k)
        by apply sellSlices_succ.
      rewrite !Hsucc.
      destruct (sellSlice_outcome signal update asset sliceQuantity k (after k))
        as [->|[Hq ->]]; [now left|].
      right. split; [assumption|].
      split; [apply trades_fillSell|].
      split; [apply holdingsOf_fillSell|apply cashOf_fillSell].
  - rewrite Hexec. destruct (Qle_bool _ _); [assumption|].
    now apply sellSlices_holdings_nonneg.
  - intros H50 Hpct Hprice Hmax Hposn.
    assert (Hs : sliceQuantity == 2).
    { unfold sliceQuantity. rewrite H50, Hpct. reflexivity. }
    assert (Hgt : Qle_bool (holdingsOf asset st) 0 = false)
      by (apply Qle_bool_false; lra).
    rewrite Hexec, Hgt. unfold after.
    destruct (sellSlices_full signal update asset sliceQuantity (seq 0 5) st)
      as (new & Ht & Hn & Hall & Hhold & Hcash).
    + lra.
    + unfold lengthQ. simpl length. change (inject_Z (Z.of_nat 5)) with 5.
      rewrite Hs, H50. lra.
    + rewrite Hs, Hprice. lra.
    + rewrite Hs. assumption.
    + exists new. split; [assumption|]. split; [assumption|].
      split; [|split].
      * eapply Forall_impl; [exact Hall|].
        intros tr [Hside Hq]. split; [assumption|]. now rewrite Hq.
      * rewrite Hhold, Hs, H50. reflexivity.
      * rewrite Hcash, Hs, Hprice. unfold lengthQ. simpl length.
        change (inject_Z (Z.of_nat 5)) with 5. ring.
Qed.

Lemma sellSlices_account signal update asset sliceQuantity idxs st :
  exists new : list Trade,
    trades (snd (sellSlices signal update asset sliceQuantity idxs st)) =
      trades (snd st) ++ new /\
    (length new <= length idxs)%nat /\
    Forall (fun tr => t_side tr = SELL /\ t_price tr = u_price update /\
                      t_quantity tr <= sliceQuantity) new.
Proof.
  revert st. induction idxs as [|i rest IH]; intros st.
  - exists []. split; [now rewrite app_nil_r|]. split; [simpl; lia|constructor].
  - change (sellSlices signal update asset sliceQuantity (i :: rest) st)
      with (sellSlices signal update asset sliceQuantity rest
              (sellSlice signal update asset sliceQuantity st i)).
    destruct (sellSlice_outcome signal update asset sliceQuantity i st)
      as [->|[_ ->]].
    + destruct (IH st) as (new & Ht & Hlen & Hall).
      exists new. repeat split; auto. simpl. lia.
    + set (q := Qmin sliceQuantity (holdingsOf asset st)).
      destruct (IH (fillSell signal update asset q i st)) as (new & Ht & Hlen & Hall).
      exists (mkTrade (s_symbol signal) SELL q (u_price update)
                (sliceTime update i) :: new).
      split; [|split].
      * rewrite Ht, trades_fillSell. now rewrite <- app_assoc.
      * simpl. lia.
      * constructor; [|assumption]. simpl. split; [reflexivity|].
        split; [reflexivity|]. apply Q.le_min_l.
Qed.

Lemma executeSell_account signal update st :
  exists new : list Trade,
    trades (snd (executeSell signal update st)) = trades (snd st) ++ new /\
    (length new <= 5)%nat /\
    forall asset, assetRef (fst st) (snd st) (s_symbol signal) = Some asset ->
      Forall (fun tr =>
                t_side tr = SELL /\ t_price tr = u_price update /\
                t_quantity tr <= holdingsOf asset st * s_percentage signal / 5) new.
Proof.
  assert (Hnone : exists new : list Trade,
            trades (snd st) = trades (snd st) ++ new /\
            (length new <= 5)%nat /\
            forall asset, assetRef (fst st) (snd st) (s_symbol signal) = Some asset ->
              Forall (fun tr =>
                        t_side tr = SELL /\ t_price tr = u_price update /\
                        t_quantity tr <=
                          holdingsOf asset st * s_percentage signal / 5) new).
  { exists []. split; [now rewrite app_nil_r|]. split; [simpl; lia|].
    intros; constructor. }
  destruct st as [h e]. unfold executeSell.
  destruct (assetRef h e (s_symbol signal)) as [asset|] eqn:Href; [|exact Hnone].
  destruct (Qle_bool _ _); [exact Hnone|].
  destruct (sellSlices_account signal update asset
              (a_holdings (getAsset h asset) * s_percentage signal / 5)
              (seq 0 5) (h, e)) as (new & Ht & Hlen & Hall).
  exists new. split; [assumption|]. split; [assumption|].
  intros asset' Href'. simpl in Href'. rewrite Href in Href'.
  injection Href' as <-. exact Hall.
Qed.

(** *** The strategy object has no part in the execution of a signal *)

Lemma fillBuy_replace (s : S) signal update asset sliceAmount q i st :
  fillBuy signal update asset sliceAmount q i (replaceStrategy s st) =
  replaceStrategy s (fillBuy signal update asset sliceAmount q i st).
Proof. destruct st as [h e]. reflexivity. Qed.

Lemma buySlice_replace (s : S) signal update asset sliceAmount i st :
  buySlice signal update asset sliceAmount i (replaceStrategy s st) =
  replaceStrategy s (buySlice signal update asset sliceAmount i st).
Proof.
  unfold buySlice.
  change (riskLimits (snd (replaceStrategy s st))) with (riskLimits (snd st)).
  destruct (riskCheck _ _ _ _); [|reflexivity].
  destruct (JSNum.div _ _); try reflexivity. apply fillBuy_replace.
Qed.

Lemma buySlices_replace (s : S) signal update asset sliceAmount idxs st :
  buySlices signal update asset sliceAmount idxs (replaceStrategy s st) =
  replaceStrategy s (buySlices signal update asset sliceAmount idxs st).
Proof.
  revert st. induction idxs as [|i rest IH]; intros st; simpl; [reflexivity|].
  change (cashOf (replaceStrategy s st)) with (cashOf st).
  destruct (Qlt_bool _ _); [reflexivity|].
  now rewrite buySlice_replace, IH.
Qed.

Lemma fillBuyInherited_replace (s : S) signal update sliceAmount q i st :
  fillBuyInherited signal update sliceAmount q i (replaceStrategy s st) =
  replaceStrategy s (fillBuyInherited signal update sliceAmount q i st).
Proof. destruct st as [h e]. reflexivity. Qed.

Lemma buySliceInherited_replace (s : S) signal update sliceAmount i st :
  buySliceInherited signal update sliceAmount i (replaceStrategy s st) =
  replaceStrategy s (buySliceInherited signal update sliceAmount i st).
Proof.
  unfold buySliceInherited.
  change (riskLimits (snd (replaceStrategy s st))) with (riskLimits (snd st)).
  destruct (riskCheck _ _ _ _); [|reflexivity].
  destruct (JSNum.div _ _); try reflexivity. apply fillBuyInherited_replace.
Qed.

Lemma buySlicesInherited_replace (s : S) signal update sliceAmount idxs st :
  buySlicesInherited signal update sliceAmount idxs (replaceStrategy s st) =
  replaceStrategy s (buySlicesInherited signal update sliceAmount idxs st).
Proof.
  revert st. induction idxs as [|i rest IH]; intros st; simpl; [reflexivity|].
  change (cashOf (replaceStrategy s st)) with (cashOf st).
  destruct (Qlt_bool _ _); [reflexivity|].
  now rewrite buySliceInherited_replace, IH.
Qed.

Lemma executeBuy_replace (s : S) signal update st :
  executeBuy signal update (replaceStrategy s st) =
  replaceStrategy s (executeBuy signal update st).
Proof.
  destruct st as [h e]. unfold executeBuy, replaceStrategy at 1.
  cbn [fst snd].
  change (assetRef h (setStrategy e s) (s_symbol signal))
    with (assetRef h e (s_symbol signal)).
  destruct (assetRef h e (s_symbol signal)) as [asset|].
  - apply (buySlices_replace s signal update asset _ (seq 0 5) (h, e)).
  - destruct (inherited (s_symbol signal)); [|reflexivity].
    apply (buySlicesInherited_replace s signal update _ (seq 0 5) (h, e)).
Qed.

Lemma fillSell_replace (s : S) signal update asset q i st :
  fillSell signal update asset q i (replaceStrategy s st) =
  replaceStrategy s (fillSell signal update asset q i st).
Proof. destruct st as [h e]. reflexivity. Qed.

Lemma sellSlice_replace (s : S) signal update asset sliceQuantity i st :
  sellSlice signal update asset sliceQuantity (replaceStrategy s st) i =
  replaceStrategy s (sellSlice signal update asset sliceQuantity st i).
Proof.
  unfold sellSlice.
  change (riskLimits (snd (replaceStrategy s st))) with (riskLimits (snd st)).
  change (holdingsOf asset (replaceStrategy s st)) with (holdingsOf asset st).
  destruct (_ && _); [|reflexivity]. apply fillSell_replace.
Qed.

Lemma sellSlices_replace (s : S) signal update asset sliceQuantity idxs st :
  sellSlices signal update asset sliceQuantity idxs (replaceStrategy s st) =
  replaceStrategy s (sellSlices signal update asset sliceQuantity idxs st).
Proof.
  revert st. induction idxs as [|i rest IH]; intros st; [reflexivity|].
  change (sellSlices signal update asset sliceQuantity (i :: rest) (replaceStrategy s st))
    with (sellSlices signal update asset sliceQuantity rest
            (sellSlice signal update asset sliceQuantity (replaceStrategy s st) i)).
  now rewrite sellSlice_replace, IH.
Qed.

Lemma executeSell_replace (s : S) signal update st :
  executeSell signal update (replaceStrategy s st) =
  replaceStrategy s (executeSell signal update st).
Proof.
  destruct st as [h e]. unfold executeSell, replaceStrategy at 1.
  cbn [fst snd].
  change (assetRef h (setStrategy e s) (s_symbol signal))
    with (assetRef h e (s_symbol signal)).
  destruct (assetRef h e (s_symbol signal)) as [asset|]; [|reflexivity].
  destruct (Qle_bool _ _); [reflexivity|].
  apply (sellSlices_replace s signal update asset _ (seq 0 5) (h, e)).
Qed.

(** *** What the execution of a signal does to the store *)

Lemma assetRefs_changes st st' :
  changes st st' -> assetRefs (fst st') (snd st') = assetRefs (fst st) (snd st).
Proof.
  intros [Hw Hp]. unfold assetRefs, getRecord. rewrite Hp.
  rewrite (writes_assets _ _ _ _ (portfolio (snd st)) Hw).
  now rewrite (writes_records _ _ _ _ Hw).
Qed.

Lemma changes_refl st : changes st st.
Proof. split; [constructor|reflexivity]. Qed.

Lemma changes_trans st1 st2 st3 :
  changes st1 st2 -> changes st2 st3 -> changes st1 st3.
Proof.
  intros H12 H23. pose proof (assetRefs_changes _ _ H12) as Hrefs.
  destruct H12 as [W12 P12], H23 as [W23 P23].
  rewrite Hrefs, P12 in W23.
  split; [now apply (writes_trans _ _ _ (fst st2))|congruence].
Qed.

Lemma changes_replaceStrategy (s : S) st st' :
  changes st st' -> changes st (replaceStrategy s st').
Proof. intros [Hw Hp]. split; assumption. Qed.

Lemma changes_fillBuy signal update asset sliceAmount q i st :
  In asset (assetRefs (fst st) (snd st)) ->
  changes st (fillBuy signal update asset sliceAmount q i st).
Proof.
  intros Hin. destruct st as [h e]. split; [|reflexivity].
  apply writes_holdings; [|assumption].
  apply writes_cash. constructor.
Qed.

Lemma changes_fillSell signal update asset q i st :
  In asset (assetRefs (fst st) (snd st)) ->
  changes st (fillSell signal update asset q i st).
Proof.
  intros Hin. destruct st as [h e]. split; [|reflexivity].
  apply writes_cash. apply writes_holdings; [constructor|assumption].
Qed.

Lemma changes_buySlices signal update asset sliceAmount idxs st :
  In asset (assetRefs (fst st) (snd st)) ->
  changes st (buySlices signal update asset sliceAmount idxs st).
Proof.
  revert st. induction idxs as [|i rest IH]; intros st Hin; simpl;
    [apply changes_refl|].
  destruct (Qlt_bool _ _); [apply changes_refl|].
  assert (Hstep : changes st (buySlice signal update asset sliceAmount i st)).
  { destruct (buySlice_outcome signal update asset sliceAmount i st)
      as [->|[_ ->]]; [apply changes_refl|now apply changes_fillBuy]. }
  apply (changes_trans _ _ _ Hstep). apply IH.
  now rewrite (assetRefs_changes _ _ Hstep).
Qed.

Lemma changes_sellSlices signal update asset sliceQuantity idxs st :
  In asset (assetRefs (fst st) (snd st)) ->
  changes st (sellSlices signal update asset sliceQuantity idxs st).
Proof.
  revert st. induction idxs as [|i rest IH]; intros st Hin;
    [apply changes_refl|].
  change (sellSlices signal update asset sliceQuantity (i :: rest) st)
    with (sellSlices signal update asset sliceQuantity rest
            (sellSlice signal update asset sliceQuantity st i)).
  assert (Hstep : changes st (sellSlice signal update asset sliceQuantity st i)).
  { destruct (sellSlice_outcome signal update asset sliceQuantity i st)
      as [->|[_ ->]]; [apply changes_refl|now apply changes_fillSell]. }
  apply (changes_trans _ _ _ Hstep). apply IH.
  now rewrite (assetRefs_changes _ _ Hstep).
Qed.

Lemma changes_fillBuyInherited signal update sliceAmount q i st :
  changes st (fillBuyInherited signal update sliceAmount q i st).
Proof.
  destruct st as [h e]. split; [|reflexivity]. apply writes_cash. constructor.
Qed.

Lemma changes_buySlicesInherited signal update sliceAmount idxs st :
  changes st (buySlicesInherited signal update sliceAmount idxs st).
Proof.
  revert st. induction idxs as [|i rest IH]; intros st; simpl;
    [apply changes_refl|].
  destruct (Qlt_bool _ _); [apply changes_refl|].
  assert (Hstep : changes st (buySliceInherited signal update sliceAmount i st)).
  { destruct (buySliceInherited_outcome signal update sliceAmount i st)
      as [->|[_ ->]]; [apply changes_refl|apply changes_fillBuyInherited]. }
  apply (changes_trans _ _ _ Hstep). apply IH.
Qed.

Lemma changes_executeBuy signal update st :
  changes st (executeBuy signal update st).
Proof.
  destruct st as [h e]. unfold executeBuy.
  destruct (assetRef h e (s_symbol signal)) as [asset|] eqn:Href.
  - apply changes_buySlices. now apply (assetRef_In h e (s_symbol signal)).
  - destruct (inherited (s_symbol signal)); [|apply changes_refl].
    apply changes_buySlicesInherited.
Qed.

Lemma changes_executeSell signal update st :
  changes st (executeSell signal update st).
Proof.
  destruct st as [h e]. unfold executeSell.
  destruct (assetRef h e (s_symbol signal)) as [asset|] eqn:Href;
    [|apply changes_refl].
  destruct (Qle_bool _ _); [apply changes_refl|].
  apply changes_sellSlices. now apply (assetRef_In h e (s_symbol signal)).
Qed.

(** *** Valuations *)

(** The valuation made for a trade is the valuation at the assets' own
    prices plus what the trade's price adds. *)
Lemma valueAtTrade_split h e (trade : Trade) :
  valueAtTrade h e trade ==
  calculateTotalValue h e None + tradePriceSurplus h e trade.
Proof.
  unfold valueAtTrade, calculateTotalValue, tradePriceSurplus.
  generalize (cash (getPortfolio h (portfolio e))) as c.
  assert (G : forall refs c x,
    fold_left (fun value l =>
                 let a := getAsset h l in
                 value + a_holdings a *
                   (if decide (a_symbol a = t_symbol trade) then t_price trade
                    else a_price a)) refs (c + x) ==
    fold_left (fun total l =>
                 total + a_holdings (getAsset h l) * a_price (getAsset h l))
              refs c +
    fold_left (fun acc l =>
                 let a := getAsset h l in
                 acc + (if decide (a_symbol a = t_symbol trade)
                        then a_holdings a * (t_price trade - a_price a)
                        else 0)) refs x).
  { induction refs as [|l refs IH]; intros c x; simpl; [reflexivity|].
    rewrite <- IH. clear IH.
    assert (P : forall (f : Q -> loc -> Q) (a b : Q),
              (forall u v l', u == v -> f u l' == f v l') ->
              a == b -> fold_left f refs a == fold_left f refs b).
    { intros f. induction refs as [|l' refs' IH']; intros a b Hf Hab; simpl;
        [assumption|]. apply IH'; [assumption|]. now apply Hf. }
    apply P.
    - intros u v l' Huv. simpl. now rewrite Huv.
    - destruct (decide _); ring. }
  intros c. rewrite <- G.
  assert (P : forall refs (a b : Q), a == b ->
            fold_left (fun value l =>
                 let a := getAsset h l in
                 value + a_holdings a *
                   (if decide (a_symbol a = t_symbol trade) then t_price trade
                    else a_price a)) refs a ==
            fold_left (fun value l =>
                 let a := getAsset h l in
                 value + a_holdings a *
                   (if decide (a_symbol a = t_symbol trade) then t_price trade
                    else a_price a)) refs b).
  { induction refs as [|l' refs' IH']; intros a b Hab; simpl; [assumption|].
    apply IH'. now rewrite Hab. }
  apply P. ring.
Qed.

(** What stays as it was: the prices and symbols of all assets, and the
    objects of any store that holds none of the engine's. *)
Lemma changes_price st st' (l : loc) :
  changes st st' ->
  a_price (getAsset (fst st') l) = a_price (getAsset (fst st) l) /\
  a_symbol (getAsset (fst st') l) = a_symbol (getAsset (fst st) l).
Proof.
  intros [Hw _]. split.
  - apply (writes_price _ _ _ _ l Hw).
  - apply (writes_symbol _ _ _ _ l Hw).
Qed.

Lemma changes_preserved (h0 : heap) st st' :
  preserved h0 (fst st) ->
  portfolio (snd st) ∉ dom (portfolios h0) ->
  Forall (fun l => l ∉ dom (assetObjs h0)) (assetRefs (fst st) (snd st)) ->
  changes st st' -> preserved h0 (fst st').
Proof.
  intros Hpres Hp Hrefs [Hw _].
  now apply (writes_preserved h0 _ _ (fst st) (fst st') Hpres Hp Hrefs).
Qed.

End Generic.

Section WithStrategy.

Context {S : Type} `{IStrategy S}.

(** [processUpdate]: ask the strategy, then execute its signal, if any,
    on the portfolio. *)
Lemma processUpdate_unfold (st : state (S := S)) (update : PriceUpdate) :
  processUpdate st update =
  replaceStrategy (snd (onUpdate (strategy (snd st)) update))
    (match fst (onUpdate (strategy (snd st)) update) with
     | None => st
     | Some sig =>
         match s_action sig with
         | BUY => executeBuy sig update st
         | SELL => executeSell sig update st
         end
     end).
Proof.
  destruct st as [h e]. unfold processUpdate. cbn [fst snd].
  destruct (onUpdate (strategy e) update) as [[sig|] s']; cbn [fst snd];
    [|reflexivity].
  destruct (s_action sig).
  - apply (executeBuy_replace s' sig update (h, e)).
  - apply (executeSell_replace s' sig update (h, e)).
Qed.

(** One update appends at most five trades. *)
Lemma processUpdate_account (st : state (S := S)) (update : PriceUpdate) :
  exists new : list Trade,
    trades (snd (processUpdate st update)) = trades (snd st) ++ new /\
    (length new <= 5)%nat /\
    forall sig, fst (onUpdate (strategy (snd st)) update) = Some sig ->
      match s_action sig with
      | BUY =>
          Forall (fun tr =>
                    t_side tr = BUY /\ t_price tr = u_price update /\
                    t_quantity tr =
                      calculateTotalValue (fst st) (snd st) (Some update)
                        * s_percentage sig / 5 / u_price update) new
      | SELL =>
          forall asset,
            assetRef (fst st) (snd st) (s_symbol sig) = Some asset ->
            Forall (fun tr =>
                      t_side tr = SELL /\ t_price tr = u_price update /\
                      t_quantity tr <=
                        holdingsOf asset st * s_percentage sig / 5) new
      end.
Proof.
  rewrite processUpdate_unfold.
  destruct (fst (onUpdate (strategy (snd st)) update)) as [sig|].
  - destruct (s_action sig) eqn:Hact.
    + destruct (executeBuy_account sig update st) as (new & Ht & Hlen & Hall & _).
      exists new. split; [exact Ht|]. split; [exact Hlen|].
      intros sig' [= <-]. now rewrite Hact.
    + destruct (executeSell_account sig update st) as (new & Ht & Hlen & Hall).
      exists new. split; [exact Ht|]. split; [exact Hlen|].
      intros sig' [= <-]. now rewrite Hact.
  - exists []. split; [now rewrite app_nil_r|]. split; [simpl; lia|].
    intros sig' [=].
Qed.

Lemma changes_processUpdate (st : state (S := S)) (update : PriceUpdate) :
  changes st (processUpdate st update).
Proof.
  rewrite processUpdate_unfold. apply changes_replaceStrategy.
  destruct (fst (onUpdate (strategy (snd st)) update)) as [sig|];
    [|apply changes_refl].
  destruct (s_action sig); [apply changes_executeBuy|apply changes_executeSell].
Qed.

Lemma changes_processAll (priceData : list PriceUpdate) (st : state (S := S)) :
  changes st (fold_left processUpdate priceData st).
Proof.
  revert st. induction priceData as [|u us IH]; intros st; simpl;
    [apply changes_refl|].
  apply (changes_trans _ _ _ (changes_processUpdate st u)). apply IH.
Qed.

Lemma changes_afterUpdates (st : state (S := S)) (priceData : list PriceUpdate) :
  changes st (afterUpdates st priceData).
Proof.
  unfold afterUpdates. apply changes_replaceStrategy.
  apply (changes_trans _ (replaceStrategy (initialize (strategy (snd st)) fixedConfig) st)).
  - apply changes_replaceStrategy, changes_refl.
  - apply changes_processAll.
Qed.

(** [run], in terms of the state it analyses. *)
Lemma run_unfold (Math_sqrt : Q -> Q) (st : state (S := S))
    (priceData : list PriceUpdate) :
  let st3 := afterUpdates st priceData in
  let snap := newPortfolio (fst st3) (getPortfolio (fst st3) (portfolio (snd st3))) in
  fst (run Math_sqrt st priceData) = (fst snap, snd st3) /\
  r_trades (snd (run Math_sqrt st priceData)) = trades (snd st3) /\
  r_finalPortfolio (snd (run Math_sqrt st priceData)) = snd snap /\
  r_sharpeRatio (snd (run Math_sqrt st priceData)) =
    calculateSharpeRatio Math_sqrt (fst snap) (snd st3) /\
  r_maxDrawdown (snd (run Math_sqrt st priceData)) =
    calculateMaxDrawdown (fst snap) (snd st3) /\
  r_totalReturn (snd (run Math_sqrt st priceData)) =
    JSNum.mul
      (JSNum.div
         (JSNum.Fin (calculateTotalValue (fst st3) (snd st3) (last priceData)
                     - calculateInitialValue (fst st3) (snd st3)))
         (JSNum.Fin (calculateInitialValue (fst st3) (snd st3))))
      (JSNum.Fin 100).
Proof.
  destruct st as [h0 e0]. unfold run, afterUpdates, replaceStrategy.
  cbn [fst snd].
  destruct (fold_left processUpdate priceData _) as [h2 e2].
  cbn [fst snd]. repeat split; reflexivity.
Qed.

(** Every trade carries the price of the update that caused it. *)
Lemma processUpdate_prices (st : state (S := S)) (update : PriceUpdate) :
  exists new : list Trade,
    trades (snd (processUpdate st update)) = trades (snd st) ++ new /\
    Forall (fun tr => t_price tr = u_price update) new.
Proof.
  rewrite processUpdate_unfold.
  change (trades (snd (replaceStrategy ?s ?x))) with (trades (snd x)).
  destruct (fst (onUpdate (strategy (snd st)) update)) as [sig|].
  - destruct (s_action sig).
    + destruct (executeBuy_account sig update st) as (new & Ht & _ & Hall & _).
      exists new. split; [exact Ht|].
      eapply Forall_impl; [exact Hall|]. now intros tr (_ & Hp & _).
    + destruct st as [h e]. unfold executeSell.
      destruct (assetRef h e (s_symbol sig)) as [asset|].
      2: { exists []. split; [now rewrite app_nil_r|constructor]. }
      destruct (Qle_bool _ _).
      { exists []. split; [now rewrite app_nil_r|constructor]. }
      destruct (sellSlices_account sig update asset
                  (a_holdings (getAsset h asset) * s_percentage sig / 5)
                  (seq 0 5) (h, e)) as (new & Ht & _ & Hall).
      exists new. split; [exact Ht|].
      eapply Forall_impl; [exact Hall|]. now intros tr (_ & Hp & _).
  - exists []. split; [now rewrite app_nil_r|constructor].
Qed.

Lemma processAll_prices (priceData : list PriceUpdate) (st : state (S := S)) :
  exists new : list Trade,
    trades (snd (fold_left processUpdate priceData st)) = trades (snd st) ++ new /\
    Forall (fun tr => exists u, In u priceData /\ t_price tr = u_price u) new.
Proof.
  revert st. induction priceData as [|u us IH]; intros st; simpl.
  - exists []. split; [now rewrite app_nil_r|constructor].
  - destruct (processUpdate_prices st u) as (new1 & Ht1 & Hall1).
    destruct (IH (processUpdate st u)) as (new2 & Ht2 & Hall2).
    exists (new1 ++ new2). split.
    + now rewrite Ht2, Ht1, app_assoc.
    + apply Forall_app. split.
      * eapply Forall_impl; [exact Hall1|]. intros tr Hp. exists u. auto.
      * eapply Forall_impl; [exact Hall2|]. intros tr (u' & Hin & Hp).
        exists u'. auto.
Qed.

(** What a backtest does to the store.  It changes it only by
    assignments to the cash of the engine's portfolio and to the holdings
    of its assets, followed by the allocation of the snapshot.  No asset
    changes its price or symbol, and the assets of the final portfolio
    have the keys, symbols and prices of the caller's initial portfolio.
    The valuations behind the initial value and the final value use these
    prices and ignore the update they are given.  The valuation made for a
    trade adds to the initial value, for the assets with the trade's
    symbol, the holdings times the difference between the trade's price
    and the asset's own; and the price of every trade is the price of one
    of the streamed updates. *)
Lemma backtest_store
    (Math_sqrt : Q -> Q) (h0 : heap) (strat : S) (initialPortfolio : loc)
    (limits : RiskLimits) (priceData : list PriceUpdate) :
  let st1 := constructor h0 strat initialPortfolio limits in
  let out := run Math_sqrt st1 priceData in
  let hf := fst (fst out) in
  let ef := snd (fst out) in
  let public (ka : string * Asset) :=
    (fst ka, a_symbol (snd ka), a_price (snd ka)) in
  (exists h3 : heap,
     writes (portfolio (snd st1)) (assetRefs (fst st1) (snd st1)) (fst st1) h3 /\
     hf = fst (newPortfolio h3 (getPortfolio h3 (portfolio (snd st1))))) /\
  (forall l : loc,
     a_price (getAsset hf l) = a_price (getAsset (fst st1) l) /\
     a_symbol (getAsset hf l) = a_symbol (getAsset (fst st1) l)) /\
  map public (JSON.j_assets (JSON.stringify hf (r_finalPortfolio (snd out)))) =
    map public (JSON.j_assets (JSON.stringify h0 initialPortfolio)) /\
  (forall update : option PriceUpdate,
     calculateTotalValue hf ef update = calculateInitialValue hf ef) /\
  (forall trade : Trade,
     valueAtTrade hf ef trade ==
     calculateInitialValue hf ef + tradePriceSurplus hf ef trade) /\
  Forall (fun tr => exists u, In u priceData /\ t_price tr = u_price u)
         (r_trades (snd out)).
Proof.
  intros st1 out hf ef public.
  destruct (parse_spec h0 h0 (JSON.stringify h0 initialPortfolio)
              (preserved_refl h0)) as (_ & _ & _ & _ & Hcopy).
  assert (A1 : JSON.stringify (fst st1) (portfolio (snd st1)) =
               JSON.stringify h0 initialPortfolio).
  { unfold st1, constructor. now destruct (JSON.parse _ _). }
  assert (T1 : trades (snd st1) = []).
  { unfold st1, constructor. now destruct (JSON.parse _ _). }
  clear Hcopy. clearbody st1.
  pose proof (changes_afterUpdates st1 priceData) as Hch.
  destruct (run_unfold Math_sqrt st1 priceData)
    as (Hst & Htr & Hsnap & Hsharpe & Hdd & _).
  fold out in Hst, Htr, Hsnap, Hsharpe, Hdd.
  set (st3 := afterUpdates st1 priceData) in *.
  assert (Ehf : hf = fst (newPortfolio (fst st3)
                             (getPortfolio (fst st3) (portfolio (snd st3)))))
    by (unfold hf; now rewrite Hst).
  assert (Eef : ef = snd st3) by (unfold ef; now rewrite Hst).
  assert (Hassets : forall l, getAsset hf l = getAsset (fst st3) l)
    by (intros l; rewrite Ehf; reflexivity).
  assert (Hrecords : forall r, getRecord hf r = getRecord (fst st3) r)
    by (intros r; rewrite Ehf; reflexivity).
  destruct Hch as [Hw Hp].
  split; [|split; [|split; [|split; [|split]]]].
  - exists (fst st3). split; [exact Hw|]. now rewrite Ehf, Hp.
  - intros l. rewrite Hassets.
    split; [apply (writes_price _ _ _ _ l Hw)|apply (writes_symbol _ _ _ _ l Hw)].
  - rewrite <- A1. unfold JSON.stringify. cbn [JSON.j_assets].
    assert (Esnap : getPortfolio hf (r_finalPortfolio (snd out)) =
                    getPortfolio (fst st3) (portfolio (snd st3))).
    { rewrite Hsnap, Ehf. unfold getPortfolio, newPortfolio; simpl.
      apply lookup_total_insert_eq. }
    rewrite Esnap, Hp, Hrecords.
    rewrite (writes_assets _ _ _ _ (portfolio (snd st1)) Hw).
    unfold getRecord. rewrite (writes_records _ _ _ _ Hw).
    rewrite !map_map. apply map_ext. intros [k l]. unfold public. simpl.
    rewrite Hassets.
    now rewrite (writes_price _ _ _ _ l Hw), (writes_symbol _ _ _ _ l Hw).
  - intros update. reflexivity.
  - intros trade. apply valueAtTrade_split.
  - rewrite Htr. unfold st3, afterUpdates.
    change (trades (snd (replaceStrategy ?s ?x))) with (trades (snd x)).
    destruct (processAll_prices priceData
                (replaceStrategy (initialize (strategy (snd st1)) fixedConfig) st1))
      as (new & Ht & Hall).
    rewrite Ht.
    change (trades (snd (replaceStrategy ?s ?x))) with (trades (snd x)).
    now rewrite T1.
Qed.

(** C8.  The engine's portfolio is a copy of the caller's made of new
    objects: none of them is an object of the caller's store, and they
    hold what the caller's portfolio holds.  After a whole backtest
    every object of the caller's store is what it was, so the caller's
    portfolio reads as before (cash, and symbol, price and holdings of
    each asset); the snapshot in the result is a new object as well. *)
Theorem backtest_keeps_caller_portfolio
    (Math_sqrt : Q -> Q) (h0 : heap) (strat : S) (initialPortfolio : loc)
    (limits : RiskLimits) (priceData : list PriceUpdate) :
  let st1 := constructor h0 strat initialPortfolio limits in
  let out := run Math_sqrt st1 priceData in
  JSON.stringify (fst st1) (portfolio (snd st1)) =
    JSON.stringify h0 initialPortfolio /\
  (portfolio (snd st1) ∉ dom (portfolios h0)) /\
  (assets (getPortfolio (fst st1) (portfolio (snd st1))) ∉ dom (records h0)) /\
  Forall (fun l => l ∉ dom (assetObjs h0)) (assetRefs (fst st1) (snd st1)) /\
  preserved h0 (fst (fst out)) /\
  portfolio (snd (fst out)) = portfolio (snd st1) /\
  (r_finalPortfolio (snd out) ∉ dom (portfolios h0)) /\
  (initialPortfolio ∈ dom (portfolios h0) ->
   assets (getPortfolio h0 initialPortfolio) ∈ dom (records h0) ->
   Forall (fun l => l ∈ dom (assetObjs h0))
          (map snd (getRecord h0 (assets (getPortfolio h0 initialPortfolio)))) ->
   JSON.stringify (fst (fst out)) initialPortfolio =
     JSON.stringify h0 initialPortfolio).
Proof.
  intros st1 out.
  destruct (parse_spec h0 h0 (JSON.stringify h0 initialPortfolio)
              (preserved_refl h0)) as (P1 & Fp & Fr & Fa & Hcopy).
  assert (E1 : st1 = (fst (JSON.parse h0 (JSON.stringify h0 initialPortfolio)),
                      mk strat (snd (JSON.parse h0 (JSON.stringify h0 initialPortfolio)))
                         [] limits)).
  { unfold st1, constructor. now destruct (JSON.parse _ _). }
  assert (A1 : JSON.stringify (fst st1) (portfolio (snd st1)) =
               JSON.stringify h0 initialPortfolio) by (rewrite E1; exact Hcopy).
  assert (A2 : portfolio (snd st1) ∉ dom (portfolios h0))
    by (rewrite E1; exact Fp).
  assert (A3 : assets (getPortfolio (fst st1) (portfolio (snd st1)))
               ∉ dom (records h0)) by (rewrite E1; exact Fr).
  assert (A4 : Forall (fun l => l ∉ dom (assetObjs h0))
                 (assetRefs (fst st1) (snd st1))) by (rewrite E1; exact Fa).
  assert (A0 : preserved h0 (fst st1)) by (rewrite E1; exact P1).
  clearbody st1. clear E1 P1 Fp Fr Fa Hcopy.
  assert (Hch : changes st1 (afterUpdates st1 priceData))
    by apply changes_afterUpdates.
  assert (P3 : preserved h0 (fst (afterUpdates st1 priceData)))
    by (now apply (changes_preserved h0 st1)).
  destruct (run_unfold Math_sqrt st1 priceData) as (Hst & _ & Hsnap & _).
  fold out in Hst, Hsnap.
  destruct (preserved_newPortfolio h0 (fst (afterUpdates st1 priceData))
              (getPortfolio (fst (afterUpdates st1 priceData))
                 (portfolio (snd (afterUpdates st1 priceData)))) P3)
    as [Pf Fsnap].
  assert (Hpf : preserved h0 (fst (fst out))) by (now rewrite Hst).
  split; [exact A1|]. split; [exact A2|]. split; [exact A3|].
  split; [exact A4|]. split; [exact Hpf|].
  split; [rewrite Hst; apply Hch|].
  split; [now rewrite Hsnap|].
  intros Hp Hr Ha. unfold JSON.stringify.
  rewrite (preserved_getPortfolio h0 _ _ Hpf Hp).
  rewrite (preserved_getRecord h0 _ _ Hpf Hr).
  f_equal. apply map_ext_in. intros [k l] Hin. simpl. f_equal.
  apply (preserved_getAsset h0 _ _ Hpf).
  rewrite Forall_forall in Ha. apply Ha, list_elem_of_In.
  change l with (snd (k, l)). now apply in_map.
Qed.

End WithStrategy.

(** C10, as stated, fails for the valuations behind the Sharpe ratio and
    the maximum drawdown.  In the backtest of [Scenario.backtest] the asset
    keeps its price of 2000, the trades are made at the streamed price of
    1800, and the valuation made for such a trade counts the asset at
    1800: it is below the valuation at the asset's own price, and the
    maximum drawdown is not zero. *)
Lemma trade_valuation_counterexample :
  let out := Scenario.backtest in
  let hf := fst (fst out) in
  let ef := snd (fst out) in
  exists tr : Trade,
    In tr (r_trades (snd out)) /\
    t_price tr = 1800 /\
    Forall (fun l => a_price (getAsset hf l) = 2000) (assetRefs hf ef) /\
    valueAtTrade hf ef tr == 118000 /\
    calculateTotalValue hf ef None == 364000 # 3 /\
    valueAtTrade hf ef tr < calculateTotalValue hf ef None /\
    JSNum.lt (JSNum.Fin 0) (r_maxDrawdown (snd out)).
Proof.
  intros out hf ef.
  pose proof (run_unfold Scenario.sqrtFloor
                (constructor Scenario.callerStore DropRiseStrategy.create
                   1%positive Scenario.backtestLimits) Scenario.priceData) as H.
  cbv zeta in H. destruct H as (Hst & Htr & _ & _ & Hdd & _).
  change (run _ _ _) with Scenario.backtest in Hst, Htr, Hdd.
  fold out in Hst, Htr, Hdd.
  unfold hf, ef. rewrite Hst, Htr, Hdd.
  exists (mkTrade "ETHUSDT" BUY (1200000 # 900000) 1800 1).
  split; [vm_compute; auto|].
  split; [reflexivity|].
  split; [vm_compute; repeat constructor|].
  split; [vm_compute; reflexivity|].
  split; [vm_compute; reflexivity|].
  split; vm_compute; reflexivity.
Qed.

(** *** The [twapSlices] field *)

Lemma onUpdate_setTwapSlices (n : Q) (s : DropRiseStrategy.t) (u : PriceUpdate) :
  DropRiseStrategy.onUpdate (DropRiseStrategy.setTwapSlices n s) u =
  (fst (DropRiseStrategy.onUpdate s u),
   DropRiseStrategy.setTwapSlices n (snd (DropRiseStrategy.onUpdate s u))).
Proof.
  unfold DropRiseStrategy.onUpdate. simpl.
  destruct (DropRiseStrategy.initialPrices s !! u_symbol u); reflexivity.
Qed.

(** An update commutes with the overwriting of the [twapSlices] field. *)
Lemma processUpdate_withTwapSlices
    (n : Q) (st : state (S := DropRiseStrategy.t)) (update : PriceUpdate) :
  processUpdate (withTwapSlices n st) update =
  withTwapSlices n (processUpdate st update).
Proof.
  rewrite !processUpdate_unfold.
  unfold withTwapSlices.
  change (strategy (snd (replaceStrategy ?s st))) with s.
  cbn [onUpdate DropRise_IStrategy].
  rewrite onUpdate_setTwapSlices. cbn [fst snd].
  destruct (fst (DropRiseStrategy.onUpdate (strategy (snd st)) update)) as [sig|].
  - destruct (s_action sig).
    + rewrite executeBuy_replace. reflexivity.
    + rewrite executeSell_replace. reflexivity.
  - reflexivity.
Qed.

(** C7.  Whatever the [twapSlices] field of the strategy's configuration
    holds, an update leaves the same store and the same trade log, and a
    whole run gives the same result.  An update appends at most five
    trades.  Each BUY trade is for a fifth of the amount to buy, divided
    by the price.  A SELL signal for an asset that is held runs the five
    turns of the SELL loop with a fifth of the quantity to sell as the slice
    quantity, and a turn that trades sells exactly the smaller of the slice
    quantity and the holdings left.  With whatever value in [twapSlices]:
    fifty units and a SELL signal for 0.20 of them at 100 give five trades
    of 2; a portfolio worth 3000 with a cash of 1000 and a BUY signal for
    0.10 of it at 160 give five trades of 60 / 160. *)
Theorem twapSlices_has_no_effect
    (n : Q) (st : state (S := DropRiseStrategy.t)) (update : PriceUpdate) :
  processUpdate (withTwapSlices n st) update =
    withTwapSlices n (processUpdate st update) /\
  (forall (Math_sqrt : Q -> Q) (priceData : list PriceUpdate),
     run Math_sqrt (withTwapSlices n st) priceData = run Math_sqrt st priceData) /\
  (exists new : list Trade,
     trades (snd (processUpdate st update)) = trades (snd st) ++ new /\
     (length new <= 5)%nat /\
     forall sig, fst (onUpdate (strategy (snd st)) update) = Some sig ->
       match s_action sig with
       | BUY =>
           Forall (fun tr =>
                     t_side tr = BUY /\ t_price tr = u_price update /\
                     t_quantity tr =
                       calculateTotalValue (fst st) (snd st) (Some update)
                         * s_percentage sig / 5 / u_price update) new
       | SELL =>
           forall asset,
             assetRef (fst st) (snd st) (s_symbol sig) = Some asset ->
             Forall (fun tr =>
                       t_side tr = SELL /\ t_price tr = u_price update /\
                       t_quantity tr <=
                         holdingsOf asset st * s_percentage sig / 5) new
       end) /\
  (forall sig asset,
     fst (onUpdate (strategy (snd st)) update) = Some sig ->
     s_action sig = SELL ->
     assetRef (fst st) (snd st) (s_symbol sig) = Some asset ->
     0 < holdingsOf asset st ->
     let sliceQuantity := holdingsOf asset st * s_percentage sig / 5 in
     let after k := sellSlices sig update asset sliceQuantity (seq 0 k) st in
     processUpdate st update =
       replaceStrategy (snd (onUpdate (strategy (snd st)) update)) (after 5%nat) /\
     forall k : nat,
       after (Datatypes.S k) = after k \/
       let q := Qmin sliceQuantity (holdingsOf asset (after k)) in
       0 < q /\
       trades (snd (after (Datatypes.S k))) =
         trades (snd (after k)) ++
           [mkTrade (s_symbol sig) SELL q (u_price update) (sliceTime update k)] /\
       holdingsOf asset (after (Datatypes.S k)) = holdingsOf asset (after k) - q) /\
  (let out := processUpdate (withTwapSlices n Scenario.sellReady) Scenario.sellTick in
   length (trades (snd out)) = 5%nat /\
   Forall (fun tr => t_side tr = SELL /\ t_quantity tr == 2 /\ t_price tr == 100)
          (trades (snd out)) /\
   holdingsOf 1%positive out == 40 /\ cashOf out == 1000) /\
  (let out := processUpdate (withTwapSlices n Scenario.buyReady) Scenario.buyTick in
   length (trades (snd out)) = 5%nat /\
   Forall (fun tr => t_side tr = BUY /\ t_quantity tr == 60 / 160 /\
                     t_price tr == 160)
          (trades (snd out)) /\
   holdingsOf 1%positive out == 10 + 5 * (60 / 160) /\ cashOf out == 700).
Proof.
  split; [apply processUpdate_withTwapSlices|].
  split; [intros Math_sqrt priceData; destruct st as [h e]; reflexivity|].
  split; [apply processUpdate_account|].
  split; [|split].
  - intros sig asset Hsig Hsell Href Hpos sliceQuantity after.
    split.
    + rewrite processUpdate_unfold, Hsig, Hsell. f_equal.
      destruct st as [h e]. unfold executeSell. cbn [fst snd] in Href.
      rewrite Href.
      assert (Hgt : Qle_bool (a_holdings (getAsset h asset)) 0 = false)
        by (apply Qle_bool_false; exact Hpos).
      rewrite Hgt. reflexivity.
    + intros k.
      assert (Hsucc : after (Datatypes.S k) =
                      sellSlice sig update asset sliceQuantity (after k) k)
        by apply sellSlices_succ.
      rewrite !Hsucc.
      destruct (sellSlice_outcome sig update asset sliceQuantity k (after k))
        as [->|[Hq ->]]; [now left|].
      right. split; [assumption|].
      split; [apply trades_fillSell|apply holdingsOf_fillSell].
  - cbv zeta. rewrite processUpdate_withTwapSlices.
    change (trades (snd (withTwapSlices n ?x))) with (trades (snd x)).
    change (holdingsOf 1%positive (withTwapSlices n ?x)) with (holdingsOf 1%positive x).
    change (cashOf (withTwapSlices n ?x)) with (cashOf x).
    split; [vm_compute; reflexivity|].
    split; [vm_compute; repeat constructor|].
    split; vm_compute; reflexivity.
  - cbv zeta. rewrite processUpdate_withTwapSlices.
    change (trades (snd (withTwapSlices n ?x))) with (trades (snd x)).
    change (holdingsOf 1%positive (withTwapSlices n ?x)) with (holdingsOf 1%positive x).
    change (cashOf (withTwapSlices n ?x)) with (cashOf x).
    split; [vm_compute; reflexivity|].
    split; [vm_compute; repeat constructor|].
    split; vm_compute; reflexivity.
Qed.

Lemma executeBuy_cash_nonneg_witness :
  0 <= cashOf (executeBuy Scenario.buySignal Scenario.buyUpdate Scenario.buyState).
Proof.
  refine (proj2 (proj2 (executeBuy_cash_nonneg
                          Scenario.buySignal Scenario.buyUpdate Scenario.buyState _))).
  vm_compute. discriminate.
Defined.

Lemma executeSell_never_oversells_witness :
  exists new : list Trade,
    trades (snd (executeSell Scenario.sellSignal Scenario.sellUpdate Scenario.sellState)) =
      trades (snd Scenario.sellState) ++ new /\
    length new = 5%nat /\
    Forall (fun tr => t_side tr = SELL /\ t_quantity tr == 2) new /\
    holdingsOf 1%positive
      (executeSell Scenario.sellSignal Scenario.sellUpdate Scenario.sellState) == 40 /\
    cashOf (executeSell Scenario.sellSignal Scenario.sellUpdate Scenario.sellState) ==
      cashOf Scenario.sellState + 1000.
Proof.
  refine (proj2 (proj2 (proj2
            (executeSell_never_oversells Scenario.sellSignal Scenario.sellUpdate
               Scenario.sellState 1%positive _ _))) _ _ _ _ _);
    vm_compute; try reflexivity; discriminate.
Defined.

End EngineFacts.

(* ===================================================================== *)
(** * Further properties *)
(* ===================================================================== *)

(** ** The strategy's history buffer and its reuse *)

Module StrategyExtras.

Import DropRiseStrategy DropRiseFacts.

(** Pushing onto the last hundred prices gives the last hundred prices of
    the longer sequence. *)
Lemma pushHistory_lastN (p : Q) (ps : list Q) :
  pushHistory p (lastN 100 ps) = lastN 100 (ps ++ [p]).
Proof.
  unfold pushHistory, lastN. rewrite length_app, length_app, length_drop.
  simpl length.
  destruct (le_lt_dec 100 (length ps)) as [Hge|Hlt].
  - assert (E : (100 <? length ps - (length ps - 100) + 1)%nat = true)
      by (apply Nat.ltb_lt; lia).
    rewrite E.
    replace (length ps + 1 - 100)%nat with (Datatypes.S (length ps - 100)) by lia.
    rewrite drop_app_le by lia.
    destruct (drop (length ps - 100) ps) as [|x xs] eqn:D.
    + apply (f_equal length) in D. rewrite length_drop in D. simpl in D. lia.
    + simpl. f_equal.
      change xs with (drop 1 (x :: xs)). rewrite <- D, drop_drop.
      f_equal. lia.
  - assert (E : (100 <? length ps - (length ps - 100) + 1)%nat = false)
      by (apply Nat.ltb_ge; lia).
    rewrite E.
    replace (length ps - 100)%nat with 0%nat by lia.
    replace (length ps + 1 - 100)%nat with 0%nat by lia.
    reflexivity.
Qed.

Lemma onUpdate_tracks (s : string) (ps : list Q) (st : t) (u : PriceUpdate) :
  tracks s ps st -> tracks s (ps ++ pricesOf s [u]) (snd (onUpdate st u)).
Proof.
  intros [Hi Hh]. unfold tracks. simpl pricesOf.
  destruct (decide (u_symbol u = s)) as [Hs|Hs].
  - unfold onUpdate. rewrite Hs, Hi.
    destruct ps as [|p0 ps]; cbn [head app snd initialPrices priceHistory].
    + rewrite !lookup_insert_eq. split; reflexivity.
    + split; [exact Hi|].
      rewrite lookup_alter_eq, Hh. cbn [fmap option_fmap option_map].
      rewrite (pushHistory_lastN (u_price u) (p0 :: ps)). reflexivity.
  - rewrite app_nil_r. unfold onUpdate.
    destruct (initialPrices st !! u_symbol u);
      cbn [snd initialPrices priceHistory]; split.
    + exact Hi.
    + now rewrite lookup_alter_ne.
    + now rewrite lookup_insert_ne.
    + now rewrite lookup_insert_ne.
Qed.

Lemma pricesOf_app (s : string) (us vs : list PriceUpdate) :
  pricesOf s (us ++ vs) = pricesOf s us ++ pricesOf s vs.
Proof.
  induction us as [|u us IH]; simpl; [reflexivity|].
  destruct (decide (u_symbol u = s)); simpl; now rewrite IH.
Qed.

Lemma feed_tracks (s : string) (us : list PriceUpdate) (ps : list Q) (st : t) :
  tracks s ps st -> tracks s (ps ++ pricesOf s us) (feed st us).
Proof.
  revert ps st. induction us as [|u us IH]; intros ps st Ht.
  - simpl. now rewrite app_nil_r.
  - rewrite feed_cons.
    change (u :: us) with ([u] ++ us). rewrite pricesOf_app, app_assoc.
    apply IH. now apply onUpdate_tracks.
Qed.

(** X1.  After any sequence of updates, from a new strategy, the history
    kept for a symbol holds the last hundred prices of that symbol, oldest
    first (all of them when there are fewer), so it never has more than a
    hundred entries; a symbol never updated has no history; and the
    reference price of a symbol is its first price. *)
Theorem history_is_last_hundred
    (cfg : StrategyConfig) (updates : list PriceUpdate) (s : string) :
  let st := feed (initialize create cfg) updates in
  priceHistory st !! s =
    match pricesOf s updates with
    | [] => None
    | ps => Some (lastN 100 ps)
    end /\
  initialPrices st !! s = head (pricesOf s updates) /\
  (forall history, priceHistory st !! s = Some history ->
     (length history <= 100)%nat /\
     length history = Nat.min 100 (length (pricesOf s updates)) /\
     last history = last (pricesOf s updates)).
Proof.
  intros st.
  destruct (feed_tracks s updates [] (initialize create cfg)) as [Hi Hh].
  { split; apply lookup_empty. }
  simpl app in Hi, Hh. fold st in Hi, Hh.
  split; [|split; [exact Hi|]].
  - rewrite Hh. destruct (pricesOf s updates); reflexivity.
  - intros history Hhist. rewrite Hh in Hhist.
    destruct (pricesOf s updates) as [|p ps] eqn:E; [discriminate|].
    injection Hhist as <-. unfold lastN. rewrite length_drop.
    split; [lia|]. split; [lia|].
    rewrite !last_lookup, length_drop, lookup_drop. f_equal.
    assert (0 < length (p :: ps))%nat by (simpl; lia). lia.
Qed.

End StrategyExtras.

(** ** The engine over a whole sequence of updates *)

Module EngineExtras.

Import Heap BacktestingEngine JSNumFacts HeapFacts EngineFacts.

Section AnyStrategy.

Context {S : Type} `{IStrategy S}.

Lemma strategy_processUpdate (st : state (S := S)) (update : PriceUpdate) :
  strategy (snd (processUpdate st update)) =
  snd (onUpdate (strategy (snd st)) update).
Proof. rewrite processUpdate_unfold. reflexivity. Qed.

Lemma processAll_account (priceData : list PriceUpdate) (st : state (S := S)) :
  exists new : list Trade,
    trades (snd (fold_left processUpdate priceData st)) = trades (snd st) ++ new /\
    (length new <= 5 * length priceData)%nat.
Proof.
  revert st. induction priceData as [|u us IH]; intros st; simpl fold_left.
  - exists []. split; [now rewrite app_nil_r|simpl; lia].
  - destruct (processUpdate_account st u) as (new1 & Ht1 & Hlen1 & _).
    destruct (IH (processUpdate st u)) as (new2 & Ht2 & Hlen2).
    exists (new1 ++ new2). split.
    + now rewrite Ht2, Ht1, app_assoc.
    + rewrite length_app. simpl length. lia.
Qed.

(** X5.  A run only appends to the trade log: the trades of its result are
    the trades the engine held before followed by at most five per update,
    so an engine that is run again keeps the trades of its earlier runs; on
    an empty sequence the log is returned as it was. *)
Theorem run_appends_trades
    (Math_sqrt : Q -> Q) (st : state (S := S)) (priceData : list PriceUpdate) :
  (exists new : list Trade,
     r_trades (snd (run Math_sqrt st priceData)) = trades (snd st) ++ new /\
     (length new <= 5 * length priceData)%nat) /\
  trades (snd (fst (run Math_sqrt st priceData))) =
    r_trades (snd (run Math_sqrt st priceData)) /\
  r_trades (snd (run Math_sqrt st [])) = trades (snd st) /\
  (forall more : list PriceUpdate,
   exists new : list Trade,
     r_trades (snd (run Math_sqrt (fst (run Math_sqrt st priceData)) more)) =
       r_trades (snd (run Math_sqrt st priceData)) ++ new /\
     (length new <= 5 * length more)%nat).
Proof.
  assert (G : forall (st0 : state (S := S)) data,
            exists new : list Trade,
              r_trades (snd (run Math_sqrt st0 data)) = trades (snd st0) ++ new /\
              (length new <= 5 * length data)%nat).
  { intros st0 data.
    destruct (run_unfold Math_sqrt st0 data) as (_ & Htr & _).
    rewrite Htr. unfold afterUpdates.
    apply (processAll_account data
             (replaceStrategy (initialize (strategy (snd st0)) fixedConfig) st0)). }
  assert (E : trades (snd (fst (run Math_sqrt st priceData))) =
              r_trades (snd (run Math_sqrt st priceData))).
  { destruct (run_unfold Math_sqrt st priceData) as (Hst & Htr & _).
    now rewrite Hst, Htr. }
  split; [apply G|]. split; [exact E|]. split.
  - destruct (run_unfold Math_sqrt st []) as (_ & Htr & _). rewrite Htr. reflexivity.
  - intros more. rewrite <- E. apply G.
Qed.

(** *** Value at the execution price *)





(** *** Maximum drawdown *)





(** *** The snapshot in the result *)

Lemma writes_portfolio_dom (p : loc) (refs : list loc) (h h' : heap) (p' : loc) :
  writes p refs h h' -> p' ∈ dom (portfolios h) -> p' ∈ dom (portfolios h').
Proof.
  induction 1 as [|h' c _ IH|h' l q _ IH Hl]; intros Hin.
  - exact Hin.
  - simpl. rewrite dom_insert_L. apply elem_of_union_r. now apply IH.
  - simpl. now apply IH.
Qed.

Lemma writes_other_portfolio (p : loc) (refs : list loc) (h h' : heap) (p' : loc) :
  writes p refs h h' -> p' <> p -> getPortfolio h' p' = getPortfolio h p'.
Proof.
  induction 1 as [|h' c _ IH|h' l q _ IH Hl]; intros Hne.
  - reflexivity.
  - rewrite getPortfolio_setCash_ne by congruence. now apply IH.
  - now apply IH.
Qed.

Lemma parse_allocated (h : heap) (v : JSON.PortfolioJSON) :
  snd (JSON.parse h v) ∈ dom (portfolios (fst (JSON.parse h v))).
Proof.
  unfold JSON.parse. destruct (JSON.parseAssets h (JSON.j_assets v)) as [h1 props].
  simpl. rewrite dom_insert_L. apply elem_of_union_l, elem_of_singleton. reflexivity.
Qed.

Lemma getPortfolio_newPortfolio (h : heap) (o : PortfolioObj) :
  getPortfolio (fst (newPortfolio h o)) (snd (newPortfolio h o)) = o.
Proof.
  unfold getPortfolio, newPortfolio. cbn [fst snd portfolios].
  apply lookup_total_insert_eq.
Qed.

Lemma getPortfolio_newPortfolio_ne (h : heap) (o : PortfolioObj) (p' : loc) :
  p' <> snd (newPortfolio h o) ->
  getPortfolio (fst (newPortfolio h o)) p' = getPortfolio h p'.
Proof.
  unfold getPortfolio, newPortfolio. cbn [fst snd portfolios]. intros Hne.
  apply lookup_total_insert_ne. congruence.
Qed.

Lemma dom_newPortfolio (h : heap) (o : PortfolioObj) :
  dom (portfolios (fst (newPortfolio h o))) =
  {[ snd (newPortfolio h o) ]} ∪ dom (portfolios h).
Proof. unfold newPortfolio. cbn [fst snd portfolios]. apply dom_insert_L. Qed.

Lemma newPortfolio_fresh (h : heap) (o : PortfolioObj) :
  snd (newPortfolio h o) ∉ dom (portfolios h).
Proof. unfold newPortfolio. cbn [snd]. apply is_fresh. Qed.

(** What a run does to the portfolios of the store, given that the engine's
    own is an object of it: the snapshot is a new object, different from the
    engine's portfolio, holding the engine's cash and [assets] reference at
    that time; every other portfolio object but the engine's is unchanged. *)
Lemma run_portfolios (Math_sqrt : Q -> Q) (st : state (S := S))
    (priceData : list PriceUpdate) :
  portfolio (snd st) ∈ dom (portfolios (fst st)) ->
  let out := run Math_sqrt st priceData in
  let snap := r_finalPortfolio (snd out) in
  let p := portfolio (snd st) in
  portfolio (snd (fst out)) = p /\
  (snap ∉ dom (portfolios (fst st))) /\
  snap <> p /\
  snap ∈ dom (portfolios (fst (fst out))) /\
  p ∈ dom (portfolios (fst (fst out))) /\
  getPortfolio (fst (fst out)) snap =
    getPortfolio (fst (afterUpdates st priceData)) p /\
  getPortfolio (fst (fst out)) snap = getPortfolio (fst (fst out)) p /\
  assets (getPortfolio (fst (fst out)) p) = assets (getPortfolio (fst st) p) /\
  (forall p', p' ∈ dom (portfolios (fst st)) -> p' <> p ->
     getPortfolio (fst (fst out)) p' = getPortfolio (fst st) p').
Proof.
  intros Hin out snap p.
  pose proof (run_unfold Math_sqrt st priceData) as Hrun. cbv zeta in Hrun.
  destruct Hrun as (Hst & _ & Hsnap & _).
  fold out in Hst, Hsnap. fold snap in Hsnap.
  destruct (changes_afterUpdates st priceData) as [Hw Hp].
  set (st3 := afterUpdates st priceData) in *. fold p in Hw, Hp.
  assert (Hin3 : p ∈ dom (portfolios (fst st3)))
    by (now apply (writes_portfolio_dom _ _ _ _ p Hw)).
  assert (Hfresh : snap ∉ dom (portfolios (fst st3)))
    by (rewrite Hsnap; apply newPortfolio_fresh).
  assert (Hne : snap <> p) by (intros E; apply Hfresh; now rewrite E).
  assert (Hout : fst (fst out) =
                 fst (newPortfolio (fst st3) (getPortfolio (fst st3) (portfolio (snd st3)))))
    by (now rewrite Hst).
  assert (Hread : forall p', p' <> snap ->
                    getPortfolio (fst (fst out)) p' = getPortfolio (fst st3) p').
  { intros p' Hp'. rewrite Hout. apply getPortfolio_newPortfolio_ne.
    now rewrite <- Hsnap. }
  assert (Hreads : getPortfolio (fst (fst out)) snap = getPortfolio (fst st3) p).
  { rewrite Hout, Hsnap, getPortfolio_newPortfolio. now rewrite Hp. }
  split; [now rewrite Hst|].
  split.
  { intros Hold. apply Hfresh.
    now apply (writes_portfolio_dom _ _ _ _ snap Hw). }
  split; [exact Hne|].
  split.
  { rewrite Hout, dom_newPortfolio, <- Hsnap.
    apply elem_of_union_l, elem_of_singleton. reflexivity. }
  split.
  { rewrite Hout, dom_newPortfolio. now apply elem_of_union_r. }
  split; [exact Hreads|].
  split; [rewrite Hreads, Hread by congruence; reflexivity|].
  split.
  { rewrite Hread by congruence. apply (writes_assets _ _ _ _ p Hw). }
  intros p' Hp' Hnp.
  rewrite Hread.
  - now apply (writes_other_portfolio _ _ _ _ p' Hw).
  - intros E. apply Hfresh. rewrite <- E.
    now apply (writes_portfolio_dom _ _ _ _ p' Hw).
Qed.

(** X9.  The [finalPortfolio] of a result is a shallow copy.  It is an
    object of its own with the cash of the end of the run, but its [assets]
    is the engine's own record: when the engine is run again, the first
    result's portfolio still shows the cash of the first run, and shows the
    holdings of the second. *)
Theorem final_portfolio_is_shallow
    (Math_sqrt : Q -> Q) (h0 : heap) (strat : S) (initialPortfolio : loc)
    (limits : RiskLimits) (priceData more : list PriceUpdate) :
  let st1 := constructor h0 strat initialPortfolio limits in
  let out1 := run Math_sqrt st1 priceData in
  let snap := r_finalPortfolio (snd out1) in
  let out2 := run Math_sqrt (fst out1) more in
  let engine := portfolio (snd (fst out2)) in
  snap <> engine /\
  cash (getPortfolio (fst (fst out1)) snap) = cashOf (fst out1) /\
  cash (getPortfolio (fst (fst out2)) snap) = cashOf (fst out1) /\
  assets (getPortfolio (fst (fst out2)) snap) =
    assets (getPortfolio (fst (fst out2)) engine) /\
  JSON.j_assets (JSON.stringify (fst (fst out2)) snap) =
    JSON.j_assets (JSON.stringify (fst (fst out2)) engine).
Proof.
  intros st1 out1 snap out2 engine.
  assert (Hin1 : portfolio (snd st1) ∈ dom (portfolios (fst st1))).
  { unfold st1, constructor.
    pose proof (parse_allocated h0 (JSON.stringify h0 initialPortfolio)) as Ha.
    now destruct (JSON.parse _ _). }
  destruct (run_portfolios Math_sqrt st1 priceData Hin1)
    as (Hp1 & _ & Hne1 & Hsnap1 & Hin2 & _ & Hsame1 & _).
  fold out1 in Hp1, Hne1, Hsnap1, Hin2, Hsame1. fold snap in Hne1, Hsnap1, Hsame1.
  rewrite <- Hp1 in Hin2.
  destruct (run_portfolios Math_sqrt (fst out1) more Hin2)
    as (Hp2 & _ & _ & _ & _ & _ & _ & Hassets2 & Hothers2).
  fold out2 in Hp2, Hassets2, Hothers2. fold engine in Hp2.
  assert (Hne : snap <> engine) by (rewrite Hp2, Hp1; exact Hne1).
  assert (Hkeep : getPortfolio (fst (fst out2)) snap =
                  getPortfolio (fst (fst out1)) snap).
  { apply Hothers2; [exact Hsnap1|]. rewrite Hp1. exact Hne1. }
  assert (Hassets : assets (getPortfolio (fst (fst out2)) snap) =
                    assets (getPortfolio (fst (fst out2)) engine)).
  { rewrite Hkeep, Hsame1, Hp2, Hassets2, Hp1. reflexivity. }
  split; [exact Hne|].
  split; [unfold cashOf; now rewrite Hsame1, Hp1|].
  split; [unfold cashOf; now rewrite Hkeep, Hsame1, Hp1|].
  split; [exact Hassets|].
  unfold JSON.stringify. cbn [JSON.j_assets]. now rewrite Hassets.
Qed.

End AnyStrategy.


(** The signal a drop/rise strategy gives for an update is for the update's
    symbol. *)
Lemma onUpdate_signal_symbol
    (s : DropRiseStrategy.t) (u : PriceUpdate) (sig : TradeSignal) :
  fst (DropRiseStrategy.onUpdate s u) = Some sig -> s_symbol sig = u_symbol u.
Proof.
  unfold DropRiseStrategy.onUpdate.
  destruct (DropRiseStrategy.initialPrices s !! u_symbol u); simpl; [|discriminate].
  unfold DropRiseStrategy.decide_signal.
  destruct (JSNum.leb _ _); [now intros [= <-]|].
  destruct (JSNum.leb _ _); [now intros [= <-]|discriminate].
Qed.

Lemma strategy_processAll
    (priceData : list PriceUpdate) (st : state (S := DropRiseStrategy.t)) :
  strategy (snd (fold_left processUpdate priceData st)) =
  DropRiseStrategy.feed (strategy (snd st)) priceData.
Proof.
  revert st. induction priceData as [|u us IH]; intros st; [reflexivity|].
  simpl fold_left. rewrite IH, strategy_processUpdate. reflexivity.
Qed.

(** X2.  The strategy inside the engine sees the updates exactly as a
    strategy fed alone would: what is traded has no influence on the
    signals.  [run] overwrites the configuration but keeps what the strategy
    had observed before, and it ends by clearing the observations: after a
    run the strategy is a new strategy with the fixed configuration,
    whatever it was and whatever it was fed. *)
Theorem run_resets_strategy
    (Math_sqrt : Q -> Q) (st : state (S := DropRiseStrategy.t))
    (priceData : list PriceUpdate) :
  strategy (snd (fold_left processUpdate priceData st)) =
    DropRiseStrategy.feed (strategy (snd st)) priceData /\
  strategy (snd (afterUpdates st priceData)) =
    DropRiseStrategy.onEnd
      (DropRiseStrategy.feed
         (DropRiseStrategy.initialize (strategy (snd st)) fixedConfig) priceData) /\
  strategy (snd (fst (run Math_sqrt st priceData))) =
    DropRiseStrategy.initialize DropRiseStrategy.create fixedConfig.
Proof.
  assert (A : strategy (snd (afterUpdates st priceData)) =
              DropRiseStrategy.onEnd
                (DropRiseStrategy.feed
                   (DropRiseStrategy.initialize (strategy (snd st)) fixedConfig)
                   priceData)).
  { unfold afterUpdates.
    change (strategy (snd (replaceStrategy ?s ?x))) with s.
    rewrite strategy_processAll. reflexivity. }
  split; [apply strategy_processAll|]. split; [exact A|].
  destruct (run_unfold Math_sqrt st priceData) as (Hst & _).
  rewrite Hst. cbn [fst snd]. rewrite A.
  unfold DropRiseStrategy.onEnd. rewrite DropRiseFacts.feed_config. reflexivity.
Qed.

(** Updates of symbols under which the portfolio's assets have nothing,
    of their own or inherited, leave the store and the trade log as they
    are. *)
Lemma processUpdate_missing (st : state (S := DropRiseStrategy.t)) (u : PriceUpdate) :
  assetRef (fst st) (snd st) (u_symbol u) = None ->
  inherited (u_symbol u) = false ->
  processUpdate st u =
  replaceStrategy (snd (DropRiseStrategy.onUpdate (strategy (snd st)) u)) st.
Proof.
  intros Hnone Hown. rewrite processUpdate_unfold. cbn [onUpdate DropRise_IStrategy].
  destruct (fst (DropRiseStrategy.onUpdate (strategy (snd st)) u)) as [sig|] eqn:E;
    [|reflexivity].
  apply onUpdate_signal_symbol in E.
  destruct st as [h e]. cbn [fst snd] in *.
  unfold executeBuy, executeSell. rewrite E, Hnone, Hown.
  now destruct (s_action sig).
Qed.

(** X3.  Updates of symbols under which [assets[symbol]] is [undefined]
    never trade: when the symbol is no key of the engine's portfolio and no
    name inherited from [Object.prototype], the store and the trade log
    after the updates are those before, whatever signals the strategy
    gives. *)
Theorem missing_symbols_never_trade
    (Math_sqrt : Q -> Q) (st : state (S := DropRiseStrategy.t))
    (priceData : list PriceUpdate) :
  Forall (fun u => assetRef (fst st) (snd st) (u_symbol u) = None /\
                   inherited (u_symbol u) = false) priceData ->
  fst (fold_left processUpdate priceData st) = fst st /\
  trades (snd (fold_left processUpdate priceData st)) = trades (snd st) /\
  fst (afterUpdates st priceData) = fst st /\
  r_trades (snd (run Math_sqrt st priceData)) = trades (snd st).
Proof.
  intros Hall.
  assert (G : forall st0 : state (S := DropRiseStrategy.t),
            Forall (fun u => assetRef (fst st0) (snd st0) (u_symbol u) = None /\
                             inherited (u_symbol u) = false)
                   priceData ->
            fst (fold_left processUpdate priceData st0) = fst st0 /\
            trades (snd (fold_left processUpdate priceData st0)) = trades (snd st0)).
  { clear st Hall. induction priceData as [|u us IH]; intros st0 Hall;
      [split; reflexivity|].
    inversion Hall as [|? ? [Hu Hown] Hus]; subst. simpl fold_left.
    rewrite (processUpdate_missing st0 u Hu Hown).
    destruct (IH (replaceStrategy
                    (snd (DropRiseStrategy.onUpdate (strategy (snd st0)) u)) st0))
      as [Hh Ht]; [exact Hus|].
    split; [exact Hh|exact Ht]. }
  destruct (G st Hall) as [Hh Ht].
  destruct (G (replaceStrategy (initialize (strategy (snd st)) fixedConfig) st) Hall)
    as [Hh' Ht'].
  split; [exact Hh|]. split; [exact Ht|].
  split; [exact Hh'|].
  destruct (run_unfold Math_sqrt st priceData) as (_ & Htr & _).
  rewrite Htr. exact Ht'.
Qed.

Lemma missing_symbols_never_trade_witness :
  let st := constructor Scenario.callerStore DropRiseStrategy.create 1%positive
              Scenario.backtestLimits in
  let data := [mkPriceUpdate "BTCUSDT" 45000 0; mkPriceUpdate "BTCUSDT" 40000 1] in
  fst (fold_left processUpdate data st) = fst st /\
  trades (snd (fold_left processUpdate data st)) = trades (snd st) /\
  fst (afterUpdates st data) = fst st /\
  r_trades (snd (run Scenario.sqrtFloor st data)) = trades (snd st).
Proof.
  intros st data.
  apply (missing_symbols_never_trade Scenario.sqrtFloor st data).
  repeat constructor.
Defined.

End EngineExtras.

(** ** The exchange client *)

Module ClientFacts.

Import JSNumFacts BinanceClient.

Lemma length_append (s t : string) :
  String.length (s +:+ t) = (String.length s + String.length t)%nat.
Proof. induction s as [|c s IH]; simpl; [reflexivity|now rewrite IH]. Qed.

Lemma append_inv_tail (s1 s2 t : string) : s1 +:+ t = s2 +:+ t -> s1 = s2.
Proof.
  revert s2. induction s1 as [|c s1 IH]; intros [|d s2] E.
  - reflexivity.
  - apply (f_equal String.length) in E. rewrite !length_append in E.
    simpl in E. lia.
  - apply (f_equal String.length) in E. rewrite !length_append in E.
    simpl in E. lia.
  - change (String c (s1 +:+ t) = String d (s2 +:+ t)) in E.
    injection E as -> E. f_equal. now apply IH.
Qed.

Lemma getProp_setProp (props : list (string * Asset)) (key : string) (value : Asset) :
  getProp (setProp props key value) key = Some value.
Proof.
  induction props as [|[k x] props IH]; simpl.
  - now rewrite decide_True.
  - destruct (decide (k = key)) as [E|E]; simpl.
    + now rewrite decide_True.
    + now rewrite decide_False.
Qed.

Lemma getProp_setProp_ne (props : list (string * Asset)) (key key' : string)
    (value : Asset) :
  key' <> key -> getProp (setProp props key value) key' = getProp props key'.
Proof.
  intros Hne. induction props as [|[k x] props IH]; simpl.
  - rewrite decide_False by congruence. reflexivity.
  - destruct (decide (k = key)) as [E|E]; simpl.
    + subst k. rewrite !decide_False by congruence. reflexivity.
    + destruct (decide (k = key')); [reflexivity|exact IH].
Qed.

Lemma In_setProp (props : list (string * Asset)) (key : string) (value : Asset)
    (k : string) (a : Asset) :
  In (k, a) (setProp props key value) -> In (k, a) props \/ (k, a) = (key, value).
Proof.
  induction props as [|[k' x] props IH]; simpl.
  - intros [E|[]]. right. now symmetry.
  - destruct (decide (k' = key)) as [E|E]; simpl.
    + intros [H|H]; [right; subst k'; now symmetry|left; now right].
    + intros [H|H]; [left; now left|].
      destruct (IH H) as [H'|H']; [left; now right|now right].
Qed.

Lemma keys_setProp (props : list (string * Asset)) (key : string) (value : Asset) :
  NoDup (map fst props) -> NoDup (map fst (setProp props key value)).
Proof.
  assert (Hkeys : forall k, In k (map fst (setProp props key value)) ->
                            In k (map fst props) \/ k = key).
  { intros k Hk. apply in_map_iff in Hk as [[k' a] [<- Hin]].
    apply In_setProp in Hin as [Hin|[= -> _]]; [|now right].
    left. apply in_map_iff. now exists (k', a). }
  revert Hkeys. induction props as [|[k x] props IH]; simpl; intros Hkeys Hnd.
  - constructor; [apply not_elem_of_nil|constructor].
  - apply NoDup_cons in Hnd as [Hk Hnd].
    destruct (decide (k = key)) as [E|E]; simpl in *.
    + now apply NoDup_cons.
    + apply NoDup_cons. split.
      * intros Hin. apply list_elem_of_In in Hin. apply in_map_iff in Hin as [[k' a] [Ek Hin]].
        simpl in Ek. subst k'.
        apply In_setProp in Hin as [Hin|[= -> _]]; [|congruence].
        apply Hk. apply list_elem_of_In. apply in_map_iff. now exists (k, a).
      * apply IH; [|exact Hnd].
        intros k' Hk'. apply in_map_iff in Hk' as [[k'' a] [<- Hin]].
        apply In_setProp in Hin as [Hin|[= -> _]]; [|now right].
        left. apply in_map_iff. now exists (k'', a).
Qed.

Lemma getProp_In (props : list (string * Asset)) (key : string) (a : Asset) :
  getProp props key = Some a -> In (key, a) props.
Proof.
  induction props as [|[k x] props IH]; simpl; [discriminate|].
  destruct (decide (k = key)) as [->|E].
  - intros [= ->]. now left.
  - intros H. right. now apply IH.
Qed.

Lemma Qsum_app (l1 l2 : list Q) : Qsum (l1 ++ l2) == Qsum l1 + Qsum l2.
Proof. induction l1 as [|x l1 IH]; simpl; [ring|rewrite IH; ring]. Qed.

Lemma loop_snoc getPrice (balances : list Balance) (b : Balance) :
  fold_left (accountStep getPrice) (imap pair (balances ++ [b])) (0, []) =
  accountStep getPrice
    (fold_left (accountStep getPrice) (imap pair balances) (0, []))
    (length balances, b).
Proof.
  rewrite imap_app, fold_left_app. simpl. now rewrite Nat.add_0_r.
Qed.

(** The state of the loop of [getAccount] after any list of balances. *)
Lemma accountLoop_invariant (balances : list Balance)
    (getPrice : nat -> string -> option Q) (cash : Q) (assets : list (string * Asset)) :
  fold_left (accountStep getPrice) (imap pair balances) (0, []) = (cash, assets) ->
  cash == Qsum (map total
                  (filter (fun b => b_asset b = "USDT" \/ b_asset b = "BUSD") balances)) /\
  NoDup (map fst assets) /\
  (forall k a, In (k, a) assets ->
     exists i b p,
       balances !! i = Some b /\
       b_asset b <> "USDT" /\ b_asset b <> "BUSD" /\ 0 < total b /\
       k = b_asset b +:+ "USDT" /\ getPrice i k = Some p /\
       a = mkAsset k p (total b)) /\
  (forall i b p,
     balances !! i = Some b ->
     b_asset b <> "USDT" -> b_asset b <> "BUSD" -> 0 < total b ->
     getPrice i (b_asset b +:+ "USDT") = Some p ->
     is_Some (getProp assets (b_asset b +:+ "USDT"))).
Proof.
  revert cash assets.
  induction balances as [|b balances IH] using rev_ind; intros cash assets E.
  - injection E as <- <-. split; [reflexivity|]. split; [constructor|].
    split; [intros k a []|]. intros i b p Hi. discriminate.
  - rewrite loop_snoc in E.
    destruct (fold_left (accountStep getPrice) (imap pair balances) (0, []))
      as [cash0 assets0].
    destruct (IH cash0 assets0 eq_refl) as (Hc & Hnd & Hsound & Hcomplete).
    assert (Hold : forall k a,
              (exists i b0 p,
                 balances !! i = Some b0 /\
                 b_asset b0 <> "USDT" /\ b_asset b0 <> "BUSD" /\ 0 < total b0 /\
                 k = b_asset b0 +:+ "USDT" /\ getPrice i k = Some p /\
                 a = mkAsset k p (total b0)) ->
              exists i b0 p,
                (balances ++ [b]) !! i = Some b0 /\
                b_asset b0 <> "USDT" /\ b_asset b0 <> "BUSD" /\ 0 < total b0 /\
                k = b_asset b0 +:+ "USDT" /\ getPrice i k = Some p /\
                a = mkAsset k p (total b0)).
    { intros k a (i & b0 & p & Hi & Hrest). exists i, b0, p.
      split; [|exact Hrest]. now apply lookup_app_l_Some. }
    assert (Hlast : (balances ++ [b]) !! length balances = Some b).
    { rewrite lookup_app_r by lia. now rewrite Nat.sub_diag. }
    assert (Hsplit : forall i b0, (balances ++ [b]) !! i = Some b0 ->
               balances !! i = Some b0 \/ (i = length balances /\ b0 = b)).
    { intros i b0 Hi. apply lookup_app_Some in Hi as [Hi|[Hle Hi]]; [now left|].
      right. destruct (i - length balances)%nat eqn:D; simpl in Hi; [|discriminate].
      injection Hi as ->. split; [lia|reflexivity]. }
    unfold accountStep in E.
    destruct (decide (b_asset b = "USDT" \/ b_asset b = "BUSD")) as [Hs|Hs].
    + injection E as <- <-.
      split.
      { rewrite filter_app, map_app, Qsum_app, Hc.
        rewrite filter_cons_True by exact Hs. simpl. ring. }
      split; [exact Hnd|].
      split; [intros k a Hin; apply Hold, Hsound, Hin|].
      intros i b0 p Hi H1 H2 H3 H4.
      destruct (Hsplit i b0 Hi) as [Hi'|[-> ->]].
      * now apply (Hcomplete i b0 p).
      * exfalso. destruct Hs; contradiction.
    + assert (Hcash : cash0 == Qsum (map total
                (filter (fun b => b_asset b = "USDT" \/ b_asset b = "BUSD")
                        (balances ++ [b])))).
      { rewrite filter_app, map_app, Qsum_app, Hc.
        rewrite filter_cons_False by exact Hs. simpl. ring. }
      assert (Hn1 : b_asset b <> "USDT") by tauto.
      assert (Hn2 : b_asset b <> "BUSD") by tauto.
      destruct (Qlt_bool 0 (total b)) eqn:Hpos.
      * apply Qlt_bool_true in Hpos. cbv zeta in E.
        destruct (getPrice (length balances) (b_asset b +:+ "USDT"))
          as [price|] eqn:Hprice.
        -- injection E as <- <-.
           split; [exact Hcash|].
           split; [now apply keys_setProp|].
           split.
           { intros k a Hin. apply In_setProp in Hin as [Hin|[= -> ->]].
             - apply Hold, Hsound, Hin.
             - exists (length balances), b, price. repeat split; assumption. }
           intros i b0 p Hi H1 H2 H3 H4.
           destruct (decide (b_asset b0 +:+ "USDT" = b_asset b +:+ "USDT")) as [Ek|Ek].
           ++ rewrite Ek, getProp_setProp. eauto.
           ++ rewrite getProp_setProp_ne by exact Ek.
              destruct (Hsplit i b0 Hi) as [Hi'|[-> ->]]; [|congruence].
              now apply (Hcomplete i b0 p).
        -- injection E as <- <-.
           split; [exact Hcash|]. split; [exact Hnd|].
           split; [intros k a Hin; apply Hold, Hsound, Hin|].
           intros i b0 p Hi H1 H2 H3 H4.
           destruct (Hsplit i b0 Hi) as [Hi'|[-> ->]]; [|congruence].
           now apply (Hcomplete i b0 p).
      * injection E as <- <-.
        split; [exact Hcash|]. split; [exact Hnd|].
        split; [intros k a Hin; apply Hold, Hsound, Hin|].
        intros i b0 p Hi H1 H2 H3 H4.
        destruct (Hsplit i b0 Hi) as [Hi'|[-> ->]].
        -- now apply (Hcomplete i b0 p).
        -- exfalso. apply Qlt_bool_false in Hpos. lra.
Qed.

(** X14.  The portfolio [getAccount] builds from the exchange's balances.
    Its cash is the sum of free and locked over the USDT and BUSD balances,
    whatever their sign.  Its assets have distinct keys; each one stands for
    a balance of another asset with a positive total whose price request
    succeeded, under the key and symbol [asset + "USDT"], with that price
    and that total as holdings; and every such balance has its key in the
    object (a later balance of the same asset replaces an earlier one, and
    a failed price request only leaves its own balance out).  The two cash
    currencies are never assets. *)
Theorem getAccount_shape
    (balances : list Balance) (getPrice : nat -> string -> option Q) :
  exists (cash : Q) (assets : list (string * Asset)),
    getAccount (mkExchange (Some balances) getPrice) = Some (cash, assets) /\
    cash == Qsum (map total
                    (filter (fun b => b_asset b = "USDT" \/ b_asset b = "BUSD") balances)) /\
    NoDup (map fst assets) /\
    (forall k a, In (k, a) assets ->
       exists i b p,
         balances !! i = Some b /\
         b_asset b <> "USDT" /\ b_asset b <> "BUSD" /\ 0 < total b /\
         k = b_asset b +:+ "USDT" /\ getPrice i k = Some p /\
         a = mkAsset k p (total b)) /\
    (forall i b p,
       balances !! i = Some b ->
       b_asset b <> "USDT" -> b_asset b <> "BUSD" -> 0 < total b ->
       getPrice i (b_asset b +:+ "USDT") = Some p ->
       is_Some (getProp assets (b_asset b +:+ "USDT"))) /\
    getProp assets "USDTUSDT" = None /\
    getProp assets "BUSDUSDT" = None.
Proof.
  unfold getAccount. cbn [accountReply priceReply].
  destruct (fold_left (accountStep getPrice) (imap pair balances) (0, []))
    as [cash assets] eqn:E.
  exists cash, assets. split; [reflexivity|].
  destruct (accountLoop_invariant balances getPrice cash assets E)
    as (Hc & Hnd & Hsound & Hcomplete).
  split; [exact Hc|]. split; [exact Hnd|]. split; [exact Hsound|].
  split; [exact Hcomplete|].
  split.
  - destruct (getProp assets "USDTUSDT") as [a|] eqn:G; [|reflexivity].
    apply getProp_In, Hsound in G as (i & b & p & _ & H1 & _ & _ & Hk & _).
    exfalso. apply H1. apply (append_inv_tail _ "USDT" "USDT"). now symmetry.
  - destruct (getProp assets "BUSDUSDT") as [a|] eqn:G; [|reflexivity].
    apply getProp_In, Hsound in G as (i & b & p & _ & _ & H2 & _ & Hk & _).
    exfalso. apply H2. apply (append_inv_tail _ "BUSD" "USDT"). now symmetry.
Qed.

End ClientFacts.

(** ** The live bot *)

Module BotFacts.

Import Heap JSNumFacts HeapFacts EngineExtras.

Section Bot.

Context {S : Type}.

Implicit Types (st : TradingBot.state (S := S)).








Lemma botOf_fillBuy symbol asset sliceAmount q st :
  TradingBot.botOf (TradingBot.fillBuy symbol asset sliceAmount q st) =
  TradingBot.botOf st.
Proof. destruct st as [[h b] placed]. reflexivity. Qed.

Lemma botOf_fillSell symbol price asset q st :
  TradingBot.botOf (TradingBot.fillSell symbol price asset q st) =
  TradingBot.botOf st.
Proof. destruct st as [[h b] placed]. reflexivity. Qed.

(** *** The portfolio and the accepted orders *)




(** *** Live SELL and the cash headroom *)



(** *** The copy handed out by [getPortfolio] *)

Lemma writes_fillBuy symbol asset sliceAmount q (st : TradingBot.state (S := S)) :
  writes (TradingBot.portfolio (TradingBot.botOf st)) [asset]
         (TradingBot.storeOf st)
         (TradingBot.storeOf (TradingBot.fillBuy symbol asset sliceAmount q st)).
Proof.
  destruct st as [[h b] placed]. cbn.
  apply writes_holdings; [|now left]. apply writes_cash. constructor.
Qed.

Lemma writes_fillSell symbol price asset q (st : TradingBot.state (S := S)) :
  writes (TradingBot.portfolio (TradingBot.botOf st)) [asset]
         (TradingBot.storeOf st)
         (TradingBot.storeOf (TradingBot.fillSell symbol price asset q st)).
Proof.
  destruct st as [[h b] placed]. cbn.
  apply writes_cash. apply writes_holdings; [constructor|now left].
Qed.

Lemma writes_buySlices (ex : TradingBot.Exchange) (symbol : string) (price : Q)
    (asset : loc) (sliceAmount : Q) (idxs : list nat) st :
  writes (TradingBot.portfolio (TradingBot.botOf st)) [asset]
         (TradingBot.storeOf st)
         (TradingBot.storeOf
            (TradingBot.buySlices ex symbol price asset sliceAmount idxs st)) /\
  TradingBot.botOf (TradingBot.buySlices ex symbol price asset sliceAmount idxs st) =
  TradingBot.botOf st.
Proof.
  revert st. induction idxs as [|i rest IH]; intros st.
  - split; [constructor|reflexivity].
  - cbn [TradingBot.buySlices].
    destruct (Qlt_bool _ _); [split; [constructor|reflexivity]|].
    destruct (TradingBot.validateTrade _ _ _ _ _); [|apply IH].
    destruct (JSNum.div _ _) as [q| | |]; try (split; [constructor|reflexivity]).
    destruct (TradingBot.orderAccepted _ _); [|split; [constructor|reflexivity]].
    destruct (IH (TradingBot.fillBuy symbol asset sliceAmount q st)) as [Hw Hb].
    rewrite botOf_fillBuy in Hw, Hb. split; [|exact Hb].
    eapply writes_trans; [apply writes_fillBuy|exact Hw].
Qed.

Lemma writes_sellSlices (ex : TradingBot.Exchange) (symbol : string) (price : Q)
    (asset : loc) (sliceQuantity : Q) (idxs : list nat) st :
  writes (TradingBot.portfolio (TradingBot.botOf st)) [asset]
         (TradingBot.storeOf st)
         (TradingBot.storeOf
            (TradingBot.sellSlices ex symbol price asset sliceQuantity idxs st)) /\
  TradingBot.botOf (TradingBot.sellSlices ex symbol price asset sliceQuantity idxs st) =
  TradingBot.botOf st.
Proof.
  revert st. induction idxs as [|i rest IH]; intros st.
  - split; [constructor|reflexivity].
  - cbn [TradingBot.sellSlices].
    destruct (Qlt_bool 0 _ && _); [|apply IH].
    destruct (TradingBot.orderAccepted _ _); [|split; [constructor|reflexivity]].
    destruct (IH (TradingBot.fillSell symbol price
                    asset (Qmin sliceQuantity (TradingBot.holdingsOf asset st)) st))
      as [Hw Hb].
    rewrite botOf_fillSell in Hw, Hb. split; [|exact Hb].
    eapply writes_trans; [apply writes_fillSell|exact Hw].
Qed.

Lemma writes_buySlicesInherited (ex : TradingBot.Exchange) (symbol : string)
    (price : Q) (sliceAmount : Q) (idxs : list nat) st :
  writes (TradingBot.portfolio (TradingBot.botOf st)) []
         (TradingBot.storeOf st)
         (TradingBot.storeOf
            (TradingBot.buySlicesInherited ex symbol price sliceAmount idxs st)) /\
  TradingBot.botOf (TradingBot.buySlicesInherited ex symbol price sliceAmount idxs st) =
  TradingBot.botOf st.
Proof.
  revert st. induction idxs as [|i rest IH]; intros st.
  - split; [constructor|reflexivity].
  - cbn [TradingBot.buySlicesInherited].
    destruct (Qlt_bool _ _); [split; [constructor|reflexivity]|].
    destruct (TradingBot.validateTrade _ _ _ _ _); [|apply IH].
    destruct (JSNum.div _ _) as [q| | |]; try (split; [constructor|reflexivity]).
    destruct (TradingBot.orderAccepted _ _); [|split; [constructor|reflexivity]].
    destruct (IH (TradingBot.fillBuyInherited symbol sliceAmount q st)) as [Hw Hb].
    destruct st as [[h b] placed].
    change (TradingBot.botOf (TradingBot.fillBuyInherited symbol sliceAmount q
                                (h, b, placed))) with b in Hw, Hb.
    split; [|exact Hb].
    eapply writes_trans; [|exact Hw].
    apply writes_cash. constructor.
Qed.

(** Executing a signal writes the cash of the bot's portfolio and the
    holdings of the signal's asset, and nothing else. *)
Lemma writes_executeSignal (ex : TradingBot.Exchange) (signal : TradeSignal) st :
  exists refs : list loc,
    writes (TradingBot.portfolio (TradingBot.botOf st)) refs
           (TradingBot.storeOf st)
           (TradingBot.storeOf (TradingBot.executeSignal ex signal st)) /\
    TradingBot.botOf (TradingBot.executeSignal ex signal st) = TradingBot.botOf st.
Proof.
  unfold TradingBot.executeSignal. cbv zeta.
  destruct (lookupProp _ _) as [asset|].
  2: { exists []. destruct (s_action signal); [|split; constructor].
       destruct (inherited (s_symbol signal)); [|split; constructor].
       destruct (TradingBot.priceReply ex) as [price|]; [|split; constructor].
       apply writes_buySlicesInherited. }
  exists [asset].
  destruct (s_action signal).
  - destruct (TradingBot.priceReply ex) as [price|]; [|split; constructor].
    apply writes_buySlices.
  - destruct (Qlt_bool 0 _); [|split; constructor].
    destruct (TradingBot.priceReply ex) as [price|]; [|split; constructor].
    apply writes_sellSlices.
Qed.

(** X13.  The portfolio handed out by the bot's [getPortfolio] is a shallow
    copy.  It is an object of its own that keeps the cash of the moment of
    the call, but its [assets] is the bot's own record: after the bot has
    executed a signal, the copy still shows the old cash, and shows the
    holdings as the execution left them. *)
Theorem live_portfolio_copy_is_shallow
    (ex : TradingBot.Exchange) (signal : TradeSignal) st :
  TradingBot.portfolio (TradingBot.botOf st) ∈ dom (portfolios (TradingBot.storeOf st)) ->
  let st1 := fst (TradingBot.getPortfolioCopy st) in
  let copy := snd (TradingBot.getPortfolioCopy st) in
  let st2 := TradingBot.executeSignal ex signal st1 in
  copy <> TradingBot.portfolio (TradingBot.botOf st2) /\
  cash (getPortfolio (TradingBot.storeOf st2) copy) = TradingBot.cashOf st /\
  assets (getPortfolio (TradingBot.storeOf st2) copy) =
    assets (getPortfolio (TradingBot.storeOf st2)
              (TradingBot.portfolio (TradingBot.botOf st2))) /\
  JSON.j_assets (JSON.stringify (TradingBot.storeOf st2) copy) =
    JSON.j_assets (JSON.stringify (TradingBot.storeOf st2)
                     (TradingBot.portfolio (TradingBot.botOf st2))).
Proof.
  intros Hin st1 copy st2.
  destruct st as [[h b] placed].
  change (TradingBot.portfolio b ∈ dom (portfolios h)) in Hin.
  set (o := getPortfolio h (TradingBot.portfolio b)).
  assert (Est1 : st1 = (fst (newPortfolio h o), b, placed)).
  { reflexivity. }
  assert (Ecopy : copy = snd (newPortfolio h o)).
  { reflexivity. }
  assert (Hne : copy <> TradingBot.portfolio b).
  { intros E. apply (newPortfolio_fresh h o). rewrite <- Ecopy, E. exact Hin. }
  destruct (writes_executeSignal ex signal st1) as (refs & Hw & Hb).
  fold st2 in Hw, Hb. rewrite Est1 in Hw, Hb.
  change (TradingBot.botOf (fst (newPortfolio h o), b, placed)) with b in Hw, Hb.
  change (TradingBot.storeOf (fst (newPortfolio h o), b, placed))
    with (fst (newPortfolio h o)) in Hw.
  rewrite Hb.
  assert (Hcopy : getPortfolio (TradingBot.storeOf st2) copy = o).
  { rewrite (writes_other_portfolio _ _ _ _ copy Hw Hne).
    rewrite Ecopy. apply getPortfolio_newPortfolio. }
  assert (Hassets : assets (getPortfolio (TradingBot.storeOf st2) copy) =
                    assets (getPortfolio (TradingBot.storeOf st2)
                              (TradingBot.portfolio b))).
  { rewrite Hcopy, (writes_assets _ _ _ _ (TradingBot.portfolio b) Hw).
    rewrite getPortfolio_newPortfolio_ne by (rewrite <- Ecopy; congruence).
    reflexivity. }
  split; [exact Hne|].
  split; [now rewrite Hcopy|].
  split; [exact Hassets|].
  unfold JSON.stringify. cbn [JSON.j_assets]. now rewrite Hassets.
Qed.

End Bot.

Lemma live_portfolio_copy_is_shallow_witness :
  let st := Scenario.liveBuyState in
  let st1 := fst (TradingBot.getPortfolioCopy st) in
  let copy := snd (TradingBot.getPortfolioCopy st) in
  let st2 := TradingBot.executeSignal (Scenario.accepting 210) Scenario.buySignal st1 in
  copy <> TradingBot.portfolio (TradingBot.botOf st2) /\
  cash (getPortfolio (TradingBot.storeOf st2) copy) = TradingBot.cashOf st /\
  assets (getPortfolio (TradingBot.storeOf st2) copy) =
    assets (getPortfolio (TradingBot.storeOf st2)
              (TradingBot.portfolio (TradingBot.botOf st2))) /\
  JSON.j_assets (JSON.stringify (TradingBot.storeOf st2) copy) =
    JSON.j_assets (JSON.stringify (TradingBot.storeOf st2)
                     (TradingBot.portfolio (TradingBot.botOf st2))).
Proof.
  intros st.
  apply (live_portfolio_copy_is_shallow (Scenario.accepting 210) Scenario.buySignal
           Scenario.liveBuyState).
  apply elem_of_dom. exists (mkPortfolio 1000 1%positive). reflexivity.
Defined.


(** *** Start-up *)

Lemma lookupProp_stringify (h : heap) (props : list (string * loc)) (key : string) :
  BinanceClient.getProp (map (fun kl => (fst kl, getAsset h (snd kl))) props) key = None ->
  lookupProp props key = None.
Proof.
  induction props as [|[k l] props IH]; simpl; [reflexivity|].
  destruct (decide (k = key)); [discriminate|exact IH].
Qed.

(** X15.  The bot trades only what the account held when it started,
    names inherited from [Object.prototype] apart.  [initialize] takes the
    portfolio from [getAccount], and nothing adds an asset to it afterwards;
    [executeSignal] does nothing for a symbol under which the assets have
    nothing.  So when the account has no balance with a positive total and a
    successful price request for the signal's symbol, and the symbol is no
    inherited name, the bot starts with the account's cash and ignores the
    signal, BUY or SELL, whatever the exchange would answer. *)
Theorem live_ignores_unheld_symbols {S : Type} `{IStrategy S}
    (balances : list Balance) (getPrice : nat -> string -> option Q)
    (st : TradingBot.state (S := S)) (ex : TradingBot.Exchange) (signal : TradeSignal) :
  (forall i b,
     balances !! i = Some b -> b_asset b +:+ "USDT" = s_symbol signal ->
     BinanceClient.total b <= 0 \/ getPrice i (s_symbol signal) = None \/
     b_asset b = "USDT" \/ b_asset b = "BUSD") ->
  inherited (s_symbol signal) = false ->
  exists st' : TradingBot.state (S := S),
    TradingBot.initialize (BinanceClient.mkExchange (Some balances) getPrice) st =
      Some st' /\
    TradingBot.cashOf st' ==
      Qsum (map BinanceClient.total
              (filter (fun b => b_asset b = "USDT" \/ b_asset b = "BUSD") balances)) /\
    TradingBot.placedOf st' = TradingBot.placedOf st /\
    TradingBot.executeSignal ex signal st' = st'.
Proof.
  intros Hnone Hown. unfold TradingBot.initialize, BinanceClient.getAccount.
  cbn [BinanceClient.accountReply BinanceClient.priceReply].
  destruct (fold_left _ _ _) as [cash0 assets0] eqn:E.
  destruct (ClientFacts.accountLoop_invariant balances getPrice cash0 assets0 E)
    as (Hc & _ & Hsound & _).
  assert (Hget : BinanceClient.getProp assets0 (s_symbol signal) = None).
  { destruct (BinanceClient.getProp assets0 (s_symbol signal)) as [a|] eqn:G;
      [|reflexivity].
    apply ClientFacts.getProp_In, Hsound in G
      as (i & b & p & Hi & H1 & H2 & Hpos & Hk & Hp & _).
    destruct (Hnone i b Hi (eq_sym Hk)) as [Hle|[Hf|[Hs|Hs]]].
    - lra.
    - congruence.
    - contradiction.
    - contradiction. }
  pose proof (parse_spec (TradingBot.storeOf st) (TradingBot.storeOf st)
                (JSON.mkJSON cash0 assets0) (preserved_refl _)) as P.
  cbv zeta in P. destruct P as (_ & _ & _ & _ & Hs).
  destruct (JSON.parse (TradingBot.storeOf st) (JSON.mkJSON cash0 assets0))
    as [h' p]. cbn [fst snd] in Hs.
  eexists. split; [reflexivity|].
  split.
  { apply (f_equal JSON.j_cash) in Hs. cbn [JSON.j_cash JSON.stringify] in Hs.
    change (cash (getPortfolio h' p) ==
            Qsum (map BinanceClient.total
                    (filter (fun b => b_asset b = "USDT" \/ b_asset b = "BUSD")
                            balances))).
    rewrite Hs. exact Hc. }
  split; [reflexivity|].
  apply (f_equal JSON.j_assets) in Hs. cbn [JSON.j_assets JSON.stringify] in Hs.
  unfold TradingBot.executeSignal. cbv zeta.
  cbn [TradingBot.storeOf TradingBot.botOf TradingBot.portfolio fst snd].
  rewrite (lookupProp_stringify h'); [|rewrite Hs; exact Hget].
  rewrite Hown. destruct (s_action signal); reflexivity.
Qed.

Lemma live_ignores_unheld_symbols_witness :
  exists st' : TradingBot.state,
    TradingBot.initialize Scenario.cashOnly Scenario.newBot = Some st' /\
    TradingBot.cashOf st' ==
      Qsum (map BinanceClient.total
              (filter (fun b => b_asset b = "USDT" \/ b_asset b = "BUSD")
                      [mkBalance "USDT" 1000 0; mkBalance "ETH" 0 0])) /\
    TradingBot.placedOf st' = TradingBot.placedOf Scenario.newBot /\
    TradingBot.executeSignal (Scenario.accepting 210) Scenario.buySignal st' = st'.
Proof.
  apply (live_ignores_unheld_symbols
           [mkBalance "USDT" 1000 0; mkBalance "ETH" 0 0] (fun _ _ => Some 210)
           Scenario.newBot (Scenario.accepting 210) Scenario.buySignal).
  - intros [|[|i]] b Hi Hs.
    + injection Hi as <-. right. right. left. reflexivity.
    + injection Hi as <-. left. vm_compute. discriminate.
    + discriminate Hi.
  - reflexivity.
Defined.


End BotFacts.


(* ===================================================================== *)
(** * Properties on double-precision numbers *)
(* ===================================================================== *)

Module DoubleFacts.

Import SpecFloat.

(** Comparing the other way round gives the opposite answer. *)
Lemma compare_swap (x y : Double.t) :
  SFcompare y x = option_map CompOpp (SFcompare x y).
Proof.
  destruct x as [sx|sx| |sx mx ex], y as [sy|sy| |sy my ey]; simpl;
    try reflexivity;
    try (destruct sx; reflexivity); try (destruct sy; reflexivity);
    try (destruct sx, sy; reflexivity).
  assert (Hm : Pos.compare_cont Eq my mx = CompOpp (Pos.compare_cont Eq mx my))
    by (symmetry; apply (Pos.compare_cont_antisym mx my Eq)).
  destruct sx, sy; simpl; try reflexivity.
  - rewrite (Z.compare_antisym ex ey), Hm.
    destruct (ex ?= ey)%Z; simpl; try reflexivity.
  - rewrite (Z.compare_antisym ex ey), Hm.
    destruct (ex ?= ey)%Z; simpl; try reflexivity.
Qed.

(** [x < y] excludes [y <= x]; [x <= y] excludes [y < x]. *)
Lemma ltb_not_leb (x y : Double.t) :
  Double.ltb x y = true -> Double.leb y x = false.
Proof.
  unfold Double.ltb, Double.leb, SFltb, SFleb. rewrite (compare_swap x y).
  destruct (SFcompare x y) as [[| |]|]; simpl; congruence.
Qed.

Lemma leb_not_ltb (x y : Double.t) :
  Double.leb x y = true -> Double.ltb y x = false.
Proof.
  unfold Double.ltb, Double.leb, SFltb, SFleb. rewrite (compare_swap x y).
  destruct (SFcompare x y) as [[| |]|]; simpl; congruence.
Qed.

(** Nothing compares with [NaN]. *)
Lemma leb_nan_l (x : Double.t) : Double.leb Double.nan x = false.
Proof. reflexivity. Qed.

Lemma leb_nan_r (x : Double.t) : Double.leb x Double.nan = false.
Proof. destruct x; reflexivity. Qed.

(** A finite number minus itself is [+0]. *)
Lemma sub_diag (s : bool) (m : positive) (e : Z) :
  Double.sub (S754_finite s m e) (S754_finite s m e) = Double.zero.
Proof.
  unfold Double.sub, SFsub. cbv zeta. rewrite Z.sub_diag. reflexivity.
Qed.

End DoubleFacts.


(** ** The drop/rise strategy on doubles *)

Module IEEEStrategyFacts.

Import IEEE IEEE.DropRiseStrategy.

Lemma feed64_cons (st : t) (u : PriceUpdate) (us : list PriceUpdate) :
  feed st (u :: us) = feed (snd (onUpdate st u)) us.
Proof. reflexivity. Qed.

Lemma onUpdate64_config (st : t) (u : PriceUpdate) :
  config (snd (onUpdate st u)) = config st.
Proof. unfold onUpdate. destruct (initialPrices st !! u_symbol u); reflexivity. Qed.

Lemma feed64_config (us : list PriceUpdate) (st : t) :
  config (feed st us) = config st.
Proof.
  revert st. induction us as [|u us IH]; intros st; [reflexivity|].
  rewrite feed64_cons, IH. apply onUpdate64_config.
Qed.

Lemma onUpdate64_initialPrices (st : t) (u : PriceUpdate) (s : string) :
  initialPrices (snd (onUpdate st u)) !! s =
  match initialPrices st !! s with
  | Some p => Some p
  | None => if decide (u_symbol u = s) then Some (u_price u) else None
  end.
Proof.
  unfold onUpdate. destruct (initialPrices st !! u_symbol u) as [p0|] eqn:E; simpl.
  - destruct (initialPrices st !! s) as [p|] eqn:Es; [reflexivity|].
    destruct (decide (u_symbol u = s)) as [Hs|Hs]; [|reflexivity].
    rewrite Hs in E. congruence.
  - destruct (decide (u_symbol u = s)) as [<-|Hne].
    + rewrite lookup_insert_eq, E. reflexivity.
    + rewrite lookup_insert_ne by assumption.
      destruct (initialPrices st !! s); reflexivity.
Qed.

Lemma feed64_keeps_reference (us : list PriceUpdate) (st : t) (s : string)
    (p0 : Double.t) :
  initialPrices st !! s = Some p0 ->
  initialPrices (feed st us) !! s = Some p0.
Proof.
  revert st. induction us as [|u us IH]; intros st E; [assumption|].
  rewrite feed64_cons. apply IH. rewrite onUpdate64_initialPrices, E. reflexivity.
Qed.

Lemma feed64_initialPrices (us : list PriceUpdate) (st : t) (s : string) :
  initialPrices st !! s = None ->
  initialPrices (feed st us) !! s = firstPrice s us.
Proof.
  revert st. induction us as [|u us IH]; intros st E; [assumption|].
  rewrite feed64_cons. simpl firstPrice.
  destruct (decide (u_symbol u = s)) as [Hs|Hs].
  - apply feed64_keeps_reference.
    rewrite onUpdate64_initialPrices, E. now rewrite decide_True.
  - apply IH. rewrite onUpdate64_initialPrices, E. now rewrite decide_False.
Qed.

(** The signal of an update of a symbol already seen in [earlier]. *)
Lemma signal64_after_first
    (cfg : StrategyConfig) (earlier : list PriceUpdate) (u : PriceUpdate)
    (p0 : Double.t) :
  firstPrice (u_symbol u) earlier = Some p0 ->
  fst (onUpdate (feed (initialize create cfg) earlier) u) =
  decide_signal cfg (u_symbol u) (priceChange (u_price u) p0).
Proof.
  intros Hfirst. unfold onUpdate.
  rewrite feed64_initialPrices by apply lookup_empty.
  rewrite Hfirst. cbn [fst]. now rewrite feed64_config.
Qed.

(** C4.  An update of a symbol seen before, whose first price in the
    earlier updates was [p0], is judged on [change], the number the program
    computes for [(price - p0) / p0] with its two roundings: BUY with
    [buyPercentage] when [change <= -dropThreshold]; otherwise SELL with
    [sellPercentage] when [change >= riseThreshold]; nothing when [change]
    lies strictly between the two, and nothing when it is [NaN]. *)
Theorem onUpdate_thresholds
    (cfg : StrategyConfig) (earlier : list PriceUpdate) (u : PriceUpdate)
    (p0 : Double.t) :
  firstPrice (u_symbol u) earlier = Some p0 ->
  let st := feed (initialize create cfg) earlier in
  let change := Double.div (Double.sub (u_price u) p0) p0 in
  (Double.leb change (Double.opp (dropThreshold cfg)) = true ->
   fst (onUpdate st u) =
   Some (mkTradeSignal (u_symbol u) BUY (buyPercentage cfg))) /\
  (Double.leb change (Double.opp (dropThreshold cfg)) = false ->
   Double.leb (riseThreshold cfg) change = true ->
   fst (onUpdate st u) =
   Some (mkTradeSignal (u_symbol u) SELL (sellPercentage cfg))) /\
  (Double.ltb (Double.opp (dropThreshold cfg)) change = true ->
   Double.ltb change (riseThreshold cfg) = true ->
   fst (onUpdate st u) = None) /\
  (change = Double.nan -> fst (onUpdate st u) = None).
Proof.
  intros Hfirst st change. unfold st.
  rewrite (signal64_after_first cfg earlier u p0 Hfirst).
  change (priceChange (u_price u) p0) with change.
  unfold decide_signal.
  split; [|split; [|split]].
  - intros ->. reflexivity.
  - intros -> ->. reflexivity.
  - intros Hd Hr.
    apply DoubleFacts.ltb_not_leb in Hd. apply DoubleFacts.ltb_not_leb in Hr.
    now rewrite Hd, Hr.
  - intros ->. rewrite DoubleFacts.leb_nan_l, DoubleFacts.leb_nan_r. reflexivity.
Qed.

(** At the thresholds themselves, with the default configuration: from 100
    a price of 95 buys and a price of 110 sells, and from 3 a price of 3.3,
    whose change rounds below 0.1, does nothing. *)
Lemma onUpdate_thresholds_witness :
  let first p := mkPriceUpdate "ETHUSDT" p (Double.ofZ 0) in
  let next p := mkPriceUpdate "ETHUSDT" p (Double.ofZ 60000) in
  let st p := feed (initialize create defaultConfig) [first p] in
  fst (onUpdate (st (Double.ofZ 100)) (next (Double.ofZ 95))) =
    Some (mkTradeSignal "ETHUSDT" BUY (Double.lit (10 # 100))) /\
  fst (onUpdate (st (Double.ofZ 100)) (next (Double.ofZ 110))) =
    Some (mkTradeSignal "ETHUSDT" SELL (Double.lit (20 # 100))) /\
  fst (onUpdate (st (Double.ofZ 3)) (next (Double.lit (33 # 10)))) = None.
Proof.
  intros first next st.
  split; [|split].
  - apply (proj1 (onUpdate_thresholds defaultConfig [first (Double.ofZ 100)]
                    (next (Double.ofZ 95)) (Double.ofZ 100) eq_refl)).
    vm_compute. reflexivity.
  - apply (proj1 (proj2 (onUpdate_thresholds defaultConfig [first (Double.ofZ 100)]
                           (next (Double.ofZ 110)) (Double.ofZ 100) eq_refl)));
      vm_compute; reflexivity.
  - apply (proj1 (proj2 (proj2 (onUpdate_thresholds defaultConfig
                                  [first (Double.ofZ 3)]
                                  (next (Double.lit (33 # 10))) (Double.ofZ 3)
                                  eq_refl))));
      vm_compute; reflexivity.
Defined.

End IEEEStrategyFacts.


(** ** The backtesting engine on doubles *)

Module IEEEEngineFacts.

Import IEEE IEEE.BacktestingEngine.

(** C3.  The risk check reads its quantity, its price and the two limits
    and nothing else (not the symbol, not [maxDailyLoss], no state).  It
    accepts exactly when the product the program computes for
    [quantity * price], rounded as every product is, is at most
    [maxTradeSize] and [quantity] is at most [maxPositionSize]; so it
    rejects whenever that product is above [maxTradeSize], whenever
    [quantity] is above [maxPositionSize], and whenever one of them is
    [NaN].  The rounding decides at the limit: 0.1 at a price of 3 is
    rejected under a limit of 0.3, and 16666.666666666668 at a price of 3 is
    accepted under a limit of 50000. *)
Theorem riskCheck_spec
    (limits : RiskLimits) (symbol : string) (quantity price : Double.t) :
  (riskCheck limits symbol quantity price = true <->
   Double.leb (Double.mul quantity price) (maxTradeSize limits) = true /\
   Double.leb quantity (maxPositionSize limits) = true) /\
  (Double.ltb (maxTradeSize limits) (Double.mul quantity price) = true ->
   riskCheck limits symbol quantity price = false) /\
  (Double.ltb (maxPositionSize limits) quantity = true ->
   riskCheck limits symbol quantity price = false) /\
  (Double.mul quantity price = Double.nan ->
   riskCheck limits symbol quantity price = false) /\
  (forall (symbol' : string) (dailyLoss : Double.t),
     riskCheck (mkRiskLimits (maxPositionSize limits) dailyLoss (maxTradeSize limits))
               symbol' quantity price =
     riskCheck limits symbol quantity price) /\
  riskCheck (mkRiskLimits (Double.ofZ 100) Double.zero (Double.lit (3 # 10)))
            symbol (Double.lit (1 # 10)) (Double.ofZ 3) = false /\
  riskCheck (mkRiskLimits (Double.ofZ 100000) Double.zero (Double.ofZ 50000))
            symbol (Double.lit (16666666666666668 # 1000000000000)) (Double.ofZ 3)
    = true.
Proof.
  unfold riskCheck. cbv zeta.
  split; [apply andb_true_iff|].
  split; [|split; [|split; [|split; [|split]]]].
  - intros Hgt. apply DoubleFacts.ltb_not_leb in Hgt. now rewrite Hgt.
  - intros Hgt. apply DoubleFacts.ltb_not_leb in Hgt. rewrite Hgt.
    apply andb_false_r.
  - intros ->. reflexivity.
  - intros symbol' dailyLoss. reflexivity.
  - vm_compute. reflexivity.
  - vm_compute. reflexivity.
Qed.

Section AnyStrategy.

Context {S : Type} `{IStrategy S}.

Implicit Types (e : t S).

(** *** The Sharpe ratio *)

Lemma returnsStep_series e (trs : list Trade)
    (prev : Double.t) (returns : list Double.t) :
  snd (fold_left (returnsStep e) trs (prev, returns)) =
  returns ++ returnSeries prev (map (valueAtTrade e) trs).
Proof.
  revert prev returns. induction trs as [|tr trs IH]; intros prev returns.
  - simpl. now rewrite app_nil_r.
  - cbn [fold_left map returnSeries]. unfold returnsStep at 2. rewrite IH.
    destruct (Double.eqb prev Double.zero); simpl.
    + reflexivity.
    + now rewrite <- app_assoc.
Qed.


(** *** The BUY loop *)

Lemma iter_shift {A : Type} (f : A -> A) (n : nat) (x : A) :
  Nat.iter n f (f x) = Nat.iter (Datatypes.S n) f x.
Proof. induction n as [|n IH]; [reflexivity|]. simpl. now rewrite IH. Qed.

Lemma filled_cons own signal update sliceAmount quantity (i : nat) rest e :
  filled own signal update sliceAmount quantity (i :: rest) e =
  filled own signal update sliceAmount quantity rest
    (fillBuy own signal update sliceAmount quantity i e).
Proof. reflexivity. Qed.

Lemma filled_trades own signal update sliceAmount quantity idxs e :
  trades (filled own signal update sliceAmount quantity idxs e) =
  trades e ++ map (buyTrade signal update quantity) idxs.
Proof.
  revert e. induction idxs as [|i rest IH]; intros e.
  - simpl. now rewrite app_nil_r.
  - rewrite filled_cons, IH. cbn [map fillBuy pushTrade trades].
    now rewrite <- app_assoc.
Qed.

Lemma filled_riskLimits own signal update sliceAmount quantity idxs e :
  riskLimits (filled own signal update sliceAmount quantity idxs e) = riskLimits e.
Proof.
  revert e. induction idxs as [|i rest IH]; intros e; [reflexivity|].
  now rewrite filled_cons, IH.
Qed.

Lemma filled_cash own signal update sliceAmount quantity idxs e :
  cash (portfolio (filled own signal update sliceAmount quantity idxs e)) =
  Nat.iter (length idxs) (fun c => Double.sub c sliceAmount) (cash (portfolio e)).
Proof.
  revert e. induction idxs as [|i rest IH]; intros e; [reflexivity|].
  rewrite filled_cons, IH.
  exact (iter_shift (fun c => Double.sub c sliceAmount) (length rest)
           (cash (portfolio e))).
Qed.

Lemma getProp_updateHoldings (f : Double.t -> Double.t) (key : string)
    (props : list (string * Asset)) :
  option_map a_holdings (getProp (updateHoldings f key props) key) =
  option_map f (option_map a_holdings (getProp props key)).
Proof.
  induction props as [|[k a] props IH]; [reflexivity|].
  cbn [updateHoldings getProp].
  destruct (decide (k = key)) as [E|E]; cbn [getProp].
  - rewrite decide_True by exact E. reflexivity.
  - rewrite decide_False by exact E. exact IH.
Qed.

Lemma filled_holdings signal update sliceAmount quantity idxs e :
  holdingsOf (s_symbol signal) (filled true signal update sliceAmount quantity idxs e) =
  option_map (Nat.iter (length idxs) (fun h => Double.add h quantity))
             (holdingsOf (s_symbol signal) e).
Proof.
  revert e. induction idxs as [|i rest IH]; intros e.
  - simpl. now destruct (holdingsOf _ e).
  - rewrite filled_cons, IH.
    unfold holdingsOf at 1. cbn [fillBuy pushTrade setPortfolio portfolio assets].
    rewrite getProp_updateHoldings.
    unfold holdingsOf. destruct (getProp _ _) as [a|]; [|reflexivity].
    cbn [option_map length]. f_equal.
    exact (iter_shift (fun h => Double.add h quantity) (length rest) (a_holdings a)).
Qed.

(** A slice the risk check rejects is rejected in every turn. *)
Lemma buySlices_rejected own signal update sliceAmount idxs e :
  riskCheck (riskLimits e) (s_symbol signal)
            (Double.div sliceAmount (u_price update)) (u_price update) = false ->
  buySlices own signal update sliceAmount idxs e = e.
Proof.
  intros Hr. induction idxs as [|i rest IH]; [reflexivity|].
  cbn [buySlices]. destruct (Double.ltb _ _); [reflexivity|].
  rewrite Hr. exact IH.
Qed.

(** A slice the risk check accepts is filled in every turn until the cash
    is below the slice amount. *)
Lemma buySlices_accepted own signal update sliceAmount (a n : nat) e :
  riskCheck (riskLimits e) (s_symbol signal)
            (Double.div sliceAmount (u_price update)) (u_price update) = true ->
  exists k : nat,
    (k <= n)%nat /\
    buySlices own signal update sliceAmount (seq a n) e =
      filled own signal update sliceAmount (Double.div sliceAmount (u_price update))
             (seq a k) e /\
    (k = n \/
     Double.ltb (cash (portfolio (buySlices own signal update sliceAmount (seq a n) e)))
                sliceAmount = true).
Proof.
  revert a e. induction n as [|n IH]; intros a e Hr.
  - exists 0%nat. split; [lia|]. split; [reflexivity|now left].
  - cbn [seq buySlices].
    destruct (Double.ltb (cash (portfolio e)) sliceAmount) eqn:Hlt.
    + exists 0%nat. split; [lia|]. split; [reflexivity|now right].
    + rewrite Hr.
      set (q := Double.div sliceAmount (u_price update)) in *.
      destruct (IH (Datatypes.S a) (fillBuy own signal update sliceAmount q a e))
        as (k & Hk & Heq & Hstop); [exact Hr|].
      exists (Datatypes.S k). split; [lia|]. split.
      * rewrite Heq. reflexivity.
      * destruct Hstop as [->|Hstop]; [now left|now right].
Qed.

(** X4.  For a symbol the portfolio holds, [executeBuy] is all or nothing.
    The slice amount, the quantity and the price are the same in all five
    turns, and so is the outcome of the risk check, which is decided on the
    numbers as the program rounds them.  If it rejects, nothing is changed.
    If it accepts, the first [k] turns each record a trade for the
    quantity, subtract the slice amount from the cash and add the quantity
    to the holdings, and [k] is 5 unless the loop stopped on a cash below
    the slice amount. *)
Theorem buy_stops_only_for_cash
    (signal : TradeSignal) (update : PriceUpdate) e (asset : Asset) :
  getProp (assets (portfolio e)) (s_symbol signal) = Some asset ->
  let sliceAmount :=
    Double.div (Double.mul (calculateTotalValue e (Some update))
                           (s_percentage signal))
               (Double.ofZ 5) in
  let quantity := Double.div sliceAmount (u_price update) in
  let accepted :=
    riskCheck (riskLimits e) (s_symbol signal) quantity (u_price update) in
  let e' := executeBuy signal update e in
  (accepted = false -> e' = e) /\
  (accepted = true ->
   exists k : nat,
     (k <= 5)%nat /\
     trades e' = trades e ++ map (buyTrade signal update quantity) (seq 0 k) /\
     cash (portfolio e') =
       Nat.iter k (fun c => Double.sub c sliceAmount) (cash (portfolio e)) /\
     holdingsOf (s_symbol signal) e' =
       Some (Nat.iter k (fun h => Double.add h quantity) (a_holdings asset)) /\
     (k = 5%nat \/ Double.ltb (cash (portfolio e')) sliceAmount = true)).
Proof.
  intros Href sliceAmount quantity accepted e'.
  assert (E : e' = buySlices true signal update sliceAmount (seq 0 5) e).
  { unfold e', executeBuy. rewrite Href.
    rewrite bool_decide_eq_true_2 by (now eexists). reflexivity. }
  split.
  - intros Hr. rewrite E. now apply buySlices_rejected.
  - intros Hr.
    destruct (buySlices_accepted true signal update sliceAmount 0 5 e Hr)
      as (k & Hk & Heq & Hstop).
    fold quantity in Heq. rewrite <- E in Heq, Hstop.
    exists k. split; [exact Hk|].
    split; [rewrite Heq; apply filled_trades|].
    split; [rewrite Heq, filled_cash, length_seq; reflexivity|].
    split; [|exact Hstop].
    rewrite Heq, filled_holdings, length_seq.
    unfold holdingsOf. rewrite Href. reflexivity.
Qed.

(** *** The total return *)

(** X7.  [run] takes the initial value after the updates have been
    processed, from the same portfolio and by the same sum as the total
    value, so the two are the same number and the total return is never
    anything but a zero or [NaN]: a zero with the value's sign when that
    value is finite and not zero, [NaN] when it is zero, infinite (the sum
    overflowed) or [NaN]. *)
Theorem total_return_is_zero
    (Math_sqrt : Double.t -> Double.t) (Math_pow : Double.t -> Double.t -> Double.t)
    e (priceData : list PriceUpdate) :
  let e3 := afterUpdates e priceData in
  let value := calculateInitialValue e3 in
  let result := r_totalReturn (snd (run Math_sqrt Math_pow e priceData)) in
  fst (run Math_sqrt Math_pow e priceData) = e3 /\
  calculateTotalValue e3 (last priceData) = value /\
  match value with
  | SpecFloat.S754_finite s _ _ => result = SpecFloat.S754_zero s
  | _ => result = Double.nan
  end.
Proof.
  intros e3 value result.
  split; [reflexivity|]. split; [reflexivity|].
  assert (Hres : result =
                 Double.mul (Double.div (Double.sub value value) value)
                            (Double.ofZ 100)) by reflexivity.
  rewrite Hres. clear Hres. clearbody value.
  destruct value as [s|s| |s m x].
  - destruct s; reflexivity.
  - destruct s; reflexivity.
  - reflexivity.
  - rewrite DoubleFacts.sub_diag. destruct s; reflexivity.
Qed.

(** *** What a run changes, and the valuations of its result *)

(** Writing the holdings of an asset keeps every key, symbol and price. *)
Lemma updateHoldings_public (f : Double.t -> Double.t) (key : string)
    (props : list (string * Asset)) :
  map (fun ka => (fst ka, a_symbol (snd ka), a_price (snd ka)))
      (updateHoldings f key props) =
  map (fun ka => (fst ka, a_symbol (snd ka), a_price (snd ka))) props.
Proof.
  induction props as [|[k a] props IH]; [reflexivity|].
  cbn [updateHoldings]. destruct (decide (k = key)); [reflexivity|].
  cbn [map]. now rewrite IH.
Qed.

(** The keys, symbols and prices of the engine's assets. *)
Lemma fillBuy_public own signal update sliceAmount quantity i e :
  map (fun ka => (fst ka, a_symbol (snd ka), a_price (snd ka)))
      (assets (portfolio (fillBuy own signal update sliceAmount quantity i e))) =
  map (fun ka => (fst ka, a_symbol (snd ka), a_price (snd ka)))
      (assets (portfolio e)).
Proof.
  cbn [fillBuy pushTrade setPortfolio portfolio assets].
  destruct own; [apply updateHoldings_public|reflexivity].
Qed.

Lemma fillSell_public signal update quantity i e :
  map (fun ka => (fst ka, a_symbol (snd ka), a_price (snd ka)))
      (assets (portfolio (fillSell signal update quantity i e))) =
  map (fun ka => (fst ka, a_symbol (snd ka), a_price (snd ka)))
      (assets (portfolio e)).
Proof.
  cbn [fillSell pushTrade setPortfolio portfolio assets].
  apply updateHoldings_public.
Qed.

Lemma keeps_refl update e : keeps update e e.
Proof.
  split; [reflexivity|]. split; [reflexivity|].
  exists []. split; [now rewrite app_nil_r|constructor].
Qed.

Lemma keeps_trans update e1 e2 e3 :
  keeps update e1 e2 -> keeps update e2 e3 -> keeps update e1 e3.
Proof.
  intros (L1 & P1 & new1 & T1 & F1) (L2 & P2 & new2 & T2 & F2).
  split; [congruence|]. split; [congruence|].
  exists (new1 ++ new2). split.
  - now rewrite T2, T1, app_assoc.
  - apply Forall_app. split; assumption.
Qed.

Lemma keeps_fillBuy own signal update sliceAmount quantity i e :
  keeps update e (fillBuy own signal update sliceAmount quantity i e).
Proof.
  split; [reflexivity|]. split; [apply fillBuy_public|].
  exists [buyTrade signal update quantity i]. split; [reflexivity|].
  repeat constructor.
Qed.

Lemma keeps_fillSell signal update quantity i e :
  keeps update e (fillSell signal update quantity i e).
Proof.
  split; [reflexivity|]. split; [apply fillSell_public|].
  exists [sellTrade signal update quantity i]. split; [reflexivity|].
  repeat constructor.
Qed.

Lemma keeps_buySlices own signal update sliceAmount idxs e :
  keeps update e (buySlices own signal update sliceAmount idxs e).
Proof.
  revert e. induction idxs as [|i rest IH]; intros e; [apply keeps_refl|].
  cbn [buySlices]. destruct (Double.ltb _ _); [apply keeps_refl|].
  destruct (riskCheck _ _ _ _); [|apply IH].
  eapply keeps_trans; [apply keeps_fillBuy|apply IH].
Qed.

Lemma keeps_sellSlices signal update sliceQuantity idxs e :
  keeps update e (sellSlices signal update sliceQuantity idxs e).
Proof.
  revert e. induction idxs as [|i rest IH]; intros e; [apply keeps_refl|].
  unfold sellSlices. cbn [fold_left].
  eapply keeps_trans; [|apply IH].
  unfold sellSlice. destruct (holdingsOf _ e); [|apply keeps_refl].
  destruct (_ && _); [apply keeps_fillSell|apply keeps_refl].
Qed.

Lemma keeps_processUpdate e update :
  keeps update
    (setStrategy e (strategy e))
    (setStrategy (processUpdate e update) (strategy e)).
Proof.
  unfold processUpdate. destruct (onUpdate (strategy e) update) as [signal s'].
  destruct signal as [sig|]; [|apply keeps_refl].
  destruct (s_action sig).
  - unfold executeBuy. cbv zeta.
    destruct (_ || _); [|apply keeps_refl].
    destruct (keeps_buySlices
                (bool_decide (is_Some (getProp (assets (portfolio (setStrategy e s')))
                                               (s_symbol sig))))
                sig update
                (Double.div
                   (Double.mul (calculateTotalValue (setStrategy e s') (Some update))
                               (s_percentage sig)) (Double.ofZ 5))
                (seq 0 5) (setStrategy e s')) as (L & P & new & T & F).
    split; [exact L|]. split; [exact P|]. exists new. split; [exact T|exact F].
  - unfold executeSell.
    destruct (getProp _ _) as [asset|]; [|apply keeps_refl].
    destruct (Double.leb _ _); [apply keeps_refl|].
    destruct (keeps_sellSlices sig update
                (Double.div (Double.mul (a_holdings asset) (s_percentage sig))
                            (Double.ofZ 5))
                (seq 0 5) (setStrategy e s')) as (L & P & new & T & F).
    split; [exact L|]. split; [exact P|]. exists new. split; [exact T|exact F].
Qed.

(** All the updates of a run. *)
Lemma processAll_keeps (priceData : list PriceUpdate) e :
  let e' := fold_left processUpdate priceData e in
  riskLimits e' = riskLimits e /\
  map (fun ka => (fst ka, a_symbol (snd ka), a_price (snd ka)))
      (assets (portfolio e')) =
  map (fun ka => (fst ka, a_symbol (snd ka), a_price (snd ka)))
      (assets (portfolio e)) /\
  exists new : list Trade,
    trades e' = trades e ++ new /\
    Forall (fun tr => exists u, In u priceData /\ t_price tr = u_price u) new.
Proof.
  revert e. induction priceData as [|u us IH]; intros e.
  - split; [reflexivity|]. split; [reflexivity|].
    exists []. split; [simpl; now rewrite app_nil_r|constructor].
  - cbn [fold_left]. cbv zeta.
    destruct (keeps_processUpdate e u) as (L1 & P1 & new1 & T1 & F1).
    destruct (IH (processUpdate e u)) as (L2 & P2 & new2 & T2 & F2).
    cbn [setStrategy riskLimits portfolio trades] in L1, P1, T1.
    split; [congruence|]. split; [congruence|].
    exists (new1 ++ new2). split.
    + now rewrite T2, T1, app_assoc.
    + apply Forall_app. split.
      * eapply Forall_impl; [exact F1|]. intros tr Hp. exists u. split; [now left|exact Hp].
      * eapply Forall_impl; [exact F2|]. intros tr (u' & Hin & Hp).
        exists u'. split; [now right|exact Hp].
Qed.

(** A valuation made for a trade whose symbol no asset has is the initial
    value. *)
Lemma valueAtTrade_other e (tr : Trade) :
  Forall (fun ka => a_symbol (snd ka) <> t_symbol tr) (assets (portfolio e)) ->
  valueAtTrade e tr = calculateInitialValue e.
Proof.
  unfold valueAtTrade, calculateInitialValue, valueOf.
  generalize (cash (portfolio e)).
  induction (assets (portfolio e)) as [|ka props IH]; intros c Hall; [reflexivity|].
  apply Forall_cons in Hall as [Hne Hall]. cbn [fold_left].
  rewrite decide_False by exact Hne. now apply IH.
Qed.

(** The valuations of a run on doubles. *)
Lemma run_valuations
    (Math_sqrt : Double.t -> Double.t) (Math_pow : Double.t -> Double.t -> Double.t)
    e (priceData : list PriceUpdate) :
  let out := run Math_sqrt Math_pow e priceData in
  let e3 := fst out in
  map (fun ka => (fst ka, a_symbol (snd ka), a_price (snd ka)))
      (assets (r_finalPortfolio (snd out))) =
  map (fun ka => (fst ka, a_symbol (snd ka), a_price (snd ka)))
      (assets (portfolio e)) /\
  calculateInitialValue e3 = valueOf (r_finalPortfolio (snd out)) /\
  (forall update : option PriceUpdate,
     calculateTotalValue e3 update = calculateInitialValue e3) /\
  (exists new : list Trade,
     r_trades (snd out) = trades e ++ new /\
     Forall (fun tr => exists u, In u priceData /\ t_price tr = u_price u) new) /\
  (forall tr : Trade,
     valueAtTrade e3 tr =
     fold_left (fun value ka =>
                  Double.add value
                    (Double.mul (a_holdings (snd ka))
                       (if decide (a_symbol (snd ka) = t_symbol tr)
                        then t_price tr else a_price (snd ka))))
               (assets (r_finalPortfolio (snd out)))
               (cash (r_finalPortfolio (snd out)))) /\
  (let values := map (valueAtTrade e3) (r_trades (snd out)) in
   let returns := returnSeries (calculateInitialValue e3) values in
   calculateReturns e3 = returns /\
   r_sharpeRatio (snd out) =
     (if (length (r_trades (snd out)) <? 2)%nat then Double.zero
      else if Double.eqb (stdDevOf Math_sqrt Math_pow returns) Double.zero
           then Double.zero
           else Double.mul
                  (Double.div (averageOf returns)
                              (stdDevOf Math_sqrt Math_pow returns))
                  (Math_sqrt (Double.ofZ 252))) /\
   r_maxDrawdown (snd out) =
     snd (fold_left drawdownStep values (calculateInitialValue e3, Double.zero))).
Proof.
  intros out e3.
  destruct (processAll_keeps priceData
              (setStrategy e (initialize (strategy e) fixedConfig)))
    as (_ & P & new & T & F).
  split; [exact P|]. split; [reflexivity|]. split; [reflexivity|].
  split; [exists new; split; [exact T|exact F]|].
  split; [reflexivity|].
  cbv zeta.
  assert (Hr : calculateReturns e3 =
               returnSeries (calculateInitialValue e3)
                            (map (valueAtTrade e3) (trades e3))).
  { unfold calculateReturns. rewrite returnsStep_series. reflexivity. }
  change (r_trades (snd out)) with (trades e3).
  split; [exact Hr|]. split; [|reflexivity].
  change (r_sharpeRatio (snd out)) with (calculateSharpeRatio Math_sqrt Math_pow e3).
  unfold calculateSharpeRatio. rewrite Hr.
  destruct (length (trades e3) <? 2)%nat; [reflexivity|].
  now destruct (Double.eqb _ _).
Qed.

End AnyStrategy.

(** At the limit the rounding decides.  With cash 250000 and the limits
    50000 and 100, a BUY of the whole value at 588 makes slices of 50000
    whose value is computed as 50000.00000000001, and nothing is bought; at
    500 the quantity is 100 and the value 50000, and five slices are
    bought. *)
Lemma buy_stops_only_for_cash_witness :
  executeBuy IEEEScenario.atLimitSignal IEEEScenario.atLimitUpdate
             IEEEScenario.atLimit = IEEEScenario.atLimit /\
  exists k : nat,
    (k <= 5)%nat /\
    trades (executeBuy IEEEScenario.atLimitSignal IEEEScenario.withinLimitsUpdate
                       IEEEScenario.withinLimits) =
      map (buyTrade IEEEScenario.atLimitSignal IEEEScenario.withinLimitsUpdate
                    (Double.ofZ 100)) (seq 0 k) /\
    cash (portfolio (executeBuy IEEEScenario.atLimitSignal
                                IEEEScenario.withinLimitsUpdate
                                IEEEScenario.withinLimits)) =
      Nat.iter k (fun c => Double.sub c (Double.ofZ 50000)) (Double.ofZ 250000) /\
    holdingsOf "ETHUSDT"
      (executeBuy IEEEScenario.atLimitSignal IEEEScenario.withinLimitsUpdate
                  IEEEScenario.withinLimits) =
      Some (Nat.iter k (fun h => Double.add h (Double.ofZ 100)) Double.zero) /\
    (k = 5%nat \/
     Double.ltb (cash (portfolio (executeBuy IEEEScenario.atLimitSignal
                                             IEEEScenario.withinLimitsUpdate
                                             IEEEScenario.withinLimits)))
                (Double.ofZ 50000) = true).
Proof.
  split.
  - exact (proj1 (buy_stops_only_for_cash IEEEScenario.atLimitSignal
                    IEEEScenario.atLimitUpdate IEEEScenario.atLimit
                    (mkAsset "ETHUSDT" (Double.ofZ 588) Double.zero) eq_refl)
                 eq_refl).
  - exact (proj2 (buy_stops_only_for_cash IEEEScenario.atLimitSignal
                    IEEEScenario.withinLimitsUpdate IEEEScenario.withinLimits
                    (mkAsset "ETHUSDT" (Double.ofZ 500) Double.zero) eq_refl)
                 eq_refl).
Defined.

(** There all five slices are bought, and the cash left is zero. *)
Lemma buy_at_limit_fills :
  length (trades (executeBuy IEEEScenario.atLimitSignal
                             IEEEScenario.withinLimitsUpdate
                             IEEEScenario.withinLimits)) = 5%nat /\
  cash (portfolio (executeBuy IEEEScenario.atLimitSignal
                              IEEEScenario.withinLimitsUpdate
                              IEEEScenario.withinLimits)) = Double.zero.
Proof. split; vm_compute; reflexivity. Qed.

(** The deviation computed for a constant series need not be zero.  In
    [IEEEScenario.steady] the three returns are all 0.1; their computed mean
    is 0.10000000000000002, and with the square root rounded to nearest and
    [Math.pow(x, 2)] as [x * x] the deviation is [2 ^ -56] and the ratio
    about [1.14e17]. *)
Lemma constant_returns_sharpe :
  let r := Double.lit (1 # 10) in
  calculateReturns IEEEScenario.steady = [r; r; r] /\
  averageOf [r; r; r] = Double.lit (10000000000000002 # 100000000000000000) /\
  stdDevOf Double.sqrt (fun x _ => Double.mul x x) [r; r; r] =
    SpecFloat.S754_finite false 4503599627370496 (-108) /\
  calculateSharpeRatio Double.sqrt (fun x _ => Double.mul x x) IEEEScenario.steady =
    SpecFloat.S754_finite false 7149242771175297 4.
Proof. repeat split; vm_compute; reflexivity. Qed.

End IEEEEngineFacts.


(** ** The live bot on doubles *)

Module IEEEBotFacts.

Import IEEE.

Section AnyStrategy.

Context {S : Type} `{IStrategy S}.








End AnyStrategy.


(** There the bot stops one order short of the backtest: the fifth slice
    finds a cash of 0.03, its value is 0.030000000000000002, the bot's
    third test rejects it and the engine fills it. *)
Lemma live_buy_stops_early :
  let b := IEEEScenario.smallBot in
  let e := TradingBot.simulation DropRiseStrategy.create [] b in
  length (TradingBot.placed
            (TradingBot.executeSignal (IEEEScenario.accepting (Double.ofZ 7))
               IEEEScenario.smallSignal b)) = 4%nat /\
  length (BacktestingEngine.trades
            (BacktestingEngine.executeBuy IEEEScenario.smallSignal
               IEEEScenario.smallUpdate e)) = 5%nat.
Proof. split; vm_compute; reflexivity. Qed.

End IEEEBotFacts.

(* ===================================================================== *)
(** * The prices behind the valuations of a backtest *)
(* ===================================================================== *)

Module ValuationFacts.

(** C10, amended.  No operation of a backtest writes the price of an
    asset.  On the object store, a run changes only the cash of the
    engine's portfolio and the holdings of its assets, then allocates the
    snapshot; no asset changes its price or symbol, and the assets of the
    final portfolio have the keys, symbols and prices of the caller's
    initial portfolio.  On the numbers as the program computes them, the
    same holds of the engine's portfolio; the initial value and the total
    value are one sum over the final portfolio at these prices, whatever
    update is given; every trade of the run carries the price of one of the
    streamed updates; and the return series, the Sharpe ratio and the
    maximum drawdown of the result are computed from a valuation made once
    for each trade, which counts the assets with the trade's symbol at the
    trade's price and the others at their own: the returns are the relative
    changes between these valuations from the initial value on, the Sharpe
    ratio is taken over these returns, and the drawdown runs over these
    valuations. *)
Theorem backtest_prices
    {S : Type} `{IStrategy S} (Math_sqrt : Q -> Q) (h0 : Heap.heap) (strat : S)
    (initialPortfolio : Heap.loc) (limits : RiskLimits)
    (priceData : list PriceUpdate)
    {S64 : Type} `{IEEE.IStrategy S64}
    (Math_sqrt64 : Double.t -> Double.t)
    (Math_pow64 : Double.t -> Double.t -> Double.t)
    (e : IEEE.BacktestingEngine.t S64) (priceData64 : list IEEE.PriceUpdate) :
  (let st1 := BacktestingEngine.constructor h0 strat initialPortfolio limits in
   let out := BacktestingEngine.run Math_sqrt st1 priceData in
   let hf := fst (fst out) in
   let ef := snd (fst out) in
   let public (ka : string * Asset) :=
     (fst ka, a_symbol (snd ka), a_price (snd ka)) in
   (exists h3 : Heap.heap,
      Heap.writes (BacktestingEngine.portfolio (snd st1))
                  (BacktestingEngine.assetRefs (fst st1) (snd st1)) (fst st1) h3 /\
      hf = fst (Heap.newPortfolio h3
                  (Heap.getPortfolio h3 (BacktestingEngine.portfolio (snd st1))))) /\
   (forall l : Heap.loc,
      a_price (Heap.getAsset hf l) = a_price (Heap.getAsset (fst st1) l) /\
      a_symbol (Heap.getAsset hf l) = a_symbol (Heap.getAsset (fst st1) l)) /\
   map public (JSON.j_assets (JSON.stringify hf (r_finalPortfolio (snd out)))) =
     map public (JSON.j_assets (JSON.stringify h0 initialPortfolio)) /\
   (forall update : option PriceUpdate,
      BacktestingEngine.calculateTotalValue hf ef update =
      BacktestingEngine.calculateInitialValue hf ef) /\
   (forall trade : Trade,
      BacktestingEngine.valueAtTrade hf ef trade ==
      BacktestingEngine.calculateInitialValue hf ef +
      BacktestingEngine.tradePriceSurplus hf ef trade) /\
   Forall (fun tr => exists u, In u priceData /\ t_price tr = u_price u)
          (r_trades (snd out))) /\
  (let out := IEEE.BacktestingEngine.run Math_sqrt64 Math_pow64 e priceData64 in
   let e3 := fst out in
   let final := IEEE.r_finalPortfolio (snd out) in
   let public (ka : string * IEEE.Asset) :=
     (fst ka, IEEE.a_symbol (snd ka), IEEE.a_price (snd ka)) in
   let initialValue := IEEE.BacktestingEngine.calculateInitialValue e3 in
   let valuation (tr : IEEE.Trade) :=
     fold_left (fun value ka =>
                  Double.add value
                    (Double.mul (IEEE.a_holdings (snd ka))
                       (if decide (IEEE.a_symbol (snd ka) = IEEE.t_symbol tr)
                        then IEEE.t_price tr else IEEE.a_price (snd ka))))
               (IEEE.assets final) (IEEE.cash final) in
   let values := map valuation (IEEE.r_trades (snd out)) in
   let returns := IEEE.returnSeries initialValue values in
   let mean := IEEE.BacktestingEngine.averageOf returns in
   let stddev := IEEE.BacktestingEngine.stdDevOf Math_sqrt64 Math_pow64 returns in
   map public (IEEE.assets final) =
     map public (IEEE.assets (IEEE.BacktestingEngine.portfolio e)) /\
   initialValue = IEEE.valueOf final /\
   (forall update : option IEEE.PriceUpdate,
      IEEE.BacktestingEngine.calculateTotalValue e3 update = initialValue) /\
   (exists new : list IEEE.Trade,
      IEEE.r_trades (snd out) = IEEE.BacktestingEngine.trades e ++ new /\
      Forall (fun tr => exists u, In u priceData64 /\
                                  IEEE.t_price tr = IEEE.u_price u) new) /\
   (forall tr : IEEE.Trade,
      IEEE.BacktestingEngine.valueAtTrade e3 tr = valuation tr) /\
   (forall tr : IEEE.Trade,
      Forall (fun ka => IEEE.a_symbol (snd ka) <> IEEE.t_symbol tr)
             (IEEE.assets final) ->
      valuation tr = initialValue) /\
   IEEE.BacktestingEngine.calculateReturns e3 = returns /\
   IEEE.r_sharpeRatio (snd out) =
     (if (length (IEEE.r_trades (snd out)) <? 2)%nat then Double.zero
      else if Double.eqb stddev Double.zero then Double.zero
           else Double.mul (Double.div mean stddev) (Math_sqrt64 (Double.ofZ 252))) /\
   IEEE.r_maxDrawdown (snd out) =
     snd (fold_left IEEE.BacktestingEngine.drawdownStep values
            (initialValue, Double.zero))).
Proof.
  split.
  - exact (EngineFacts.backtest_store Math_sqrt h0 strat initialPortfolio limits
             priceData).
  - intros out e3 final public initialValue valuation values returns mean stddev.
    pose proof (IEEEEngineFacts.run_valuations Math_sqrt64 Math_pow64 e priceData64)
      as Hrun.
    cbv zeta in Hrun.
    destruct Hrun as (Hpub & Hinit & Htot & Htrades & Hval & Hret & Hsharpe & Hdd).
    assert (Evalues :
              map (IEEE.BacktestingEngine.valueAtTrade e3) (IEEE.r_trades (snd out)) =
              values).
    { apply map_ext. intros tr. apply Hval. }
    fold out e3 in Hret, Hsharpe, Hdd. rewrite Evalues in Hret, Hsharpe, Hdd.
    split; [exact Hpub|]. split; [exact Hinit|]. split; [exact Htot|].
    split; [exact Htrades|]. split; [exact Hval|].
    split.
    { intros tr Hother.
      transitivity (IEEE.BacktestingEngine.valueAtTrade e3 tr);
        [symmetry; apply Hval|].
      now apply IEEEEngineFacts.valueAtTrade_other. }
    split; [exact Hret|]. split; [exact Hsharpe|exact Hdd].
Qed.

End ValuationFacts.
